(** * drone_drake: the receding-horizon motion planner

    A shallow embedding of [scripts/tag_src/motion_planner_module.py]
    (class [QuadraticProgram]) and the properties of its per-tick
    coefficient rebuild, solve and decode steps.

    Conventions of the embedding.
    - Python floats are read as rationals ([Q]); a decimal literal is the
      rational it denotes.  Rounding and overflow are outside the model.
      The two infinities only occur in bound vectors and have their own type.
      The one division whose divisor can be zero, that of
      [linearized_distance], yields NaN there in the source; the residual
      functions are written with the total division of [Q], and the two
      event handlers record the error to which the NaN leads.
    - A one-dimensional array is a [list Q]; a two-dimensional array is the
      list of its rows.  [reshape] and the elementwise operations follow
      numpy on the shapes it accepts; numpy raises on the others.  The two
      event handlers check the shapes of the arrays they build from the
      ports and end in [ValueError] where numpy does; every statement on
      the residual functions carries the shape it needs.
    - The functions of JAX ([jacfwd], [jacrev], [linalg.norm]) and the Gurobi
      solver are libraries outside the repository: they are parameters of the
      development and nothing is assumed about them. *)

From Stdlib Require Import List Arith Lia ZArith QArith Qabs Qround Bool Lqa.
Import ListNotations.

Open Scope Q_scope.

(** ** Arrays *)

Definition vec := list Q.
Definition matrix := list vec.

(** [v[i]] for a non-negative index. *)
Definition getitem (v : vec) (i : nat) : Q := nth i v 0.

(** [m[i, :]]. *)
Definition row (m : matrix) (i : nat) : vec := nth i m [].

(** [v[-k]] for [k >= 1]: the index counts from the end. *)
Definition neg_index (v : vec) (k : nat) : nat := (length v - k)%nat.

(** [v[i] = a], in range. *)
Fixpoint setitem (v : vec) (i : nat) (a : Q) : vec :=
  match v, i with
  | [], _ => []
  | _ :: t, O => a :: t
  | h :: t, S i' => h :: setitem t i' a
  end.

(** [v[a:b]]. *)
Definition slice {A : Type} (a b : nat) (l : list A) : list A :=
  firstn (b - a) (skipn a l).

(** [v[1:]] and [v[:-1]]. *)
Definition drop_first (v : vec) : vec := skipn 1 v.
Definition drop_last (v : vec) : vec := firstn (length v - 1) v.

(** Elementwise operations on arrays of one shape. *)
Definition zip_with (f : Q -> Q -> Q) (a b : vec) : vec :=
  map (fun p => f (fst p) (snd p)) (combine a b).

Definition vadd : vec -> vec -> vec := zip_with Qplus.
Definition vsub : vec -> vec -> vec := zip_with Qminus.
Definition vmul : vec -> vec -> vec := zip_with Qmult.
Definition vdiv : vec -> vec -> vec := zip_with Qdiv.
Definition vneg (a : vec) : vec := map Qopp a.
(** [c * v], [v * c], [v / c], [v + c], [v - c] and [v ** 2] with a scalar [c]. *)
Definition scale_l (c : Q) (v : vec) : vec := map (fun a => c * a) v.
Definition scale_r (v : vec) (c : Q) : vec := map (fun a => a * c) v.
Definition div_r (v : vec) (c : Q) : vec := map (fun a => a / c) v.
Definition add_r (v : vec) (c : Q) : vec := map (fun a => a + c) v.
Definition sub_r (v : vec) (c : Q) : vec := map (fun a => a - c) v.
Definition square (v : vec) : vec := map (fun a => a * a) v.

Definition zeros (n : nat) : vec := repeat 0 n.

(** [jnp.sum] of a one-dimensional array. *)
Definition vsum (v : vec) : Q := fold_left Qplus v 0.

(** [c] successive rows of length [n] cut from a flat array. *)
Fixpoint chunks (n c : nat) (v : vec) : matrix :=
  match c with
  | O => []
  | S c' => firstn n v :: chunks n c' (skipn n v)
  end.

(** [v.reshape((r, -1))]: [r] rows; numpy requires [r] to divide the length. *)
Definition reshape (r : nat) (v : vec) : matrix :=
  chunks (length v / r) r v.

(** [np.reshape(v, (-1, n))]: rows of length [n]; numpy requires [n] to
    divide the length. *)
Definition reshape_cols (n : nat) (v : vec) : matrix :=
  chunks n (length v / n) v.

(** [m.flatten()] and [np.concatenate(rows, axis=0)] of one-dimensional rows. *)
Definition flatten (m : matrix) : vec := concat m.

(** [np.linspace(start, stop, num)]: [start + i * step], with
    [step = (stop - start) / (num - 1)]. *)
Definition linspace (start stop : Q) (num : nat) : vec :=
  map (fun i => start + inject_Z (Z.of_nat i) * ((stop - start) / inject_Z (Z.of_nat (num - 1))))
      (seq 0 num).

(** ** Bounds: floats with the two infinities *)

Inductive bound : Type :=
| NINF : bound
| Fin : Q -> bound
| Inf : bound.

(** [lo <= a] and [a <= hi] for a finite [a]. *)
Definition ble_lo (lo : bound) (a : Q) : Prop :=
  match lo with NINF => True | Fin l => l <= a | Inf => False end.
Definition ble_hi (a : Q) (hi : bound) : Prop :=
  match hi with NINF => False | Fin h => a <= h | Inf => True end.

(** [c * np.ones(n)]: [n] copies of [c] (a product by one is exact). *)
Definition times_ones (c : bound) (n : nat) : list bound := repeat c n.

(** ** Configuration and engine state *)

(** The fields of the [ml_collections.ConfigDict] that the planner reads. *)
Record Config := {
  motion_planner_rate : Q;
  nodes : nat;
  time_horizon : Q;
  state_dimension : nat;
  dt : Q;
  spline_resolution : nat;
  area_bounds : Q
}.

(** One block of linear constraints [lb <= A x <= ub]. *)
Record LinearConstraint := {
  lc_A : matrix;
  lc_lb : list bound;
  lc_ub : list bound
}.

(** The quadratic cost [0.5 x'Qx + b'x]. *)
Record QuadraticCost := {
  qc_Q : matrix;
  qc_b : vec
}.

(** The [MathematicalProgram] as the planner uses it: the decision
    variables, one bounding box, two linear blocks and one cost. *)
Record MathematicalProgram := {
  num_vars : nat;
  bounding_box : list bound * list bound;
  equality_constraint : LinearConstraint;
  inequality_constraint : LinearConstraint;
  objective_function : QuadraticCost
}.

(** What the planner reads of a [MathematicalProgramResult]. *)
Record MathematicalProgramResult := {
  is_success : bool;
  x_val : vec;
  optimization_status : Z;
  optimizer_time : Q
}.

(** The attributes of a [QuadraticProgram] instance.  [prog] and [solution]
    do not exist before [build_optimization]. *)
Record QuadraticProgram := {
  _UPDATE_RATE : Q;
  _nodes : nat;
  _time_horizon : Q;
  _state_dimension : nat;
  _dt : Q;
  _time_vector : vec;
  _spline_resolution : nat;
  _mass : Q;
  _friction : Q;
  _tol : Q;
  _solve_flag : Z;
  _area_limit : vec;
  _state_size : nat;
  _full_size : nat;
  _num_state_slack : nat;
  _num_risk_slack : nat;
  _num_slack : nat;
  _setpoint : vec;
  _state_bounds : vec;
  _weights : vec;
  opt_var_lb : list bound;
  opt_var_ub : list bound;
  _full_state_trajectory : vec;
  _warm_start : vec;
  prog : option MathematicalProgram;
  solution : option MathematicalProgramResult;
  _optimizer_time : Q
}.

(** The part of the Drake context the planner touches: the three input
    ports, read by value, and the abstract state behind the output port. *)
Record Context := {
  initial_condition : vec;
  obstacle_states : vec;
  risk_constraints : vec;
  abstract_state : vec
}.

(** [QuadraticProgram.__init__]. *)
Definition __init__ (config : Config) : QuadraticProgram :=
  let nodes_ := nodes config in
  let state_dimension_ := state_dimension config in
  let state_size := (state_dimension_ * 2)%nat in
  let full_size := (state_dimension_ * 3)%nat in
  let num_state_slack := 2%nat in
  let num_risk_slack := 1%nat in
  let num_slack := (num_state_slack + num_risk_slack)%nat in
  let state_bounds := [2; 2; 75 # 1000] in
  {| _UPDATE_RATE := motion_planner_rate config;
     _nodes := nodes_;
     _time_horizon := time_horizon config;
     _state_dimension := state_dimension_;
     _dt := dt config;
     _time_vector := linspace 0 (time_horizon config) nodes_;
     _spline_resolution := spline_resolution config;
     _mass := 27 # 1000;
     _friction := 1 # 100;
     _tol := 1 # 1000;
     _solve_flag := 0%Z;
     _area_limit := [area_bounds config; area_bounds config];
     _state_size := state_size;
     _full_size := full_size;
     _num_state_slack := num_state_slack;
     _num_risk_slack := num_risk_slack;
     _num_slack := num_slack;
     _setpoint := zeros ((full_size + num_slack) * nodes_);
     _state_bounds := state_bounds;
     _weights := [100; 1; 1 # 100; 1];
     opt_var_lb :=
       times_ones (Fin (- getitem state_bounds 0)) (state_dimension_ * nodes_)
       ++ times_ones (Fin (- getitem state_bounds 1)) (state_dimension_ * nodes_)
       ++ times_ones (Fin (- getitem state_bounds 2)) (state_dimension_ * nodes_)
       ++ repeat (Fin 0) (num_state_slack * nodes_)
       ++ times_ones NINF (num_risk_slack * nodes_);
     opt_var_ub :=
       times_ones (Fin (getitem state_bounds 0)) (state_dimension_ * nodes_)
       ++ times_ones (Fin (getitem state_bounds 1)) (state_dimension_ * nodes_)
       ++ times_ones (Fin (getitem state_bounds 2)) (state_dimension_ * nodes_)
       ++ times_ones Inf (num_state_slack * nodes_)
       ++ repeat (Fin 0) (num_risk_slack * nodes_);
     _full_state_trajectory := zeros (full_size * nodes_);
     _warm_start := zeros ((full_size + num_slack) * nodes_);
     prog := None;
     solution := None;
     _optimizer_time := 0 |}.

(** ** The residual functions *)

(** [_equality_constraints]: initial-condition rows, then the Euler
    collocation defects of the four state channels. *)
Definition _collocation_constraint (x0 x1 : vec) (dt : Q) : vec :=
  vsub (vsub (drop_first x0) (drop_last x0)) (scale_r (drop_last x1) dt).

Definition _equality_constraints
    (q initial_conditions : vec) (mass friction dt : Q)
    (num_states num_slack : nat) : vec :=
  let q := reshape (num_states + num_slack) q in
  let x := row q 0 in
  let y := row q 1 in
  let dx := row q 2 in
  let dy := row q 3 in
  let ux := row q 4 in
  let uy := row q 5 in
  let initial_condition :=
    [ getitem x 0 - getitem initial_conditions 0;
      getitem y 0 - getitem initial_conditions 1;
      getitem dx 0 - getitem initial_conditions 3;
      getitem dy 0 - getitem initial_conditions 4;
      getitem ux 0 - getitem initial_conditions 6;
      getitem uy 0 - getitem initial_conditions 7 ] in
  let ddx := div_r (vsub ux (scale_l friction dx)) mass in
  let ddy := div_r (vsub uy (scale_l friction dy)) mass in
  let x_defect := _collocation_constraint x dx dt in
  let y_defect := _collocation_constraint y dy dt in
  let dx_defect := _collocation_constraint dx ddx dt in
  let dy_defect := _collocation_constraint dy ddy dt in
  initial_condition ++ x_defect ++ y_defect ++ dx_defect ++ dy_defect.

(** Operations on two-dimensional arrays. *)
Definition mneg (m : matrix) : matrix := map vneg m.
Definition msub (a b : matrix) : matrix :=
  map (fun p => vsub (fst p) (snd p)) (combine a b).
Definition mmul (a b : matrix) : matrix :=
  map (fun p => vmul (fst p) (snd p)) (combine a b).
(** [m + c.reshape(-1, 1)] and [m - c.reshape(-1, 1)]: one scalar per row. *)
Definition add_col (m : matrix) (c : vec) : matrix :=
  map (fun p => add_r (fst p) (snd p)) (combine m c).
Definition sub_col (m : matrix) (c : vec) : matrix :=
  map (fun p => sub_r (fst p) (snd p)) (combine m c).
(** [m + s] with a one-dimensional [s]: [s] is added to every row. *)
Definition add_row (m : matrix) (s : vec) : matrix :=
  map (fun r => vadd r s) m.
(** [m[:, k]]. *)
Definition column (m : matrix) (k : nat) : vec := map (fun r => getitem r k) m.
(** [jnp.sum(m, axis=0)]. *)
Definition sum_axis0 (m : matrix) : vec :=
  match m with
  | [] => []
  | r :: rs => fold_left vadd rs r
  end.
(** [einsum('ij,ij->j', a, b)] and [einsum('i,j->ij', a, b)]. *)
Definition einsum_ij_ij_j (a b : matrix) : vec := sum_axis0 (mmul a b).
Definition einsum_i_j_ij (a b : vec) : matrix := map (fun ai => scale_l ai b) a.

Section Norm.

(** [jnp.sqrt], on which [jnp.linalg.norm] rests. *)
Variable sqrt : Q -> Q.

(** [jnp.linalg.norm(m, axis=0)]: the root of the sum of squares of each column. *)
Definition linalg_norm_axis0 (m : matrix) : vec :=
  map sqrt (sum_axis0 (map square m)).

(** [linearized_distance] of [_inequality_constraints]. *)
Definition linearized_distance_of (relative_distance halfspace_vector : matrix) : vec :=
  vmul (vdiv (einsum_ij_ij_j relative_distance halfspace_vector)
             (einsum_ij_ij_j halfspace_vector halfspace_vector))
       (linalg_norm_axis0 halfspace_vector).

(** [_inequality_constraints]: the area rows, then the risk rows. *)
Definition _inequality_constraints
    (q : vec) (obstacle_trajectory halfspace_vector : matrix)
    (slope intercept position_limit : vec)
    (num_states num_slack : nat) : vec :=
  let q := reshape (num_states + num_slack) q in
  let states_position := slice 0 2 q in
  let slack_position := slice 6 8 q in
  let slack_variable := last q [] in
  let area_bound :=
    flatten
      (msub (sub_col (mneg states_position) position_limit) slack_position
       ++ msub (sub_col states_position position_limit) slack_position) in
  let relative_distance := msub obstacle_trajectory states_position in
  let linearized_distance := linearized_distance_of relative_distance halfspace_vector in
  let rfun :=
    flatten
      (add_row (mneg (add_col (einsum_i_j_ij slope linearized_distance) intercept))
               slack_variable) in
  area_bound ++ rfun.

End Norm.

(** [_objective_function]. *)
Definition _objective_function
    (q w : vec) (num_states num_slack : nat) : Q :=
  let q := reshape (num_states + num_slack) q in
  let states_velocity := slice 2 4 q in
  let states_control := slice 4 6 q in
  let slack_position := slice 6 8 q in
  let slack_variable := last q [] in
  let minimize_slack_position :=
    scale_l (getitem w 0) (sum_axis0 (map square slack_position)) in
  let minimize_acceleration_effort :=
    scale_l (getitem w 1) (sum_axis0 (map square states_control)) in
  let minimize_velocity_effort :=
    scale_l (getitem w 2) (sum_axis0 (map square states_velocity)) in
  let minimize_failure := - getitem w 3 * vsum slack_variable in
  vsum (add_r (vadd (vadd minimize_slack_position minimize_acceleration_effort)
                    minimize_velocity_effort)
              minimize_failure).

(** ** Helper functions of the class *)

Definition Qltb (a b : Q) : bool := negb (Qle_bool b a).

(** [np.sign]. *)
Definition sign (u : Q) : Q :=
  if Qltb 0 u then 1 else if Qltb u 0 then - (1) else 0.

Definition convert_to_control (self : QuadraticProgram) (ddq dq : Q) : Q :=
  ddq * _mass self + _friction self * dq.

Definition compute_control (self : QuadraticProgram) (ddq dq limit : Q) : Q :=
  let u := convert_to_control self ddq dq in
  if Qltb (Qabs u) limit then u else sign u * limit.

Definition compute_acceleration (self : QuadraticProgram) (u dx : vec) : vec :=
  div_r (vsub u (scale_l (_friction self) dx)) (_mass self).

(** The closures that [build_optimization] stores on the instance. *)
Definition equality_func (self : QuadraticProgram) (x ic : vec) : vec :=
  _equality_constraints x ic (_mass self) (_friction self) (_dt self)
    (_full_size self) (_num_slack self).

Definition inequality_func (sqrt : Q -> Q) (self : QuadraticProgram)
    (x : vec) (y n : matrix) (m b : vec) : vec :=
  _inequality_constraints sqrt x y n m b (_area_limit self)
    (_full_size self) (_num_slack self).

Definition objective_func (self : QuadraticProgram) (x : vec) : Q :=
  _objective_function x (_weights self) (_full_size self) (_num_slack self).

(** ** Reading the ports (the opening of [build_optimization] and [update_qp]) *)

(** The initial condition with its two planar accelerations replaced by
    control values.  [Eval] hands out a copy of the port value, so the
    assignments stay local to the call. *)
Definition convert_initial_conditions (self : QuadraticProgram) (context : Context) : vec :=
  let initial_conditions := initial_condition context in
  let limit := getitem (_state_bounds self) 2 in
  let initial_conditions :=
    setitem initial_conditions (neg_index initial_conditions 3)
      (compute_control self
         (getitem initial_conditions (neg_index initial_conditions 3))
         (getitem initial_conditions 3) limit) in
  let initial_conditions :=
    setitem initial_conditions (neg_index initial_conditions 2)
      (compute_control self
         (getitem initial_conditions (neg_index initial_conditions 2))
         (getitem initial_conditions 4) limit) in
  initial_conditions.

(** [previous_trajectory], [obstacle_trajectory] and [halfspace_vector]. *)
Definition previous_trajectory_of (self : QuadraticProgram) : matrix :=
  slice 0 (_state_dimension self) (reshape_cols (_nodes self) (_warm_start self)).

Definition obstacle_trajectory_of (self : QuadraticProgram) (context : Context) : matrix :=
  let obstacle_states := obstacle_states context in
  add_col (einsum_i_j_ij (slice 3 5 obstacle_states) (_time_vector self))
          (slice 0 2 obstacle_states).

Definition halfspace_vector_of (self : QuadraticProgram) (context : Context) : matrix :=
  msub (obstacle_trajectory_of self context) (previous_trajectory_of self).

(** The shape of a two-dimensional array, and numpy's rule for an
    elementwise operation on two arrays (none of the arrays below has an
    axis of length one to broadcast). *)
Definition shape (m : matrix) : list nat := map (@length Q) m.

Definition same_shape (a b : matrix) : bool :=
  (length a =? length b)%nat
  && forallb (fun p => (fst p =? snd p)%nat) (combine (shape a) (shape b)).

(** The shapes on the lines that read the ports (source lines 364-372 and
    505-514).  [reshape((_spline_resolution, -1))] and
    [reshape((-1, _nodes))] need a positive row and column count that
    divides the length; [obstacle_states[:2].reshape((2, -1))] is added to
    the product of [obstacle_states[3:5]] with the node times, one row
    each; [obstacle_trajectory - previous_trajectory] needs the two rows of
    the former to meet the [_state_dimension] rows of the latter.  Where
    one of them fails numpy raises [ValueError], before any attribute is
    assigned. *)
Definition port_shapes_agree (self : QuadraticProgram) (context : Context) : bool :=
  let obstacle_states := obstacle_states context in
  (0 <? _spline_resolution self)%nat
  && (length (risk_constraints context) mod _spline_resolution self =? 0)%nat
  && (0 <? _nodes self)%nat
  && (length (_warm_start self) mod _nodes self =? 0)%nat
  && (length (slice 0 2 obstacle_states) =? 2)%nat
  && (length (slice 3 5 obstacle_states) =? 2)%nat
  && same_shape (obstacle_trajectory_of self context) (previous_trajectory_of self).

(** The divisor of [linearized_distance], [einsum('ij,ij->j', n, n)], node
    by node.  Where an entry is zero the halfspace vector of the node is
    zero, the source divides zero by zero, and the NaN reaches the
    inequality block [A_ineq], [b_ineq_ub], which Drake refuses
    ([AddLinearConstraint], [UpdateCoefficients]). *)
Definition linearized_distance_is_finite (halfspace_vector : matrix) : bool :=
  forallb (fun d => negb (Qeq_bool d 0))
          (einsum_ij_ij_j halfspace_vector halfspace_vector).

(** ** The quadratic program and the tick *)

(** The numeric outcome of the coefficient computation of one tick. *)
Record Coefficients := {
  A_eq : matrix;
  b_eq : vec;
  A_ineq : matrix;
  b_ineq_lb : list bound;
  b_ineq_ub : vec;
  cost_H : matrix;
  cost_f : vec
}.

(** What a tick writes to the terminal, and the debugger stop. *)
Inductive event : Type :=
| Print_did_not_solve : event
| Print_solver_status : Z -> event
| Print_objective_convex : event
| Pdb_set_trace : event.

(** How the operator leaves the debugger after [pdb.set_trace()]: the run
    is resumed, or the debugger is quit (also at the end of its input) and
    raises [BdbQuit]. *)
Inductive pdb_command : Type :=
| pdb_continue : pdb_command
| pdb_quit : pdb_command.

(** The exceptions that end an event handler before the debugger is
    reached: a missing attribute, a shape that numpy refuses, and an array
    that Drake refuses. *)
Inductive exception : Type :=
| AttributeError : exception
| ValueError : exception
| RuntimeError : exception.

(** How a call of an event handler ends.  It returns, with what it printed
    and the instance and the context as it leaves them; or the debugger is
    quit: [BdbQuit] leaves the handler from the line of [pdb.set_trace()],
    and the instance and the context stay as they are at that line; or one
    of the exceptions above is raised. *)
Inductive outcome : Type :=
| Returned : list event -> QuadraticProgram -> Context -> outcome
| BdbQuit : list event -> QuadraticProgram -> Context -> outcome
| Raised : exception -> outcome.

(** Attribute assignments on the instance. *)
Definition set_prog (self : QuadraticProgram) (p : MathematicalProgram) : QuadraticProgram :=
  {| _UPDATE_RATE := _UPDATE_RATE self; _nodes := _nodes self;
     _time_horizon := _time_horizon self; _state_dimension := _state_dimension self;
     _dt := _dt self; _time_vector := _time_vector self;
     _spline_resolution := _spline_resolution self; _mass := _mass self;
     _friction := _friction self; _tol := _tol self; _solve_flag := _solve_flag self;
     _area_limit := _area_limit self; _state_size := _state_size self;
     _full_size := _full_size self; _num_state_slack := _num_state_slack self;
     _num_risk_slack := _num_risk_slack self; _num_slack := _num_slack self;
     _setpoint := _setpoint self; _state_bounds := _state_bounds self;
     _weights := _weights self; opt_var_lb := opt_var_lb self;
     opt_var_ub := opt_var_ub self;
     _full_state_trajectory := _full_state_trajectory self;
     _warm_start := _warm_start self;
     prog := Some p;
     solution := solution self; _optimizer_time := _optimizer_time self |}.

Definition set_solution (self : QuadraticProgram) (r : MathematicalProgramResult) : QuadraticProgram :=
  {| _UPDATE_RATE := _UPDATE_RATE self; _nodes := _nodes self;
     _time_horizon := _time_horizon self; _state_dimension := _state_dimension self;
     _dt := _dt self; _time_vector := _time_vector self;
     _spline_resolution := _spline_resolution self; _mass := _mass self;
     _friction := _friction self; _tol := _tol self; _solve_flag := _solve_flag self;
     _area_limit := _area_limit self; _state_size := _state_size self;
     _full_size := _full_size self; _num_state_slack := _num_state_slack self;
     _num_risk_slack := _num_risk_slack self; _num_slack := _num_slack self;
     _setpoint := _setpoint self; _state_bounds := _state_bounds self;
     _weights := _weights self; opt_var_lb := opt_var_lb self;
     opt_var_ub := opt_var_ub self;
     _full_state_trajectory := _full_state_trajectory self;
     _warm_start := _warm_start self;
     prog := prog self;
     solution := Some r; _optimizer_time := _optimizer_time self |}.

Definition set_optimizer_time (self : QuadraticProgram) (t : Q) : QuadraticProgram :=
  {| _UPDATE_RATE := _UPDATE_RATE self; _nodes := _nodes self;
     _time_horizon := _time_horizon self; _state_dimension := _state_dimension self;
     _dt := _dt self; _time_vector := _time_vector self;
     _spline_resolution := _spline_resolution self; _mass := _mass self;
     _friction := _friction self; _tol := _tol self; _solve_flag := _solve_flag self;
     _area_limit := _area_limit self; _state_size := _state_size self;
     _full_size := _full_size self; _num_state_slack := _num_state_slack self;
     _num_risk_slack := _num_risk_slack self; _num_slack := _num_slack self;
     _setpoint := _setpoint self; _state_bounds := _state_bounds self;
     _weights := _weights self; opt_var_lb := opt_var_lb self;
     opt_var_ub := opt_var_ub self;
     _full_state_trajectory := _full_state_trajectory self;
     _warm_start := _warm_start self;
     prog := prog self;
     solution := solution self; _optimizer_time := t |}.

Definition set_plan (self : QuadraticProgram) (trajectory warm_start : vec) : QuadraticProgram :=
  {| _UPDATE_RATE := _UPDATE_RATE self; _nodes := _nodes self;
     _time_horizon := _time_horizon self; _state_dimension := _state_dimension self;
     _dt := _dt self; _time_vector := _time_vector self;
     _spline_resolution := _spline_resolution self; _mass := _mass self;
     _friction := _friction self; _tol := _tol self; _solve_flag := _solve_flag self;
     _area_limit := _area_limit self; _state_size := _state_size self;
     _full_size := _full_size self; _num_state_slack := _num_state_slack self;
     _num_risk_slack := _num_risk_slack self; _num_slack := _num_slack self;
     _setpoint := _setpoint self; _state_bounds := _state_bounds self;
     _weights := _weights self; opt_var_lb := opt_var_lb self;
     opt_var_ub := opt_var_ub self;
     _full_state_trajectory := trajectory;
     _warm_start := warm_start;
     prog := prog self;
     solution := solution self; _optimizer_time := _optimizer_time self |}.

(** [a_state.set_value(v)] on the abstract state of the context. *)
Definition set_value (context : Context) (v : vec) : Context :=
  {| initial_condition := initial_condition context;
     obstacle_states := obstacle_states context;
     risk_constraints := risk_constraints context;
     abstract_state := v |}.

(** [output_callback]: the output port shows the abstract state. *)
Definition output_callback (context : Context) : vec := abstract_state context.

(** [parse_solution].  After a failed solve it prints, and
    [pdb.set_trace()] hands the terminal to the operator, whose answer
    [stdin] decides: quitting raises [BdbQuit] before any of the statements
    below the stop has run; resuming runs them, the same statements as
    after a success.  Without a stored solution the attribute access
    raises. *)
Definition parse_solution (self : QuadraticProgram) (context : Context)
    (stdin : pdb_command) : outcome :=
  match solution self with
  | None => Raised AttributeError
  | Some sol =>
    let console :=
      if negb (is_success sol)
      then [Print_did_not_solve; Print_solver_status (optimization_status sol);
            Print_objective_convex; Pdb_set_trace]
      else [] in
    match negb (is_success sol), stdin with
    | true, pdb_quit => BdbQuit console self context
    | _, _ =>
      let opt_sol := reshape (_full_size self + _num_slack self) (x_val sol) in
      let x_sol := row opt_sol 0 in
      let y_sol := row opt_sol 1 in
      let dx_sol := row opt_sol 2 in
      let dy_sol := row opt_sol 3 in
      let ux_sol := row opt_sol 4 in
      let uy_sol := row opt_sol 5 in
      let sx_sol := row opt_sol 6 in
      let sy_sol := row opt_sol 7 in
      let s_sol := row opt_sol 8 in
      let ddx := compute_acceleration self ux_sol dx_sol in
      let ddy := compute_acceleration self uy_sol dy_sol in
      let full_state_trajectory :=
        flatten [x_sol; y_sol; dx_sol; dy_sol; ddx; ddy] in
      let warm_start :=
        flatten [x_sol; y_sol; dx_sol; dy_sol; ux_sol; uy_sol; sx_sol; sy_sol; s_sol] in
      Returned console
               (set_plan self full_state_trajectory warm_start)
               (set_value context full_state_trajectory)
    end
  end.

(** Drake's [UpdateCoefficients] and [RemoveTinyCoefficient] on a linear
    block: the latter zeroes the entries of [A] of magnitude at most [tol]. *)
Definition UpdateCoefficients (new_A : matrix) (new_lb new_ub : list bound) : LinearConstraint :=
  {| lc_A := new_A; lc_lb := new_lb; lc_ub := new_ub |}.

Definition RemoveTinyCoefficient (c : LinearConstraint) (tol : Q) : LinearConstraint :=
  {| lc_A := map (map (fun a => if Qle_bool (Qabs a) tol then 0 else a)) (lc_A c);
     lc_lb := lc_lb c; lc_ub := lc_ub c |}.

Section Engine.

(** The libraries: [jnp.sqrt]; [jax.jacfwd] on a vector-valued and on a
    scalar function, [jax.jacrev] on a scalar function, each with respect to
    the first argument; [GurobiSolver.Solve] with the program, the initial
    guess and the fixed solver options. *)
Variable sqrt : Q -> Q.
Variable jacfwd : (vec -> vec) -> vec -> matrix.
Variable jacfwd_scalar : (vec -> Q) -> vec -> vec.
Variable jacrev : (vec -> Q) -> vec -> vec.
Variable Solve : MathematicalProgram -> vec -> MathematicalProgramResult.

Definition _A_eq_fn (self : QuadraticProgram) (x ic : vec) : matrix :=
  jacfwd (fun x => equality_func self x ic) x.

Definition _A_ineq_fn (self : QuadraticProgram)
    (x : vec) (y n : matrix) (m b : vec) : matrix :=
  jacfwd (fun x => inequality_func sqrt self x y n m b) x.

Definition _H_fn (self : QuadraticProgram) (x : vec) : matrix :=
  jacfwd (jacrev (objective_func self)) x.

Definition _f_fn (self : QuadraticProgram) (x : vec) : vec :=
  jacfwd_scalar (objective_func self) x.

(** The coefficient computation shared by [build_optimization] (source
    lines 344-430) and [update_qp] (lines 486-542). *)
Definition qp_coefficients (self : QuadraticProgram) (context : Context) : Coefficients :=
  let initial_conditions := convert_initial_conditions self context in
  let risk_constraints := reshape (_spline_resolution self) (risk_constraints context) in
  let obstacle_trajectory := obstacle_trajectory_of self context in
  let halfspace_vector := halfspace_vector_of self context in
  let A_eq := _A_eq_fn self (_setpoint self) initial_conditions in
  let b_eq := vneg (equality_func self (_setpoint self) initial_conditions) in
  let A_ineq :=
    _A_ineq_fn self (_setpoint self) obstacle_trajectory halfspace_vector
      (column risk_constraints 0) (column risk_constraints 1) in
  let b_ineq_ub :=
    vneg (inequality_func sqrt self (_setpoint self) obstacle_trajectory halfspace_vector
            (column risk_constraints 0) (column risk_constraints 1)) in
  let b_ineq_lb := map (fun _ => NINF) (vneg b_ineq_ub) in
  let H := _H_fn self (_setpoint self) in
  let f := _f_fn self (_setpoint self) in
  {| A_eq := A_eq; b_eq := b_eq; A_ineq := A_ineq;
     b_ineq_lb := b_ineq_lb; b_ineq_ub := b_ineq_ub;
     cost_H := H; cost_f := f |}.

(** The program that [build_optimization] constructs from the coefficients. *)
Definition new_program (self : QuadraticProgram) (c : Coefficients) : MathematicalProgram :=
  {| num_vars := (_full_size self + _num_slack self) * _nodes self;
     bounding_box := (opt_var_lb self, opt_var_ub self);
     equality_constraint :=
       {| lc_A := A_eq c; lc_lb := map Fin (b_eq c); lc_ub := map Fin (b_eq c) |};
     inequality_constraint :=
       {| lc_A := A_ineq c; lc_lb := b_ineq_lb c; lc_ub := map Fin (b_ineq_ub c) |};
     objective_function := {| qc_Q := cost_H c; qc_b := cost_f c |} |}.

(** The in-place update of the stored program by [update_qp]. *)
Definition update_program (self : QuadraticProgram) (p : MathematicalProgram)
    (c : Coefficients) : MathematicalProgram :=
  {| num_vars := num_vars p;
     bounding_box := bounding_box p;
     equality_constraint :=
       RemoveTinyCoefficient
         (UpdateCoefficients (A_eq c) (map Fin (b_eq c)) (map Fin (b_eq c))) (_tol self);
     inequality_constraint :=
       RemoveTinyCoefficient
         (UpdateCoefficients (A_ineq c) (b_ineq_lb c) (map Fin (b_ineq_ub c))) (_tol self);
     objective_function :=
       {| qc_Q := cost_H c; qc_b := cost_f c |} |}.

(** [build_optimization]: the coefficients, the program, the first solve
    from the zero warm start and the decoding. *)
Definition build_optimization (self : QuadraticProgram) (context : Context)
    (stdin : pdb_command) : outcome :=
  if negb (port_shapes_agree self context) then Raised ValueError
  else
    let c := qp_coefficients self context in
    if negb (linearized_distance_is_finite (halfspace_vector_of self context))
    then Raised RuntimeError
    else
      let p := new_program self c in
      let self := set_prog self p in
      let self := set_solution self (Solve p (_warm_start self)) in
      parse_solution self context stdin.

(** The first half of [update_qp]: coefficients recomputed and pushed into
    the stored program (lines 486-562).  Before [build_optimization] the
    closures it reads do not exist. *)
Definition rebuild_coefficients (self : QuadraticProgram) (context : Context)
  : exception + QuadraticProgram :=
  if negb (port_shapes_agree self context) then inl ValueError
  else
    match prog self with
    | None => inl AttributeError
    | Some p =>
      if negb (linearized_distance_is_finite (halfspace_vector_of self context))
      then inl RuntimeError
      else inr (set_prog self (update_program self p (qp_coefficients self context)))
    end.

(** [update_qp]: the rebuild, then the solve from the stored warm start,
    the solver time kept for logging, and the decoding. *)
Definition update_qp (self : QuadraticProgram) (context : Context)
    (stdin : pdb_command) : outcome :=
  if negb (port_shapes_agree self context) then Raised ValueError
  else
    match prog self with
    | None => Raised AttributeError
    | Some p =>
      if negb (linearized_distance_is_finite (halfspace_vector_of self context))
      then Raised RuntimeError
      else
        let p := update_program self p (qp_coefficients self context) in
        let self := set_prog self p in
        let sol := Solve p (_warm_start self) in
        let self := set_solution self sol in
        let self := set_optimizer_time self (optimizer_time sol) in
        parse_solution self context stdin
    end.

End Engine.

(** The scheduling of the two events by the simulator: the initialization
    event once, then one periodic event per tick.  Each tick reads fresh port
    values; the abstract state is carried over. *)
Definition new_tick (ports carried : Context) : Context :=
  {| initial_condition := initial_condition ports;
     obstacle_states := obstacle_states ports;
     risk_constraints := risk_constraints ports;
     abstract_state := abstract_state carried |}.

(** The terminal output of the events that returned, put before that of a
    later event. *)
Definition after (console : list event) (r : outcome) : outcome :=
  match r with
  | Returned console' self context => Returned (console ++ console') self context
  | BdbQuit console' self context => BdbQuit (console ++ console') self context
  | Raised e => Raised e
  end.

(** The instance and the context in which an event handler or a run ends,
    where the outcome has them. *)
Definition final_state (r : outcome) : option (QuadraticProgram * Context) :=
  match r with
  | Returned _ self context => Some (self, context)
  | BdbQuit _ self context => Some (self, context)
  | Raised _ => None
  end.

Section Simulation.

Variable sqrt : Q -> Q.
Variable jacfwd : (vec -> vec) -> vec -> matrix.
Variable jacfwd_scalar : (vec -> Q) -> vec -> vec.
Variable jacrev : (vec -> Q) -> vec -> vec.
Variable Solve : MathematicalProgram -> vec -> MathematicalProgramResult.

(** A tick of the simulation: the port values of the tick, and the answer
    of the operator should the tick stop in the debugger. *)
Fixpoint run_ticks (self : QuadraticProgram) (context : Context)
    (ticks : list (Context * pdb_command)) : outcome :=
  match ticks with
  | [] => Returned [] self context
  | (t, stdin) :: ticks' =>
    match update_qp sqrt jacfwd jacfwd_scalar jacrev Solve self (new_tick t context) stdin with
    | Returned console self' context' => after console (run_ticks self' context' ticks')
    | stopped => stopped
    end
  end.

(** A run: the initialization event, then the ticks, up to the first event
    that does not return. *)
Definition run (config : Config) (first : Context) (stdin : pdb_command)
    (ticks : list (Context * pdb_command)) : outcome :=
  match build_optimization sqrt jacfwd jacfwd_scalar jacrev Solve (__init__ config) first stdin with
  | Returned console self context => after console (run_ticks self context ticks)
  | stopped => stopped
  end.

(** What holds of the stored program along a run that started from the
    engine [self0] and the context [first]: the decision variables and their
    box are those of the first construction, and so is the cost. *)
Definition program_invariant (self0 : QuadraticProgram) (first : Context)
    (p : MathematicalProgram) : Prop :=
  num_vars p = ((_full_size self0 + _num_slack self0) * _nodes self0)%nat
  /\ bounding_box p = (opt_var_lb self0, opt_var_ub self0)
  /\ objective_function p
     = {| qc_Q := cost_H (qp_coefficients sqrt jacfwd jacfwd_scalar jacrev self0 first);
          qc_b := cost_f (qp_coefficients sqrt jacfwd jacfwd_scalar jacrev self0 first) |}.

End Simulation.

(** ** Vocabulary of the statements *)

(** Channel [k] of a planar design vector: [x, y, dx, dy, ux, uy, sx, sy, s]. *)
Definition channel (q : vec) (k : nat) : vec := row (reshape 9 q) k.

(** Equality of arrays up to the value of each entry. *)
Definition veq (a b : vec) : Prop := Forall2 Qeq a b.

(** [x] lies in the box [lb <= x <= ub]. *)
Definition in_box (lb ub : list bound) (x : vec) : Prop :=
  forall i, (i < length x)%nat ->
    ble_lo (nth i lb NINF) (getitem x i) /\ ble_hi (getitem x i) (nth i ub Inf).

(** The attributes that are assigned once, in [__init__]. *)
Definition same_constants (a b : QuadraticProgram) : Prop :=
  _nodes a = _nodes b /\ _state_dimension a = _state_dimension b
  /\ _dt a = _dt b /\ _time_vector a = _time_vector b
  /\ _spline_resolution a = _spline_resolution b
  /\ _mass a = _mass b /\ _friction a = _friction b /\ _tol a = _tol b
  /\ _area_limit a = _area_limit b
  /\ _full_size a = _full_size b /\ _num_slack a = _num_slack b
  /\ _setpoint a = _setpoint b /\ _state_bounds a = _state_bounds b
  /\ _weights a = _weights b
  /\ opt_var_lb a = opt_var_lb b /\ opt_var_ub a = opt_var_ub b.

(** Two engine states that a tick cannot tell apart when it computes the
    coefficients: the same constants and the same warm start. *)
Definition same_tick_state (a b : QuadraticProgram) : Prop :=
  same_constants a b /\ _warm_start a = _warm_start b.

(** At node [j]: the product of (obstacle - agent) with the halfspace
    vector, the squared length of the halfspace vector, and
    [linearized_distance] written out for the planar case. *)
Definition dot_with_halfspace (q : vec) (obstacle_trajectory halfspace_vector : matrix)
    (j : nat) : Q :=
  (getitem (row obstacle_trajectory 0) j - getitem (channel q 0) j)
    * getitem (row halfspace_vector 0) j
  + (getitem (row obstacle_trajectory 1) j - getitem (channel q 1) j)
    * getitem (row halfspace_vector 1) j.

Definition halfspace_sq (halfspace_vector : matrix) (j : nat) : Q :=
  getitem (row halfspace_vector 0) j * getitem (row halfspace_vector 0) j
  + getitem (row halfspace_vector 1) j * getitem (row halfspace_vector 1) j.

Definition linearized_distance_at (sqrt : Q -> Q)
    (q : vec) (obstacle_trajectory halfspace_vector : matrix) (j : nat) : Q :=
  dot_with_halfspace q obstacle_trajectory halfspace_vector j
    / halfspace_sq halfspace_vector j
  * sqrt (halfspace_sq halfspace_vector j).

(** The meaning of a linear block and of the box, as decidable tests:
    [lb <= A x <= ub] row by row, and [lb <= x <= ub] entry by entry. *)
Definition dot (a b : vec) : Q := vsum (vmul a b).

Definition lo_le (lo : bound) (a : Q) : bool :=
  match lo with NINF => true | Fin l => Qle_bool l a | Inf => false end.
Definition le_hi (a : Q) (hi : bound) : bool :=
  match hi with NINF => false | Fin h => Qle_bool a h | Inf => true end.

Fixpoint between (lb : list bound) (v : vec) (ub : list bound) : bool :=
  match lb, v, ub with
  | [], [], [] => true
  | l :: lb', a :: v', u :: ub' => lo_le l a && le_hi a u && between lb' v' ub'
  | _, _, _ => false
  end.

Definition satisfies_block (c : LinearConstraint) (x : vec) : bool :=
  between (lc_lb c) (map (fun r => dot r x) (lc_A c)) (lc_ub c).

Definition satisfies_box (p : MathematicalProgram) (x : vec) : bool :=
  between (fst (bounding_box p)) x (snd (bounding_box p)).

(** ** An executable instance of the libraries, for the examples

    Differences in place of derivatives (exact on the residuals of this
    planner, which are affine in the design vector, and on its quadratic
    objective), a square root rounded down to nine decimals, and solvers
    that answer with a fixed result. *)

Definition sqrt_floor (a : Q) : Q :=
  inject_Z (Z.sqrt (Qfloor (a * inject_Z (10 ^ 18)))) / inject_Z (10 ^ 9).

Definition unit_vec (n j : nat) : vec :=
  map (fun i => if Nat.eqb i j then 1 else 0) (seq 0 n).

Definition difference_jacobian (g : vec -> vec) (x : vec) : matrix :=
  map (fun r =>
         map (fun j => getitem (g (vadd x (unit_vec (length x) j))) r - getitem (g x) r)
             (seq 0 (length x)))
      (seq 0 (length (g x))).

Definition difference_gradient (g : vec -> Q) (x : vec) : vec :=
  map (fun j =>
         (g (vadd x (unit_vec (length x) j)) - g (vsub x (unit_vec (length x) j))) / 2)
      (seq 0 (length x)).

Definition constant_solver (r : MathematicalProgramResult)
  : MathematicalProgram -> vec -> MathematicalProgramResult :=
  fun _ _ => r.

(** Example data: a horizon of two nodes and three risk segments. *)
Definition example_config : Config :=
  {| motion_planner_rate := 1 # 50; nodes := 2; time_horizon := 1;
     state_dimension := 2; dt := 1 # 10; spline_resolution := 3;
     area_bounds := 3 # 4 |}.

Definition example_context : Context :=
  {| initial_condition := [1 # 2; 0; 1; 0; 0; 0; 10; - (1); 0];
     obstacle_states := [1; 1; 0; 1 # 2; 0; 0];
     risk_constraints := [1; 0; 2; 1; 3; 2];
     abstract_state := zeros 12 |}.

Definition example_design : vec :=
  map inject_Z [1; 2; 3; 4; 5; 6; 7; 8; 9; 10; 11; 12; 13; 14; 15; 16; 17; 18]%Z.

(** A solver answer that reports success with a feasible plan for
    [example_context], and one that reports failure. *)
Definition example_plan : vec :=
  [ 1 # 2; 1 # 2;   0; 0;   0; 5 # 18;   0; - (1 # 10);
    3 # 40; 0;   - (27 # 1000); 0;   0; 0;   0; 0;   - (10); - (10) ].

Definition example_success : MathematicalProgramResult :=
  {| is_success := true; x_val := example_plan;
     optimization_status := 2; optimizer_time := 1 # 1000 |}.

Definition example_failure : MathematicalProgramResult :=
  {| is_success := false; x_val := repeat 1 18;
     optimization_status := 3; optimizer_time := 1 # 1000 |}.

(** The engine and the context after a first construction whose solve
    succeeded. *)
Definition example_built : outcome :=
  build_optimization sqrt_floor difference_jacobian difference_gradient
    difference_gradient (constant_solver example_success)
    (__init__ example_config) example_context pdb_quit.

Definition example_engine : QuadraticProgram :=
  match example_built with
  | Returned _ self _ => self
  | _ => __init__ example_config
  end.

Definition example_carried : Context :=
  match example_built with
  | Returned _ _ context => context
  | _ => example_context
  end.

(** A run of the initialization event and one tick on the same port values,
    both solves answered by the feasible plan, and the state it ends in. *)
Definition example_run : outcome :=
  run sqrt_floor difference_jacobian difference_gradient difference_gradient
    (constant_solver example_success) example_config example_context pdb_quit
    [(example_context, pdb_quit)].

Definition example_final : QuadraticProgram * Context :=
  match final_state example_run with
  | Some s => s
  | None => (__init__ example_config, example_context)
  end.

(** The program that the first construction stored. *)
Definition example_program : MathematicalProgram :=
  match prog example_engine with
  | Some p => p
  | None => new_program (__init__ example_config)
              (qp_coefficients sqrt_floor difference_jacobian difference_gradient
                 difference_gradient (__init__ example_config) example_context)
  end.

(** The plan with the position slack of node 0 made negative. *)
Definition example_plan_negative_slack : vec :=
  setitem example_plan 12 (- (1 # 10)).

(** The warm start, the published trajectory and the terminal output of the
    outcome of a tick. *)
Definition warm_start_after (r : outcome) : option vec :=
  option_map (fun o => _warm_start (fst o)) (final_state r).

Definition published_after (r : outcome) : option vec :=
  option_map (fun o => output_callback (snd o)) (final_state r).

Definition console_after (r : outcome) : option (list event) :=
  match r with
  | Returned console _ _ => Some console
  | BdbQuit console _ _ => Some console
  | Raised _ => None
  end.

(** [jnp.sum(v ** 2)]. *)
Definition sum_sq (v : vec) : Q := vsum (square v).

(** ** [scripts/quadratic_program.py]

    The stand-alone script states the Euler collocation twice: as rows of a
    fixed matrix over five variables of one axis, and as two symbolic
    equations per axis and node. *)
Module quadratic_program.

Definition dim_size : nat := 2.
Definition state_size : nat := dim_size * 2.
Definition full_size : nat := dim_size * 3.
Definition num_nodes : nat := 101.
Definition time_horizon : Q := 1.
Definition dt : Q := time_horizon / inject_Z (Z.of_nat (num_nodes - 1)).

Definition mass : Q := 486 # 1000.
Definition friction : Q := 1 # 10.

(** [_A_collocation], with bounds [lb = ub = np.zeros(2)]. *)
Definition _A_collocation : matrix :=
  [ [1; - (1); dt; 0; 0];
    [0; 0; 1 - friction / mass * dt; - (1); dt / mass] ].

(** [vars = [x[i], x[i+1], dx[i], dx[i+1], ux[i]]] of one axis. *)
Definition collocation_vars (x dx ux : vec) (i : nat) : vec :=
  [getitem x i; getitem x (i + 1); getitem dx i; getitem dx (i + 1); getitem ux i].

(** [A @ vars] against the zero bounds. *)
Definition matrix_constraint_holds (x dx ux : vec) (i : nat) : Prop :=
  Forall (fun r => dot r (collocation_vars x dx ux i) == 0) _A_collocation.

(** The constraints of the closing loop, for one axis:
    [x[i] + dx[i] * dt == x[i+1]] and [dx[i] + _ux * dt == dx[i+1]] with
    [_ux = (ux[i] - friction * dx[i]) / mass]. *)
Definition loop_constraint_holds (x dx ux : vec) (i : nat) : Prop :=
  let _ux := (getitem ux i - friction * getitem dx i) / mass in
  getitem x i + getitem dx i * dt == getitem x (i + 1)
  /\ getitem dx i + _ux * dt == getitem dx (i + 1).

(** [np.eye(n)]. *)
Definition eye (n : nat) : matrix := map (unit_vec n) (seq 0 n).

(** The initial-condition constraint: [np.eye(full_size) @ q[:, 0]] against
    zero bounds, with [q = vstack([x, y, dx, dy, ux, uy])]. *)
Definition initial_condition_holds (x y dx dy ux uy : vec) : Prop :=
  Forall (fun r => dot r [getitem x 0; getitem y 0; getitem dx 0; getitem dy 0;
                          getitem ux 0; getitem uy 0] == 0)
         (eye full_size).

(** The cost [np.sum(_error ** 2)] with [_error = _target - q[:2, :]] and
    the target (1, 1). *)
Definition objective_task (x y : vec) : Q :=
  let x_d := 1 in
  let y_d := 1 in
  let _error := [map (fun a => x_d - a) x; map (fun a => y_d - a) y] in
  vsum (flatten (map square _error)).

End quadratic_program.

(** ** [scripts/osqp_tuning/trajectory_parser.py] *)
Module trajectory_parser.

(** What [PiecewisePolynomial.FirstOrderHold] is built from. *)
Record PiecewisePolynomial := {
  breaks : vec;
  samples : matrix
}.

Definition FirstOrderHold (breaks samples : _) : PiecewisePolynomial :=
  {| breaks := breaks; samples := samples |}.

(** The attributes of a [TrajectoryParser]; the last two are assigned by the
    initialization event. *)
Record TrajectoryParser := {
  _INPUT_UPDATE_RATE : Q;
  _OUTPUT_UPDATE_RATE : Q;
  _nodes : nat;
  _time_horizon : Q;
  _state_dimension : nat;
  _dt : Q;
  _full_size : nat;
  _time_trajectory : vec;
  current_trajectory : vec;
  _trajectory_time : option Q;
  trajectory : option PiecewisePolynomial
}.

(** The simulation time, the input port and the abstract state. *)
Record Context := {
  get_time : Q;
  parser_input : vec;
  abstract_state : vec
}.

Definition __init__ (config : Config) : TrajectoryParser :=
  let full_size := (state_dimension config * 3)%nat in
  {| _INPUT_UPDATE_RATE := 1 / 10;
     _OUTPUT_UPDATE_RATE := 1 / 100;
     _nodes := nodes config;
     _time_horizon := time_horizon config;
     _state_dimension := state_dimension config;
     _dt := dt config;
     _full_size := full_size;
     _time_trajectory := linspace 0 (time_horizon config) (nodes config);
     current_trajectory := zeros full_size;
     _trajectory_time := None;
     trajectory := None |}.

Definition set_trajectory (self : TrajectoryParser) (t : Q) (p : PiecewisePolynomial)
  : TrajectoryParser :=
  {| _INPUT_UPDATE_RATE := _INPUT_UPDATE_RATE self;
     _OUTPUT_UPDATE_RATE := _OUTPUT_UPDATE_RATE self;
     _nodes := _nodes self;
     _time_horizon := _time_horizon self;
     _state_dimension := _state_dimension self;
     _dt := _dt self;
     _full_size := _full_size self;
     _time_trajectory := _time_trajectory self;
     current_trajectory := current_trajectory self;
     _trajectory_time := Some t;
     trajectory := Some p |}.

Definition set_value (context : Context) (v : vec) : Context :=
  {| get_time := get_time context;
     parser_input := parser_input context;
     abstract_state := v |}.

(** [on_initialize]. *)
Definition on_initialize (self : TrajectoryParser) : TrajectoryParser :=
  set_trajectory self 0
    (FirstOrderHold (_time_trajectory self)
       (repeat (zeros (_nodes self)) (_full_size self))).

(** [periodic_input_event]. *)
Definition periodic_input_event (self : TrajectoryParser) (context : Context)
  : TrajectoryParser :=
  let motion_plan := parser_input context in
  let motion_plan := reshape_cols (_nodes self) motion_plan in
  set_trajectory self (get_time context)
    (FirstOrderHold (_time_trajectory self) motion_plan).

Section Hold.

(** [PiecewisePolynomial.value], a function of the Drake library. *)
Variable value : PiecewisePolynomial -> Q -> vec.

(** [periodic_output_event]; before the initialization event the two
    attributes it reads do not exist ([None]). *)
Definition periodic_output_event (self : TrajectoryParser) (context : Context)
  : option Context :=
  match trajectory self, _trajectory_time self with
  | Some p, Some t0 =>
    let current_time := get_time context - t0 in
    let current_trajectory := value p current_time in
    Some (set_value context current_trajectory)
  | _, _ => None
  end.

End Hold.

(** [output_callback]. *)
Definition output_callback (context : Context) : vec := abstract_state context.

(** An executable hold for the examples: linear between two breaks,
    constant outside. *)
Fixpoint hold_between (bs : vec) (cols : matrix) (t : Q) : vec :=
  match bs, cols with
  | b0 :: bs', c0 :: cols' =>
    match bs', cols' with
    | b1 :: _, c1 :: _ =>
      if Qle_bool t b1
      then vadd c0 (scale_l ((t - b0) / (b1 - b0)) (vsub c1 c0))
      else hold_between bs' cols' t
    | _, _ => c0
    end
  | _, _ => []
  end.

Definition linear_value (p : PiecewisePolynomial) (t : Q) : vec :=
  let cols := map (column (samples p)) (seq 0 (length (breaks p))) in
  match breaks p with
  | b0 :: _ => if Qle_bool t b0 then row cols 0 else hold_between (breaks p) cols t
  | [] => []
  end.

End trajectory_parser.

(** The planner's published plan of the example, handed to a parser built
    from the same configuration half a second into the run. *)
Definition example_parser_context : trajectory_parser.Context :=
  {| trajectory_parser.get_time := 1 # 2;
     trajectory_parser.parser_input := output_callback example_carried;
     trajectory_parser.abstract_state := zeros 6 |}.

Definition example_parser : trajectory_parser.TrajectoryParser :=
  trajectory_parser.periodic_input_event
    (trajectory_parser.on_initialize (trajectory_parser.__init__ example_config))
    example_parser_context.
(** ** Facts on arrays *)

Lemma length_zip_with (g : Q -> Q -> Q) (a b : vec) :
  length (zip_with g a b) = Nat.min (length a) (length b).
Proof.
  unfold zip_with. now rewrite length_map, length_combine.
Qed.

Lemma getitem_zip_with (g : Q -> Q -> Q) (a b : vec) (i : nat) :
  (i < length a)%nat -> (i < length b)%nat ->
  getitem (zip_with g a b) i = g (getitem a i) (getitem b i).
Proof.
  unfold getitem, zip_with. revert b i.
  induction a as [|x a IH]; intros [|y b] [|i] Ha Hb; simpl in *; try lia.
  - reflexivity.
  - apply IH; lia.
Qed.

Lemma getitem_map (g : Q -> Q) (a : vec) (i : nat) :
  (i < length a)%nat -> getitem (map g a) i = g (getitem a i).
Proof.
  unfold getitem. revert i.
  induction a as [|x a IH]; intros [|i] Ha; simpl in *; try lia.
  - reflexivity.
  - apply IH; lia.
Qed.

Lemma getitem_app_l (a b : vec) (i : nat) :
  (i < length a)%nat -> getitem (a ++ b) i = getitem a i.
Proof. intros Hi. unfold getitem. now apply app_nth1. Qed.

Lemma getitem_app_r (a b : vec) (n i : nat) :
  length a = n -> getitem (a ++ b) (n + i) = getitem b i.
Proof.
  intros <-. unfold getitem. rewrite app_nth2 by lia. f_equal. lia.
Qed.

Lemma getitem_skipn (a : vec) (n i : nat) :
  getitem (skipn n a) i = getitem a (n + i).
Proof.
  unfold getitem. revert a.
  induction n as [|n IH]; intros [|x a]; simpl; try reflexivity.
  - now destruct i.
  - apply IH.
Qed.

Lemma getitem_firstn (a : vec) (n i : nat) :
  (i < n)%nat -> getitem (firstn n a) i = getitem a i.
Proof.
  unfold getitem. revert a i.
  induction n as [|n IH]; intros [|x a] [|i] Hi; simpl; try lia; try reflexivity.
  apply IH; lia.
Qed.

Lemma length_drop_first (a : vec) : length (drop_first a) = (length a - 1)%nat.
Proof. unfold drop_first. now rewrite length_skipn. Qed.

Lemma length_drop_last (a : vec) : length (drop_last a) = (length a - 1)%nat.
Proof. unfold drop_last. rewrite length_firstn. lia. Qed.

Lemma getitem_drop_first (a : vec) (i : nat) :
  getitem (drop_first a) i = getitem a (i + 1).
Proof. unfold drop_first. rewrite getitem_skipn. f_equal. lia. Qed.

Lemma getitem_drop_last (a : vec) (i : nat) :
  (i < length a - 1)%nat -> getitem (drop_last a) i = getitem a i.
Proof. intros Hi. unfold drop_last. now apply getitem_firstn. Qed.

(** The rows of a reshaped array. *)
Lemma length_chunks (n c : nat) (v : vec) : length (chunks n c v) = c.
Proof.
  revert v. induction c as [|c IH]; intros v; simpl; [reflexivity|].
  now rewrite IH.
Qed.

Lemma row_chunks (n c : nat) (v : vec) (k : nat) :
  (k < c)%nat -> row (chunks n c v) k = firstn n (skipn (k * n) v).
Proof.
  unfold row. revert v k.
  induction c as [|c IH]; intros v [|k] Hk; simpl; try lia.
  - reflexivity.
  - rewrite IH by lia. now rewrite skipn_skipn, Nat.add_comm.
Qed.

Lemma concat_chunks (n c : nat) (v : vec) :
  length v = (c * n)%nat -> concat (chunks n c v) = v.
Proof.
  revert v. induction c as [|c IH]; intros v Hv; simpl in *.
  - now destruct v.
  - rewrite IH.
    + apply firstn_skipn.
    + rewrite length_skipn. lia.
Qed.

Lemma reshape_chunks (r n : nat) (v : vec) :
  (0 < r)%nat -> length v = (r * n)%nat -> reshape r v = chunks n r v.
Proof.
  intros Hr Hv. unfold reshape. rewrite Hv.
  rewrite Nat.mul_comm, Nat.div_mul by lia. reflexivity.
Qed.

Lemma reshape_cols_chunks (r n : nat) (v : vec) :
  (0 < n)%nat -> length v = (r * n)%nat -> reshape_cols n v = chunks n r v.
Proof.
  intros Hn Hv. unfold reshape_cols. rewrite Hv.
  rewrite Nat.div_mul by lia. reflexivity.
Qed.

Lemma length_row_chunks (n c : nat) (v : vec) (k : nat) :
  length v = (c * n)%nat -> (k < c)%nat -> length (row (chunks n c v) k) = n.
Proof.
  intros Hv Hk. rewrite row_chunks by assumption.
  rewrite length_firstn, length_skipn. nia.
Qed.

Lemma getitem_row_chunks (n c : nat) (v : vec) (k i : nat) :
  (k < c)%nat -> (i < n)%nat ->
  getitem (row (chunks n c v) k) i = getitem v (k * n + i).
Proof.
  intros Hk Hi. rewrite row_chunks by assumption.
  rewrite getitem_firstn by assumption. apply getitem_skipn.
Qed.

(** ** The channels of a planar design vector *)

Lemma length_channel (N : nat) (q : vec) (k : nat) :
  length q = (9 * N)%nat -> (k < 9)%nat -> length (channel q k) = N.
Proof.
  intros Hq Hk. unfold channel. rewrite (reshape_chunks 9 N) by (lia || assumption).
  now apply length_row_chunks.
Qed.

Lemma getitem_channel (N : nat) (q : vec) (k i : nat) :
  length q = (9 * N)%nat -> (k < 9)%nat -> (i < N)%nat ->
  getitem (channel q k) i = getitem q (k * N + i).
Proof.
  intros Hq Hk Hi. unfold channel. rewrite (reshape_chunks 9 N) by (lia || assumption).
  now apply getitem_row_chunks.
Qed.

Lemma nine_rows (m : matrix) :
  length m = 9%nat ->
  m = [row m 0; row m 1; row m 2; row m 3; row m 4; row m 5; row m 6; row m 7; row m 8].
Proof.
  intros Hm. unfold row.
  do 9 (destruct m as [|? m]; [discriminate Hm|]).
  destruct m; [reflexivity | discriminate Hm].
Qed.

Lemma flatten_channels (N : nat) (q : vec) :
  length q = (9 * N)%nat ->
  flatten [channel q 0; channel q 1; channel q 2; channel q 3; channel q 4;
           channel q 5; channel q 6; channel q 7; channel q 8] = q.
Proof.
  intros Hq. unfold channel, flatten.
  rewrite <- nine_rows.
  - rewrite (reshape_chunks 9 N) by (lia || assumption). now apply concat_chunks.
  - unfold reshape. apply length_chunks.
Qed.

(** ** The equality residual *)

Lemma length_collocation (x0 x1 : vec) (dt : Q) (N : nat) :
  length x0 = N -> length x1 = N ->
  length (_collocation_constraint x0 x1 dt) = (N - 1)%nat.
Proof.
  intros H0 H1. unfold _collocation_constraint, vsub, scale_r.
  rewrite !length_zip_with, length_map, length_drop_first, !length_drop_last. lia.
Qed.

Lemma getitem_collocation (x0 x1 : vec) (dt : Q) (N i : nat) :
  length x0 = N -> length x1 = N -> (i < N - 1)%nat ->
  getitem (_collocation_constraint x0 x1 dt) i
  = getitem x0 (i + 1) - getitem x0 i - getitem x1 i * dt.
Proof.
  intros H0 H1 Hi. unfold _collocation_constraint, vsub, scale_r.
  rewrite getitem_zip_with.
  - rewrite getitem_zip_with, getitem_map.
    + now rewrite getitem_drop_first, !getitem_drop_last by lia.
    + rewrite length_drop_last. lia.
    + rewrite length_drop_first. lia.
    + rewrite length_drop_last. lia.
  - rewrite length_zip_with, length_drop_first, length_drop_last. lia.
  - rewrite length_map, length_drop_last. lia.
Qed.

(** The acceleration that the drag model gives for a control and a velocity
    channel: the body of [compute_acceleration] and of [ddx], [ddy]. *)
Lemma length_drag_acceleration (u d : vec) (friction mass : Q) (N : nat) :
  length u = N -> length d = N ->
  length (div_r (vsub u (scale_l friction d)) mass) = N.
Proof.
  intros Hu Hd. unfold div_r, vsub, scale_l.
  rewrite length_map, length_zip_with, length_map. lia.
Qed.

Lemma getitem_drag_acceleration (u d : vec) (friction mass : Q) (N i : nat) :
  length u = N -> length d = N -> (i < N)%nat ->
  getitem (div_r (vsub u (scale_l friction d)) mass) i
  = (getitem u i - friction * getitem d i) / mass.
Proof.
  intros Hu Hd Hi. unfold div_r, vsub, scale_l.
  rewrite getitem_map by (rewrite length_zip_with, length_map; lia).
  rewrite getitem_zip_with by (rewrite ?length_map; lia).
  rewrite getitem_map by lia. reflexivity.
Qed.

(** The residual as the concatenation of its five blocks. *)
Lemma equality_func_blocks (self : QuadraticProgram) (q ic : vec) :
  _full_size self = 6%nat -> _num_slack self = 3%nat ->
  equality_func self q ic
  = [ getitem (channel q 0) 0 - getitem ic 0; getitem (channel q 1) 0 - getitem ic 1;
      getitem (channel q 2) 0 - getitem ic 3; getitem (channel q 3) 0 - getitem ic 4;
      getitem (channel q 4) 0 - getitem ic 6; getitem (channel q 5) 0 - getitem ic 7 ]
    ++ _collocation_constraint (channel q 0) (channel q 2) (_dt self)
    ++ _collocation_constraint (channel q 1) (channel q 3) (_dt self)
    ++ _collocation_constraint (channel q 2)
         (div_r (vsub (channel q 4) (scale_l (_friction self) (channel q 2))) (_mass self))
         (_dt self)
    ++ _collocation_constraint (channel q 3)
         (div_r (vsub (channel q 5) (scale_l (_friction self) (channel q 3))) (_mass self))
         (_dt self).
Proof.
  intros Hfull Hslack. unfold equality_func, _equality_constraints, channel.
  rewrite Hfull, Hslack. reflexivity.
Qed.

(** C5.  For a planar engine ([_full_size = 6], three slack channels) and a
    design vector of [9 * N] entries, [N >= 1], the equality residual has
    exactly [6 + 4 * (N - 1)] rows: the six initial-condition rows (position,
    velocity, control of node 0 against entries 0, 1, 3, 4, 6, 7 of the
    initial condition), then for each of the [N - 1] transitions the
    explicit-Euler defects
    [x[i+1] - x[i] - dx[i] * dt], [y[i+1] - y[i] - dy[i] * dt],
    [dx[i+1] - dx[i] - ((ux[i] - friction * dx[i]) / mass) * dt] and
    [dy[i+1] - dy[i] - ((uy[i] - friction * dy[i]) / mass) * dt]. *)
Theorem equality_residual_rows (self : QuadraticProgram) (N : nat) (q ic : vec) :
  (0 < N)%nat -> _full_size self = 6%nat -> _num_slack self = 3%nat ->
  length q = (9 * N)%nat ->
  let x := channel q 0 in let y := channel q 1 in
  let dx := channel q 2 in let dy := channel q 3 in
  let ux := channel q 4 in let uy := channel q 5 in
  let r := equality_func self q ic in
  length r = (6 + 4 * (N - 1))%nat
  /\ firstn 6 r =
       [ getitem x 0 - getitem ic 0; getitem y 0 - getitem ic 1;
         getitem dx 0 - getitem ic 3; getitem dy 0 - getitem ic 4;
         getitem ux 0 - getitem ic 6; getitem uy 0 - getitem ic 7 ]
  /\ forall i, (i < N - 1)%nat ->
       getitem r (6 + i) = getitem x (i + 1) - getitem x i - getitem dx i * _dt self
    /\ getitem r (6 + (N - 1) + i)
       = getitem y (i + 1) - getitem y i - getitem dy i * _dt self
    /\ getitem r (6 + 2 * (N - 1) + i)
       = getitem dx (i + 1) - getitem dx i
         - ((getitem ux i - _friction self * getitem dx i) / _mass self) * _dt self
    /\ getitem r (6 + 3 * (N - 1) + i)
       = getitem dy (i + 1) - getitem dy i
         - ((getitem uy i - _friction self * getitem dy i) / _mass self) * _dt self.
Proof.
  intros HN Hfull Hslack Hq x y dx dy ux uy r.
  assert (Hlen : forall k, (k < 9)%nat -> length (channel q k) = N)
    by (intros k Hk; now apply length_channel).
  pose proof (Hlen 0%nat ltac:(lia)) as Lx. pose proof (Hlen 1%nat ltac:(lia)) as Ly.
  pose proof (Hlen 2%nat ltac:(lia)) as Ldx. pose proof (Hlen 3%nat ltac:(lia)) as Ldy.
  pose proof (Hlen 4%nat ltac:(lia)) as Lux. pose proof (Hlen 5%nat ltac:(lia)) as Luy.
  fold x in Lx. fold y in Ly. fold dx in Ldx. fold dy in Ldy. fold ux in Lux. fold uy in Luy.
  pose proof (equality_func_blocks self q ic Hfull Hslack) as Hr.
  fold x y dx dy ux uy r in Hr.
  pose proof (length_drag_acceleration ux dx (_friction self) (_mass self) N Lux Ldx) as Lddx.
  pose proof (length_drag_acceleration uy dy (_friction self) (_mass self) N Luy Ldy) as Lddy.
  pose proof (length_collocation x dx (_dt self) N Lx Ldx) as C1.
  pose proof (length_collocation y dy (_dt self) N Ly Ldy) as C2.
  pose proof (length_collocation dx _ (_dt self) N Ldx Lddx) as C3.
  pose proof (length_collocation dy _ (_dt self) N Ldy Lddy) as C4.
  split; [|split].
  - rewrite Hr. cbn [length app]. rewrite !length_app, C1, C2, C3, C4. lia.
  - rewrite Hr. reflexivity.
  - intros i Hi. rewrite Hr. repeat split.
    + rewrite (getitem_app_r _ _ 6 i) by reflexivity.
      rewrite getitem_app_l by lia.
      now apply (getitem_collocation _ _ _ N).
    + replace (6 + (N - 1) + i)%nat with (6 + ((N - 1) + i))%nat by lia.
      rewrite (getitem_app_r _ _ 6) by reflexivity.
      rewrite (getitem_app_r _ _ (N - 1)) by assumption.
      rewrite getitem_app_l by lia.
      now apply (getitem_collocation _ _ _ N).
    + replace (6 + 2 * (N - 1) + i)%nat with (6 + ((N - 1) + ((N - 1) + i)))%nat by lia.
      rewrite (getitem_app_r _ _ 6) by reflexivity.
      rewrite !(getitem_app_r _ _ (N - 1)) by assumption.
      rewrite getitem_app_l by lia.
      rewrite (getitem_collocation _ _ _ N) by auto.
      rewrite (getitem_drag_acceleration _ _ _ _ N) by (auto; lia). reflexivity.
    + replace (6 + 3 * (N - 1) + i)%nat
        with (6 + ((N - 1) + ((N - 1) + ((N - 1) + i))))%nat by lia.
      rewrite (getitem_app_r _ _ 6) by reflexivity.
      rewrite !(getitem_app_r _ _ (N - 1)) by assumption.
      rewrite (getitem_collocation _ _ _ N) by auto.
      rewrite (getitem_drag_acceleration _ _ _ _ N) by (auto; lia). reflexivity.
Qed.

Lemma equality_residual_rows_witness :
  length (equality_func (__init__ example_config) example_design
            (initial_condition example_context)) = (6 + 4 * (2 - 1))%nat.
Proof.
  apply (equality_residual_rows (__init__ example_config) 2 example_design
           (initial_condition example_context)).
  - lia.
  - reflexivity.
  - reflexivity.
  - reflexivity.
Defined.

(** ** The decoder *)

(** The trajectory that [parse_solution] publishes for a solver vector,
    after a success or when the debugger is resumed. *)
Lemma parse_solution_decodes (self : QuadraticProgram) (context : Context)
    (sol : MathematicalProgramResult) (N : nat) (stdin : pdb_command) :
  solution self = Some sol ->
  _full_size self = 6%nat -> _num_slack self = 3%nat ->
  length (x_val sol) = (9 * N)%nat ->
  is_success sol = true \/ stdin = pdb_continue ->
  let v := x_val sol in
  let trajectory :=
    flatten [channel v 0; channel v 1; channel v 2; channel v 3;
             compute_acceleration self (channel v 4) (channel v 2);
             compute_acceleration self (channel v 5) (channel v 3)] in
  parse_solution self context stdin
  = Returned (if negb (is_success sol)
              then [Print_did_not_solve; Print_solver_status (optimization_status sol);
                    Print_objective_convex; Pdb_set_trace]
              else [])
             (set_plan self trajectory v)
             (set_value context trajectory).
Proof.
  intros Hsol Hfull Hslack Hlen Hgo v trajectory.
  unfold parse_solution. rewrite Hsol, Hfull, Hslack.
  change (6 + 3)%nat with 9%nat.
  fold (channel (x_val sol) 0) (channel (x_val sol) 1) (channel (x_val sol) 2)
       (channel (x_val sol) 3) (channel (x_val sol) 4) (channel (x_val sol) 5)
       (channel (x_val sol) 6) (channel (x_val sol) 7) (channel (x_val sol) 8).
  rewrite (flatten_channels N) by assumption.
  destruct Hgo as [Hok | ->].
  - rewrite Hok. reflexivity.
  - destruct (is_success sol); reflexivity.
Qed.

Lemma length_trajectory (self : QuadraticProgram) (v : vec) (N : nat) :
  length v = (9 * N)%nat ->
  length (flatten [channel v 0; channel v 1; channel v 2; channel v 3;
                   compute_acceleration self (channel v 4) (channel v 2);
                   compute_acceleration self (channel v 5) (channel v 3)])
  = (6 * N)%nat.
Proof.
  intros Hv. unfold flatten, compute_acceleration. cbn [concat].
  rewrite !length_app, !(length_drag_acceleration _ _ _ _ N),
    !(length_channel N) by (try apply (length_channel N); lia || assumption).
  cbn [length]. lia.
Qed.

Lemma getitem_trajectory (self : QuadraticProgram) (v : vec) (N i : nat) :
  length v = (9 * N)%nat -> (i < N)%nat ->
  let trajectory :=
    flatten [channel v 0; channel v 1; channel v 2; channel v 3;
             compute_acceleration self (channel v 4) (channel v 2);
             compute_acceleration self (channel v 5) (channel v 3)] in
  getitem trajectory i = getitem (channel v 0) i
  /\ getitem trajectory (N + i) = getitem (channel v 1) i
  /\ getitem trajectory (2 * N + i) = getitem (channel v 2) i
  /\ getitem trajectory (3 * N + i) = getitem (channel v 3) i
  /\ getitem trajectory (4 * N + i)
     = (getitem (channel v 4) i - _friction self * getitem (channel v 2) i) / _mass self
  /\ getitem trajectory (5 * N + i)
     = (getitem (channel v 5) i - _friction self * getitem (channel v 3) i) / _mass self.
Proof.
  intros Hv Hi trajectory. subst trajectory.
  unfold flatten, compute_acceleration. cbn [concat].
  assert (Hlen : forall k, (k < 9)%nat -> length (channel v k) = N)
    by (intros k Hk; now apply length_channel).
  pose proof (Hlen 0%nat ltac:(lia)) as L0. pose proof (Hlen 1%nat ltac:(lia)) as L1.
  pose proof (Hlen 2%nat ltac:(lia)) as L2. pose proof (Hlen 3%nat ltac:(lia)) as L3.
  pose proof (Hlen 4%nat ltac:(lia)) as L4. pose proof (Hlen 5%nat ltac:(lia)) as L5.
  pose proof (length_drag_acceleration _ _ (_friction self) (_mass self) N L4 L2) as La.
  repeat split.
  - rewrite getitem_app_l by lia. reflexivity.
  - rewrite (getitem_app_r _ _ N) by assumption.
    rewrite getitem_app_l by lia. reflexivity.
  - replace (2 * N + i)%nat with (N + (N + i))%nat by lia.
    rewrite !(getitem_app_r _ _ N) by assumption.
    rewrite getitem_app_l by lia. reflexivity.
  - replace (3 * N + i)%nat with (N + (N + (N + i)))%nat by lia.
    rewrite !(getitem_app_r _ _ N) by assumption.
    rewrite getitem_app_l by lia. reflexivity.
  - replace (4 * N + i)%nat with (N + (N + (N + (N + i))))%nat by lia.
    rewrite !(getitem_app_r _ _ N) by assumption.
    rewrite getitem_app_l by lia.
    now apply (getitem_drag_acceleration _ _ _ _ N).
  - replace (5 * N + i)%nat with (N + (N + (N + (N + (N + i)))))%nat by lia.
    rewrite !(getitem_app_r _ _ N) by assumption.
    rewrite getitem_app_l
      by (rewrite (length_drag_acceleration _ _ _ _ N) by assumption; lia).
    now apply (getitem_drag_acceleration _ _ _ _ N).
Qed.

(** C8.  After a successful solve the decoder publishes a trajectory of
    exactly [6 * N] entries laid out channel by channel as
    [x, y, dx, dy, ddx, ddy], where the acceleration of each axis is
    [(control - friction * velocity) / mass] of the solution's channels; the
    output port shows it; and the new warm start is the concatenation
    [x, y, dx, dy, ux, uy, sx, sy, s], that is the solution in the channel
    order in which the constraint functions read a design vector. *)
Theorem decoder_publishes_plan (self : QuadraticProgram) (context : Context)
    (sol : MathematicalProgramResult) (N : nat) (stdin : pdb_command) :
  solution self = Some sol -> is_success sol = true ->
  _full_size self = 6%nat -> _num_slack self = 3%nat ->
  length (x_val sol) = (9 * N)%nat ->
  exists self' context',
    parse_solution self context stdin = Returned [] self' context'
    /\ length (_full_state_trajectory self') = (6 * N)%nat
    /\ (forall i, (i < N)%nat ->
          let t := _full_state_trajectory self' in
          let v := x_val sol in
          getitem t i = getitem (channel v 0) i
          /\ getitem t (N + i) = getitem (channel v 1) i
          /\ getitem t (2 * N + i) = getitem (channel v 2) i
          /\ getitem t (3 * N + i) = getitem (channel v 3) i
          /\ getitem t (4 * N + i)
             = (getitem (channel v 4) i - _friction self * getitem (channel v 2) i)
               / _mass self
          /\ getitem t (5 * N + i)
             = (getitem (channel v 5) i - _friction self * getitem (channel v 3) i)
               / _mass self)
    /\ output_callback context' = _full_state_trajectory self'
    /\ _warm_start self'
       = flatten [channel (x_val sol) 0; channel (x_val sol) 1; channel (x_val sol) 2;
                  channel (x_val sol) 3; channel (x_val sol) 4; channel (x_val sol) 5;
                  channel (x_val sol) 6; channel (x_val sol) 7; channel (x_val sol) 8]
    /\ (forall k, channel (_warm_start self') k = channel (x_val sol) k).
Proof.
  intros Hsol Hok Hfull Hslack Hlen.
  pose proof (parse_solution_decodes self context sol N stdin Hsol Hfull Hslack Hlen
                (or_introl Hok)) as Hp.
  cbv zeta in Hp. rewrite Hok in Hp. cbn [negb] in Hp.
  eexists. eexists. split; [exact Hp|].
  cbn [_full_state_trajectory _warm_start set_plan output_callback abstract_state set_value].
  split; [now apply length_trajectory|].
  split; [intros i Hi; now apply getitem_trajectory|].
  split; [reflexivity|].
  split; [now rewrite (flatten_channels N)|].
  reflexivity.
Qed.

Lemma decoder_publishes_plan_witness :
  exists self' context',
    parse_solution (set_solution (__init__ example_config) example_success) example_context
      pdb_quit
    = Returned [] self' context'
    /\ length (_full_state_trajectory self') = (6 * 2)%nat
    /\ _warm_start self' = example_plan.
Proof.
  destruct (decoder_publishes_plan
              (set_solution (__init__ example_config) example_success)
              example_context example_success 2 pdb_quit
              eq_refl eq_refl eq_refl eq_refl eq_refl)
    as (self' & context' & Hp & Hl & _ & _ & Hw & _).
  exists self', context'. repeat split; assumption.
Defined.

(** ** Ticks *)

Section Ticks.

Variable sqrt : Q -> Q.
Variable jacfwd : (vec -> vec) -> vec -> matrix.
Variable jacfwd_scalar : (vec -> Q) -> vec -> vec.
Variable jacrev : (vec -> Q) -> vec -> vec.
Variable Solve : MathematicalProgram -> vec -> MathematicalProgramResult.

Local Abbreviation coefficients := (qp_coefficients sqrt jacfwd jacfwd_scalar jacrev).
Local Abbreviation build := (build_optimization sqrt jacfwd jacfwd_scalar jacrev Solve).
Local Abbreviation tick := (update_qp sqrt jacfwd jacfwd_scalar jacrev Solve).
Local Abbreviation rebuild := (rebuild_coefficients sqrt jacfwd jacfwd_scalar jacrev).
Local Abbreviation simulate := (run sqrt jacfwd jacfwd_scalar jacrev Solve).
Local Abbreviation simulate_ticks := (run_ticks sqrt jacfwd jacfwd_scalar jacrev Solve).

(** *** The constants survive every step *)

Lemma same_constants_refl (a : QuadraticProgram) : same_constants a a.
Proof. unfold same_constants. repeat split. Qed.

Lemma same_constants_trans (a b c : QuadraticProgram) :
  same_constants a b -> same_constants b c -> same_constants a c.
Proof.
  unfold same_constants. intros Hab Hbc.
  repeat match goal with H : _ /\ _ |- _ => destruct H end.
  repeat split; congruence.
Qed.

Lemma final_state_after (console : list event) (r : outcome) :
  final_state (after console r) = final_state r.
Proof. destruct r; reflexivity. Qed.

(** Whether it returns or is quit in the debugger, the decoder leaves the
    constants, the stored program and the stored solution alone. *)
Lemma parse_solution_constants (self : QuadraticProgram) (context : Context)
    (stdin : pdb_command) (self' : QuadraticProgram) (context' : Context) :
  final_state (parse_solution self context stdin) = Some (self', context') ->
  same_constants self self' /\ prog self' = prog self
  /\ solution self' = solution self /\ _optimizer_time self' = _optimizer_time self.
Proof.
  unfold parse_solution. destruct (solution self) as [sol|] eqn:Hsol; [|discriminate].
  destruct (negb (is_success sol)), stdin; cbn [final_state];
    intros Heq; injection Heq as <- _;
    (split; [unfold same_constants; repeat split|]);
    cbn [prog solution _optimizer_time set_plan]; auto.
Qed.

(** The decoder returns after a success, and after a failure when the
    operator resumes the run. *)
Lemma parse_solution_returns (self : QuadraticProgram) (context : Context)
    (sol : MathematicalProgramResult) (stdin : pdb_command) :
  solution self = Some sol ->
  is_success sol = true \/ stdin = pdb_continue ->
  exists console self' context',
    parse_solution self context stdin = Returned console self' context'.
Proof.
  intros Hsol Hgo. unfold parse_solution. rewrite Hsol.
  destruct Hgo as [-> | ->]; [|destruct (negb (is_success sol))]; cbn [negb]; eauto.
Qed.

(** The first construction returns when the shapes agree, no halfspace
    vector is zero and the solve succeeds or the operator resumes the run. *)
Lemma build_returns (self : QuadraticProgram) (context : Context) (stdin : pdb_command) :
  port_shapes_agree self context = true ->
  linearized_distance_is_finite (halfspace_vector_of self context) = true ->
  is_success (Solve (new_program self (coefficients self context)) (_warm_start self)) = true
  \/ stdin = pdb_continue ->
  exists console self' context',
    build self context stdin = Returned console self' context'.
Proof.
  intros Hshape Hfin Hgo. unfold build_optimization. rewrite Hshape, Hfin. cbn [negb].
  eapply parse_solution_returns; [reflexivity|exact Hgo].
Qed.

Lemma build_final (self : QuadraticProgram) (context : Context) (stdin : pdb_command)
    (self' : QuadraticProgram) (context' : Context) :
  final_state (build self context stdin) = Some (self', context') ->
  same_constants self self'
  /\ prog self' = Some (new_program self (coefficients self context)).
Proof.
  unfold build_optimization.
  destruct (port_shapes_agree self context); [|discriminate].
  destruct (linearized_distance_is_finite (halfspace_vector_of self context));
    [|discriminate].
  cbn [negb]. intros Hf.
  apply parse_solution_constants in Hf. destruct Hf as (Hc & Hp & _).
  split; [|exact Hp].
  eapply same_constants_trans; [|exact Hc].
  unfold same_constants. repeat split.
Qed.

(** A tick returns under the same conditions as the first construction. *)
Lemma tick_returns (self : QuadraticProgram) (context : Context) (stdin : pdb_command)
    (p : MathematicalProgram) :
  prog self = Some p ->
  port_shapes_agree self context = true ->
  linearized_distance_is_finite (halfspace_vector_of self context) = true ->
  is_success (Solve (update_program self p (coefficients self context)) (_warm_start self))
  = true
  \/ stdin = pdb_continue ->
  exists console self' context',
    tick self context stdin = Returned console self' context'.
Proof.
  intros Hprog Hshape Hfin Hgo. unfold update_qp.
  rewrite Hshape, Hprog, Hfin. cbn [negb].
  eapply parse_solution_returns; [reflexivity|exact Hgo].
Qed.

Lemma tick_final (self : QuadraticProgram) (context : Context) (stdin : pdb_command)
    (self' : QuadraticProgram) (context' : Context) :
  final_state (tick self context stdin) = Some (self', context') ->
  exists p,
    prog self = Some p
    /\ same_constants self self'
    /\ prog self' = Some (update_program self p (coefficients self context)).
Proof.
  unfold update_qp.
  destruct (port_shapes_agree self context); [|discriminate].
  destruct (prog self) as [p|]; [|discriminate].
  destruct (linearized_distance_is_finite (halfspace_vector_of self context));
    [|discriminate].
  cbn [negb]. intros Hf. exists p. split; [reflexivity|].
  apply parse_solution_constants in Hf. destruct Hf as (Hc & Hp & _).
  split; [|exact Hp].
  eapply same_constants_trans; [|exact Hc].
  unfold same_constants. repeat split.
Qed.

(** The cost coefficients depend on the constants only. *)
Lemma cost_same_constants (a b : QuadraticProgram) (ca cb : Context) :
  same_constants a b ->
  cost_H (coefficients a ca) = cost_H (coefficients b cb)
  /\ cost_f (coefficients a ca) = cost_f (coefficients b cb).
Proof.
  intros Hc. unfold same_constants in Hc.
  repeat match goal with H : _ /\ _ |- _ => destruct H end.
  unfold qp_coefficients, _H_fn, _f_fn, objective_func. cbn [cost_H cost_f].
  repeat match goal with
         | H : ?g a = ?g b |- _ => rewrite H; clear H
         end.
  split; reflexivity.
Qed.

Lemma update_program_invariant (self0 self : QuadraticProgram) (first context : Context)
    (p : MathematicalProgram) :
  same_constants self0 self ->
  program_invariant sqrt jacfwd jacfwd_scalar jacrev self0 first p ->
  program_invariant sqrt jacfwd jacfwd_scalar jacrev self0 first
    (update_program self p (coefficients self context)).
Proof.
  intros Hc (Hn & Hb & Ho). unfold program_invariant, update_program.
  cbn [num_vars bounding_box objective_function].
  split; [assumption|]. split; [assumption|].
  destruct (cost_same_constants self0 self first context Hc) as [-> ->].
  reflexivity.
Qed.

(** Wherever a sequence of ticks ends, by returning or in the debugger, the
    engine has the constants it started with and a stored program with the
    variables, the box and the cost of the first construction. *)
Lemma run_ticks_final (self0 : QuadraticProgram) (first : Context)
    (ticks : list (Context * pdb_command)) :
  forall (self : QuadraticProgram) (context : Context) (p : MathematicalProgram)
         (self' : QuadraticProgram) (context' : Context),
  prog self = Some p -> same_constants self0 self ->
  program_invariant sqrt jacfwd jacfwd_scalar jacrev self0 first p ->
  final_state (simulate_ticks self context ticks) = Some (self', context') ->
  exists p',
    same_constants self0 self' /\ prog self' = Some p'
    /\ program_invariant sqrt jacfwd jacfwd_scalar jacrev self0 first p'.
Proof.
  induction ticks as [|[t stdin] ticks IH];
    intros self context p self' context' Hprog Hc0 Hinv Hf; cbn [run_ticks] in Hf.
  - cbn [final_state] in Hf. injection Hf as <- <-. exists p. auto.
  - destruct (tick self (new_tick t context) stdin) as [c1 self1 context1|c1 self1 context1|e]
      eqn:Ht.
    + rewrite final_state_after in Hf.
      destruct (tick_final self (new_tick t context) stdin self1 context1) as (q & Hq & Hc & Hp1);
        [rewrite Ht; reflexivity|].
      rewrite Hprog in Hq. injection Hq as <-.
      apply (IH self1 context1 _ self' context' Hp1); [| |exact Hf].
      * eapply same_constants_trans; eassumption.
      * now apply update_program_invariant.
    + destruct (tick_final self (new_tick t context) stdin self1 context1) as (q & Hq & Hc & Hp1);
        [rewrite Ht; reflexivity|].
      rewrite Hprog in Hq. injection Hq as <-.
      cbn [final_state] in Hf. injection Hf as <- <-.
      eexists. split; [eapply same_constants_trans; eassumption|].
      split; [exact Hp1|]. now apply update_program_invariant.
    + discriminate Hf.
Qed.

(** The same of a run from [__init__]. *)
Lemma run_final (config : Config) (first : Context) (stdin : pdb_command)
    (ticks : list (Context * pdb_command)) (self : QuadraticProgram) (context : Context) :
  final_state (simulate config first stdin ticks) = Some (self, context) ->
  exists p,
    same_constants (__init__ config) self /\ prog self = Some p
    /\ program_invariant sqrt jacfwd jacfwd_scalar jacrev (__init__ config) first p.
Proof.
  unfold run. intros Hf.
  destruct (build (__init__ config) first stdin) as [c0 self0 context0|c0 self0 context0|e]
    eqn:Hb.
  - rewrite final_state_after in Hf.
    destruct (build_final (__init__ config) first stdin self0 context0) as [Hc Hp];
      [rewrite Hb; reflexivity|].
    apply (run_ticks_final (__init__ config) first ticks self0 context0 _ self context Hp Hc);
      [|exact Hf].
    unfold program_invariant, new_program. repeat split.
  - destruct (build_final (__init__ config) first stdin self0 context0) as [Hc Hp];
      [rewrite Hb; reflexivity|].
    cbn [final_state] in Hf. injection Hf as <- <-.
    eexists. split; [exact Hc|]. split; [exact Hp|].
    unfold program_invariant, new_program. repeat split.
  - discriminate Hf.
Qed.

(** The coefficients depend on the engine through its constants and its
    warm start only. *)
Lemma coefficients_same_tick_state (a b : QuadraticProgram) (context : Context) :
  same_tick_state a b -> coefficients a context = coefficients b context.
Proof.
  intros [Hc Hw]. unfold same_constants in Hc.
  repeat match goal with H : _ /\ _ |- _ => destruct H end.
  unfold qp_coefficients, _A_eq_fn, _A_ineq_fn, _H_fn, _f_fn,
    equality_func, inequality_func, objective_func,
    convert_initial_conditions, compute_control, convert_to_control,
    obstacle_trajectory_of, halfspace_vector_of, obstacle_trajectory_of,
    previous_trajectory_of.
  repeat match goal with
         | H : ?g a = ?g b |- _ => rewrite H; clear H
         end.
  reflexivity.
Qed.

(** So do the two tests that a handler makes before it touches the
    program. *)
Lemma guards_same_tick_state (a b : QuadraticProgram) (context : Context) :
  same_tick_state a b ->
  port_shapes_agree a context = port_shapes_agree b context
  /\ halfspace_vector_of a context = halfspace_vector_of b context.
Proof.
  intros [Hc Hw]. unfold same_constants in Hc.
  repeat match goal with H : _ /\ _ |- _ => destruct H end.
  unfold port_shapes_agree, halfspace_vector_of, obstacle_trajectory_of,
    previous_trajectory_of.
  repeat match goal with
         | H : ?g a = ?g b |- _ => rewrite H; clear H
         end.
  split; reflexivity.
Qed.

(** The equality block does not read the warm start, and the inequality
    block reads it through the halfspace vector only. *)
Lemma blocks_same_constants (a b : QuadraticProgram) (context : Context) :
  same_constants a b ->
  A_eq (coefficients a context) = A_eq (coefficients b context)
  /\ b_eq (coefficients a context) = b_eq (coefficients b context)
  /\ (halfspace_vector_of a context = halfspace_vector_of b context ->
      A_ineq (coefficients a context) = A_ineq (coefficients b context)
      /\ b_ineq_ub (coefficients a context) = b_ineq_ub (coefficients b context)).
Proof.
  intros Hc. unfold same_constants in Hc.
  repeat match goal with H : _ /\ _ |- _ => destruct H end.
  unfold qp_coefficients, _A_eq_fn, _A_ineq_fn,
    equality_func, inequality_func,
    convert_initial_conditions, compute_control, convert_to_control,
    obstacle_trajectory_of.
  cbn [A_eq b_eq A_ineq b_ineq_ub].
  split; [|split; [|intros Hh; rewrite Hh]];
    repeat match goal with
           | H : ?g a = ?g b |- _ => rewrite H; clear H
           end;
    try split; reflexivity.
Qed.

(** *** The failed solve *)

(** A tick whose solve reports failure prints the three diagnostic lines
    and stops in the debugger.  When the operator resumes the run, the
    statements below the stop decode the vector that the failed solve
    returned: it becomes the warm start, and the trajectory decoded from it
    is stored and published. *)
Lemma failed_tick_resumed (self : QuadraticProgram)
    (context : Context) (p : MathematicalProgram) (N : nat) :
  prog self = Some p ->
  port_shapes_agree self context = true ->
  linearized_distance_is_finite (halfspace_vector_of self context) = true ->
  _full_size self = 6%nat -> _num_slack self = 3%nat ->
  let sol := Solve (update_program self p (coefficients self context)) (_warm_start self) in
  is_success sol = false ->
  length (x_val sol) = (9 * N)%nat ->
  exists self' context',
    tick self context pdb_continue
    = Returned [Print_did_not_solve; Print_solver_status (optimization_status sol);
                Print_objective_convex; Pdb_set_trace] self' context'
    /\ _warm_start self' = x_val sol
    /\ _full_state_trajectory self'
       = flatten [channel (x_val sol) 0; channel (x_val sol) 1;
                  channel (x_val sol) 2; channel (x_val sol) 3;
                  compute_acceleration self (channel (x_val sol) 4) (channel (x_val sol) 2);
                  compute_acceleration self (channel (x_val sol) 5) (channel (x_val sol) 3)]
    /\ output_callback context' = _full_state_trajectory self'.
Proof.
  intros Hprog Hshape Hfin Hfull Hslack sol Hfail Hlen.
  unfold update_qp. rewrite Hshape, Hprog, Hfin. cbn [negb]. fold sol.
  rewrite (parse_solution_decodes _ context sol N pdb_continue)
    by (reflexivity || assumption || (right; reflexivity)).
  rewrite Hfail. cbn [negb].
  eexists. eexists. split; [reflexivity|].
  repeat split; reflexivity.
Qed.

(** *** The operating point *)

(** C2, amended.  On every tick of every run the residuals and their
    Jacobians are evaluated at the engine's [_setpoint], which is the zero
    vector of the design-vector length and is never assigned after
    [__init__]: it is that vector in every state that a run reaches, whether
    its last event returned or was quit in the debugger; the negated
    residual at that zero vector gives the constraint bounds.  The warm start is not the operating point: the equality block
    does not depend on it, and the inequality block depends on it through
    the halfspace vector only. *)
Theorem coefficients_evaluated_at_zero_setpoint
    (config : Config) (first : Context) (stdin : pdb_command)
    (ticks : list (Context * pdb_command))
    (self : QuadraticProgram) (context : Context) :
  final_state (simulate config first stdin ticks) = Some (self, context) ->
  _setpoint self
  = zeros ((state_dimension config * 3 + (2 + 1)) * nodes config)
  /\ forall next : Context,
       let c := coefficients self next in
       let ic := convert_initial_conditions self next in
       let risk := reshape (_spline_resolution self) (risk_constraints next) in
       let y := obstacle_trajectory_of self next in
       let n := halfspace_vector_of self next in
       A_eq c = jacfwd (fun x => equality_func self x ic) (_setpoint self)
       /\ b_eq c = vneg (equality_func self (_setpoint self) ic)
       /\ A_ineq c
          = jacfwd (fun x => inequality_func sqrt self x y n (column risk 0) (column risk 1))
              (_setpoint self)
       /\ b_ineq_ub c
          = vneg (inequality_func sqrt self (_setpoint self) y n
                    (column risk 0) (column risk 1))
       /\ (forall other, same_constants self other ->
             A_eq (coefficients other next) = A_eq c
             /\ b_eq (coefficients other next) = b_eq c
             /\ (halfspace_vector_of other next = n ->
                 A_ineq (coefficients other next) = A_ineq c
                 /\ b_ineq_ub (coefficients other next) = b_ineq_ub c)).
Proof.
  intros Hr.
  destruct (run_final config first stdin ticks self context Hr) as (p & Hc & _).
  split.
  - unfold same_constants in Hc.
    repeat match goal with H : _ /\ _ |- _ => destruct H end.
    match goal with H : _setpoint _ = _setpoint self |- _ => rewrite <- H end.
    reflexivity.
  - intros next. cbv zeta.
    do 4 (split; [reflexivity|]).
    intros other Ho.
    destruct (blocks_same_constants self other next Ho) as (HA & Hb & Hi).
    split; [now symmetry|]. split; [now symmetry|].
    intros Hn. symmetry in Hn. destruct (Hi Hn) as [HA' Hb'].
    split; now symmetry.
Qed.

(** *** The obstacle projection *)

Lemma obstacle_trajectory_rows (self : QuadraticProgram) (context : Context) :
  length (obstacle_states context) = 6%nat ->
  obstacle_trajectory_of self context
  = [add_r (scale_l (getitem (obstacle_states context) 3) (_time_vector self))
           (getitem (obstacle_states context) 0);
     add_r (scale_l (getitem (obstacle_states context) 4) (_time_vector self))
           (getitem (obstacle_states context) 1)].
Proof.
  intros Hobs. unfold obstacle_trajectory_of.
  destruct (obstacle_states context) as [|o0 [|o1 [|o2 [|o3 [|o4 [|o5 [|o6 o]]]]]]];
    try discriminate Hobs.
  reflexivity.
Qed.

(** C6.  On a tick the obstacle trajectory handed to the risk constraint is
    the constant-velocity projection [obstacle_pos + obstacle_vel * t_i] over
    the node times, the halfspace vector at each node is that projected
    position minus the planned position of the current warm start, and both
    are the arguments with which the inequality residual and its Jacobian are
    evaluated on that tick. *)
Theorem halfspace_from_projected_obstacle (self : QuadraticProgram)
    (context : Context) (N : nat) :
  (0 < N)%nat -> _nodes self = N -> _state_dimension self = 2%nat ->
  length (_time_vector self) = N ->
  length (_warm_start self) = (9 * N)%nat ->
  length (obstacle_states context) = 6%nat ->
  let obs := obstacle_states context in
  let y := obstacle_trajectory_of self context in
  let n := halfspace_vector_of self context in
  let risk := reshape (_spline_resolution self) (risk_constraints context) in
  (forall a i, (a < 2)%nat -> (i < N)%nat ->
     getitem (row y a) i
     == getitem obs a + getitem obs (3 + a) * getitem (_time_vector self) i
     /\ getitem (row n a) i
        == getitem obs a + getitem obs (3 + a) * getitem (_time_vector self) i
           - getitem (channel (_warm_start self) a) i)
  /\ A_ineq (coefficients self context)
     = jacfwd (fun x => inequality_func sqrt self x y n (column risk 0) (column risk 1))
         (_setpoint self)
  /\ b_ineq_ub (coefficients self context)
     = vneg (inequality_func sqrt self (_setpoint self) y n
               (column risk 0) (column risk 1)).
Proof.
  intros HN Hnodes Hdim Htv Hws Hobs obs y n risk.
  split; [|split; reflexivity].
  assert (Hy : y = [add_r (scale_l (getitem obs 3) (_time_vector self)) (getitem obs 0);
                    add_r (scale_l (getitem obs 4) (_time_vector self)) (getitem obs 1)]).
  { subst y obs. now apply obstacle_trajectory_rows. }
  assert (Hn : n = [vsub (row y 0) (channel (_warm_start self) 0);
                    vsub (row y 1) (channel (_warm_start self) 1)]).
  { subst n. unfold halfspace_vector_of, previous_trajectory_of. fold y.
    rewrite Hnodes, Hdim, Hy.
    rewrite (reshape_cols_chunks 9 N) by (lia || assumption).
    unfold channel. rewrite (reshape_chunks 9 N) by (lia || assumption).
    reflexivity. }
  assert (Lrow : forall a, (a < 2)%nat -> length (row y a) = N).
  { intros a Ha. rewrite Hy.
    destruct a as [|[|a]]; [| |lia]; cbn [row nth];
      unfold add_r, scale_l; now rewrite !length_map. }
  assert (Gy : forall a i, (a < 2)%nat -> (i < N)%nat ->
            getitem (row y a) i
            = getitem obs (3 + a) * getitem (_time_vector self) i + getitem obs a).
  { intros a i Ha Hi. rewrite Hy.
    destruct a as [|[|a]]; [| |lia]; cbn [row nth];
      unfold add_r, scale_l;
      rewrite getitem_map by (rewrite length_map; lia);
      rewrite getitem_map by lia; reflexivity. }
  intros a i Ha Hi. split.
  - rewrite Gy by assumption. ring.
  - rewrite Hn.
    assert (Hv : getitem (row [vsub (row y 0) (channel (_warm_start self) 0);
                               vsub (row y 1) (channel (_warm_start self) 1)] a) i
                 = getitem (row y a) i - getitem (channel (_warm_start self) a) i).
    { destruct a as [|[|a]]; [| |lia]; cbn [row nth];
        apply getitem_zip_with;
        rewrite ?Lrow, ?(length_channel N) by (lia || assumption); assumption. }
    rewrite Hv, Gy by assumption. ring.
Qed.

(** *** Repeating the rebuild *)

(** C9.  The coefficient rebuild is deterministic and idempotent: two engine
    states with the same warm start (and constants) yield, on the same tick
    inputs, the same [A_eq], [b_eq], [A_ineq], inequality bounds, [H] and
    [f]; and running the rebuild, which is the first half of a tick, a
    second time on the state the first one left yields the same coefficients
    and the same stored program.  The rebuild goes through where the tick
    does: on port values of the shapes the planner declares and a halfspace
    vector that is zero at no node. *)
Theorem coefficient_rebuild_is_idempotent (self : QuadraticProgram)
    (context : Context) (p : MathematicalProgram) (stdin : pdb_command) :
  prog self = Some p ->
  port_shapes_agree self context = true ->
  linearized_distance_is_finite (halfspace_vector_of self context) = true ->
  (forall other, same_tick_state self other ->
     coefficients other context = coefficients self context)
  /\ exists once p1,
       rebuild self context = inr once
       /\ prog once = Some p1
       /\ tick self context stdin
          = parse_solution
              (set_optimizer_time
                 (set_solution once (Solve p1 (_warm_start once)))
                 (optimizer_time (Solve p1 (_warm_start once))))
              context stdin
       /\ coefficients once context = coefficients self context
       /\ rebuild once context = inr once.
Proof.
  intros Hprog Hshape Hfin. split.
  - intros other Hs. symmetry. now apply coefficients_same_tick_state.
  - unfold rebuild_coefficients, update_qp. rewrite Hshape, Hprog, Hfin. cbn [negb].
    eexists. eexists. split; [reflexivity|].
    split; [reflexivity|]. split; [reflexivity|].
    assert (Hs : same_tick_state
                   (set_prog self (update_program self p (coefficients self context))) self).
    { split; [|reflexivity]. unfold same_constants. repeat split. }
    assert (Hco : coefficients (set_prog self (update_program self p (coefficients self context)))
                    context = coefficients self context)
      by now apply coefficients_same_tick_state.
    split; [exact Hco|].
    destruct (guards_same_tick_state _ _ context Hs) as [-> ->].
    rewrite Hshape, Hfin. cbn [negb prog set_prog]. rewrite Hco. reflexivity.
Qed.

(** *** The cost *)

(** C10.  The cost Hessian [H] and gradient [f] are the same on every tick
    of every run: the objective has fixed weights and is always
    differentiated at the zero setpoint, neither of which is assigned after
    [__init__], so in every state that a run reaches, whether its last event
    returned or was quit in the debugger, the [H] and [f] recomputed on a
    tick equal those of the first construction, and so does the cost stored
    in the program. *)
Theorem cost_is_constant (config : Config) (first : Context) (stdin : pdb_command)
    (ticks : list (Context * pdb_command))
    (self : QuadraticProgram) (context : Context) :
  final_state (simulate config first stdin ticks) = Some (self, context) ->
  exists p,
    prog self = Some p
    /\ _setpoint self = zeros ((state_dimension config * 3 + (2 + 1)) * nodes config)
    /\ _weights self = [100; 1; 1 # 100; 1]
    /\ (forall next : Context,
          cost_H (coefficients self next) = cost_H (coefficients (__init__ config) first)
          /\ cost_f (coefficients self next) = cost_f (coefficients (__init__ config) first))
    /\ objective_function p
       = {| qc_Q := cost_H (coefficients (__init__ config) first);
            qc_b := cost_f (coefficients (__init__ config) first) |}
    /\ cost_H (coefficients (__init__ config) first)
       = jacfwd (jacrev (objective_func (__init__ config)))
           (zeros ((state_dimension config * 3 + (2 + 1)) * nodes config))
    /\ cost_f (coefficients (__init__ config) first)
       = jacfwd_scalar (objective_func (__init__ config))
           (zeros ((state_dimension config * 3 + (2 + 1)) * nodes config)).
Proof.
  intros Hr.
  destruct (run_final config first stdin ticks self context Hr)
    as (p & Hc & Hp & (_ & _ & Ho)).
  exists p.
  split; [exact Hp|].
  assert (Hs : _setpoint self = _setpoint (__init__ config)
               /\ _weights self = _weights (__init__ config)).
  { unfold same_constants in Hc.
    repeat match goal with H : _ /\ _ |- _ => destruct H end.
    split; symmetry; assumption. }
  destruct Hs as [Hs Hw].
  split; [rewrite Hs; reflexivity|].
  split; [rewrite Hw; reflexivity|].
  split.
  - intros next.
    destruct (cost_same_constants (__init__ config) self first next Hc) as [HH Hf].
    split; symmetry; assumption.
  - split; [exact Ho|]. split; reflexivity.
Qed.

End Ticks.

(** *** The theorems on ticks, on the example run *)

Lemma veq_getitem (a b : vec) (i : nat) : veq a b -> getitem a i == getitem b i.
Proof.
  intros Hv. unfold getitem. revert i.
  induction Hv as [|x y a b Hxy _ IH]; intros [|i]; simpl;
    try reflexivity; [assumption | apply IH].
Qed.

(** C1.  The engine has been built and its warm start is the plan of the
    first solve.  On the next tick the solver reports failure and the tick
    stops in the debugger.  Quit there, the tick ends in [BdbQuit] with the
    warm start and the published trajectory it had, as the claim says.
    Resumed, it runs on into the decoding: the warm start and the published
    trajectory are replaced by what is decoded from the vector that the
    failed solve returned. *)
Theorem failed_tick_overwrites_state :
  is_success example_failure = false
  /\ _warm_start example_engine = example_plan
  /\ warm_start_after
       (update_qp sqrt_floor difference_jacobian difference_gradient difference_gradient
          (constant_solver example_failure) example_engine example_carried pdb_quit)
     = Some example_plan
  /\ published_after
       (update_qp sqrt_floor difference_jacobian difference_gradient difference_gradient
          (constant_solver example_failure) example_engine example_carried pdb_quit)
     = Some (output_callback example_carried)
  /\ (exists console self' context',
        update_qp sqrt_floor difference_jacobian difference_gradient difference_gradient
          (constant_solver example_failure) example_engine example_carried pdb_continue
        = Returned console self' context'
        /\ console = [Print_did_not_solve; Print_solver_status 3;
                      Print_objective_convex; Pdb_set_trace]
        /\ _warm_start self' = repeat 1 18
        /\ map Qred (output_callback context')
           = [1; 1; 1; 1; 1; 1; 1; 1; 110 # 3; 110 # 3; 110 # 3; 110 # 3])
  /\ ~ veq (repeat 1 18) example_plan
  /\ map Qred (output_callback example_carried)
     = [1 # 2; 1 # 2; 0; 0; 0; 5 # 18; 0; - (1 # 10); 25 # 9; - (25 # 243); - (1); 1 # 27].
Proof.
  split; [reflexivity|]. split; [reflexivity|].
  split; [vm_compute; reflexivity|]. split; [vm_compute; reflexivity|].
  split.
  - eexists. eexists. eexists. split; [vm_compute; reflexivity|].
    split; [reflexivity|]. split; vm_compute; reflexivity.
  - split; [|vm_compute; reflexivity].
    intros Hv. pose proof (veq_getitem _ _ 0 Hv) as H0.
    vm_compute in H0. discriminate H0.
Qed.

Lemma coefficients_evaluated_at_zero_setpoint_witness :
  _setpoint (fst example_final) = zeros ((2 * 3 + (2 + 1)) * 2).
Proof.
  apply (coefficients_evaluated_at_zero_setpoint
           sqrt_floor difference_jacobian difference_gradient difference_gradient
           (constant_solver example_success) example_config example_context pdb_quit
           [(example_context, pdb_quit)] (fst example_final) (snd example_final)).
  vm_compute. reflexivity.
Defined.

Lemma cost_is_constant_witness :
  exists p, prog (fst example_final) = Some p
            /\ _weights (fst example_final) = [100; 1; 1 # 100; 1].
Proof.
  destruct (cost_is_constant
              sqrt_floor difference_jacobian difference_gradient difference_gradient
              (constant_solver example_success) example_config example_context pdb_quit
              [(example_context, pdb_quit)] (fst example_final) (snd example_final))
    as (p & Hp & _ & Hw & _).
  - vm_compute. reflexivity.
  - exists p. split; assumption.
Defined.

(** C2, as stated, fails.  With the plan of the first solve as warm start,
    the equality bound of the next tick is the negated residual at the zero
    setpoint, whose first entry is the initial position 1/2; the negated
    residual at the warm start is zero there. *)
Lemma operating_point_is_not_warm_start :
  _warm_start example_engine = example_plan
  /\ map Qred
       (b_eq (qp_coefficients sqrt_floor difference_jacobian difference_gradient
                difference_gradient example_engine example_carried))
     = [1 # 2; 0; 0; 0; 3 # 40; - (27 # 1000); 0; 0; 0; 0]
  /\ map Qred
       (vneg (equality_func example_engine (_warm_start example_engine)
                (convert_initial_conditions example_engine example_carried)))
     = [0; 0; 0; 0; 0; 0; 0; 0; 0; 0]
  /\ ~ veq (b_eq (qp_coefficients sqrt_floor difference_jacobian difference_gradient
                    difference_gradient example_engine example_carried))
           (vneg (equality_func example_engine (_warm_start example_engine)
                    (convert_initial_conditions example_engine example_carried))).
Proof.
  split; [reflexivity|]. split; [vm_compute; reflexivity|].
  split; [vm_compute; reflexivity|].
  intros Hv. pose proof (veq_getitem _ _ 0 Hv) as H0.
  vm_compute in H0. discriminate H0.
Qed.

Lemma halfspace_from_projected_obstacle_witness :
  getitem (row (halfspace_vector_of example_engine example_carried) 0) 1
  == getitem (obstacle_states example_carried) 0
     + getitem (obstacle_states example_carried) 3 * getitem (_time_vector example_engine) 1
     - getitem (channel (_warm_start example_engine) 0) 1.
Proof.
  apply (halfspace_from_projected_obstacle
           sqrt_floor difference_jacobian difference_gradient difference_gradient
           example_engine example_carried 2).
  - lia.
  - reflexivity.
  - reflexivity.
  - reflexivity.
  - reflexivity.
  - reflexivity.
  - lia.
  - lia.
Defined.

Lemma coefficient_rebuild_is_idempotent_witness :
  exists once,
    rebuild_coefficients sqrt_floor difference_jacobian difference_gradient
      difference_gradient example_engine example_carried = inr once
    /\ qp_coefficients sqrt_floor difference_jacobian difference_gradient
         difference_gradient once example_carried
       = qp_coefficients sqrt_floor difference_jacobian difference_gradient
           difference_gradient example_engine example_carried.
Proof.
  destruct (coefficient_rebuild_is_idempotent
              sqrt_floor difference_jacobian difference_gradient difference_gradient
              (constant_solver example_success)
              example_engine example_carried _ pdb_quit eq_refl eq_refl eq_refl)
    as (_ & once & p1 & Hr & _ & _ & Hc & _).
  exists once. split; assumption.
Defined.

(** The two errors that end an event before the solve.  With the obstacle
    on the planned position of node 0 (here the origin, at the first
    construction) the halfspace vector of that node is zero and the
    inequality block is refused; a configuration of three dimensions makes
    the obstacle trajectory and the previous trajectory differ in shape. *)
Lemma example_aborts :
  build_optimization sqrt_floor difference_jacobian difference_gradient
    difference_gradient (constant_solver example_success) (__init__ example_config)
    {| initial_condition := initial_condition example_context;
       obstacle_states := [0; 0; 0; 1 # 2; 0; 0];
       risk_constraints := risk_constraints example_context;
       abstract_state := abstract_state example_context |} pdb_continue
  = Raised RuntimeError
  /\ build_optimization sqrt_floor difference_jacobian difference_gradient
       difference_gradient (constant_solver example_success)
       (__init__ {| motion_planner_rate := 1 # 50; nodes := 2; time_horizon := 1;
                    state_dimension := 3; dt := 1 # 10; spline_resolution := 3;
                    area_bounds := 3 # 4 |})
       {| initial_condition := initial_condition example_context;
          obstacle_states := [1; 1; 0; 1 # 2; 0; 0; 0; 0; 0];
          risk_constraints := risk_constraints example_context;
          abstract_state := zeros 18 |} pdb_continue
     = Raised ValueError
  /\ update_qp sqrt_floor difference_jacobian difference_gradient
       difference_gradient (constant_solver example_success) (__init__ example_config)
       example_context pdb_continue
     = Raised AttributeError.
Proof. repeat split; vm_compute; reflexivity. Qed.

(** ** The initial condition *)

Lemma Qltb_lt (a b : Q) : Qltb a b = true <-> a < b.
Proof.
  unfold Qltb. rewrite negb_true_iff. split.
  - intros Hf. apply Qnot_le_lt. intros Hle.
    apply Qle_bool_iff in Hle. congruence.
  - intros Hlt. destruct (Qle_bool b a) eqn:E; [|reflexivity].
    apply Qle_bool_iff in E. exfalso. now apply (Qlt_not_le a b).
Qed.

Lemma Qltb_ge (a b : Q) : Qltb a b = false <-> b <= a.
Proof.
  unfold Qltb. rewrite negb_false_iff. apply Qle_bool_iff.
Qed.

(** C3, as stated, fails.  The estimator reports a planar acceleration of 10
    at rest.  The drag model turns it into the control value 0.27, which
    exceeds the control bound 0.075; the planner hands 0.075 to the
    constraint assembly, and the bound of the node-0 control row is 0.075. *)
Lemma initial_control_is_clamped :
  getitem (initial_condition example_context) 6 = 10
  /\ getitem (initial_condition example_context) 3 = 0
  /\ convert_to_control (__init__ example_config) 10 0 == 27 # 100
  /\ getitem (convert_initial_conditions (__init__ example_config) example_context) 6
     == 75 # 1000
  /\ ~ getitem (convert_initial_conditions (__init__ example_config) example_context) 6
       == convert_to_control (__init__ example_config) 10 0
  /\ getitem (b_eq (qp_coefficients sqrt_floor difference_jacobian difference_gradient
                      difference_gradient (__init__ example_config) example_context)) 4
     == 75 # 1000.
Proof.
  repeat split; try reflexivity.
  intros Heq. vm_compute in Heq. discriminate Heq.
Qed.

(** C3, amended.  The planner converts the two planar accelerations to
    control values by the drag model [u = ddq * mass + friction * dq] and
    saturates each at the control bound: the value is kept when
    [|u| < limit] and replaced by [sign u * limit] otherwise.  The other
    entries of the initial condition, position and velocity among them, are
    never clamped, and the node-0 rows of the equality residual compare the
    design vector with the supplied position and velocity and with the
    saturated control values. *)
Theorem initial_condition_conversion (self : QuadraticProgram) (context : Context)
    (q : vec) :
  length (initial_condition context) = 9%nat ->
  _full_size self = 6%nat -> _num_slack self = 3%nat ->
  let ic := initial_condition context in
  let ic' := convert_initial_conditions self context in
  let limit := getitem (_state_bounds self) 2 in
  let ux := getitem ic 6 * _mass self + _friction self * getitem ic 3 in
  let uy := getitem ic 7 * _mass self + _friction self * getitem ic 4 in
  length ic' = 9%nat
  /\ (forall k, k <> 6%nat -> k <> 7%nat -> getitem ic' k = getitem ic k)
  /\ (Qabs ux < limit -> getitem ic' 6 = ux)
  /\ (limit <= Qabs ux -> getitem ic' 6 = sign ux * limit)
  /\ (Qabs uy < limit -> getitem ic' 7 = uy)
  /\ (limit <= Qabs uy -> getitem ic' 7 = sign uy * limit)
  /\ firstn 6 (equality_func self q ic')
     = [ getitem (channel q 0) 0 - getitem ic 0;
         getitem (channel q 1) 0 - getitem ic 1;
         getitem (channel q 2) 0 - getitem ic 3;
         getitem (channel q 3) 0 - getitem ic 4;
         getitem (channel q 4) 0 - getitem ic' 6;
         getitem (channel q 5) 0 - getitem ic' 7 ].
Proof.
  intros Hlen Hfull Hslack ic ic' limit ux uy.
  assert (Hic' : ic' = [ getitem ic 0; getitem ic 1; getitem ic 2; getitem ic 3;
                         getitem ic 4; getitem ic 5;
                         compute_control self (getitem ic 6) (getitem ic 3) limit;
                         compute_control self (getitem ic 7) (getitem ic 4) limit;
                         getitem ic 8 ]).
  { subst ic' limit ic. unfold convert_initial_conditions.
    destruct (initial_condition context)
      as [|i0 [|i1 [|i2 [|i3 [|i4 [|i5 [|i6 [|i7 [|i8 [|i9 l]]]]]]]]]];
      try discriminate Hlen.
    reflexivity. }
  assert (Hux : compute_control self (getitem ic 6) (getitem ic 3) limit
                = if Qltb (Qabs ux) limit then ux else sign ux * limit) by reflexivity.
  assert (Huy : compute_control self (getitem ic 7) (getitem ic 4) limit
                = if Qltb (Qabs uy) limit then uy else sign uy * limit) by reflexivity.
  split; [rewrite Hic'; reflexivity|].
  split.
  { intros k H6 H7. rewrite Hic'.
    destruct (Nat.lt_ge_cases k 9) as [Hk|Hk].
    - do 9 (destruct k as [|k]; [first [reflexivity | congruence]|]). lia.
    - unfold getitem. transitivity 0.
      + apply nth_overflow. simpl. lia.
      + symmetry. apply nth_overflow. unfold ic. rewrite Hlen. lia. }
  split; [intros Hlt; rewrite Hic'; cbn [getitem nth]; rewrite Hux;
          apply Qltb_lt in Hlt; now rewrite Hlt|].
  split; [intros Hge; rewrite Hic'; cbn [getitem nth]; rewrite Hux;
          apply Qltb_ge in Hge; now rewrite Hge|].
  split; [intros Hlt; rewrite Hic'; cbn [getitem nth]; rewrite Huy;
          apply Qltb_lt in Hlt; now rewrite Hlt|].
  split; [intros Hge; rewrite Hic'; cbn [getitem nth]; rewrite Huy;
          apply Qltb_ge in Hge; now rewrite Hge|].
  rewrite (equality_func_blocks self q ic' Hfull Hslack).
  cbn [firstn app]. rewrite Hic'. reflexivity.
Qed.

Lemma initial_condition_conversion_witness :
  length (convert_initial_conditions (__init__ example_config) example_context) = 9%nat.
Proof.
  apply (initial_condition_conversion (__init__ example_config) example_context
           example_design); reflexivity.
Defined.

(** ** The box on the design vector *)

Lemma nth_repeat_lt {A : Type} (a d : A) (n i : nat) :
  (i < n)%nat -> nth i (repeat a n) d = a.
Proof.
  revert i. induction n as [|n IH]; intros [|i] Hi; simpl; try lia.
  - reflexivity.
  - apply IH. lia.
Qed.

Lemma nth_app_at {A : Type} (a b : list A) (d : A) (n i : nat) :
  length a = n -> nth (n + i) (a ++ b) d = nth i b d.
Proof.
  intros <-. rewrite app_nth2 by lia. f_equal. lia.
Qed.

Lemma init_bounds (config : Config) (N : nat) :
  state_dimension config = 2%nat -> nodes config = N ->
  opt_var_lb (__init__ config)
  = repeat (Fin (- (2))) (2 * N) ++ repeat (Fin (- (2))) (2 * N)
    ++ repeat (Fin (- (75 # 1000))) (2 * N)
    ++ repeat (Fin 0) (2 * N) ++ repeat NINF (1 * N)
  /\ opt_var_ub (__init__ config)
     = repeat (Fin 2) (2 * N) ++ repeat (Fin 2) (2 * N)
       ++ repeat (Fin (75 # 1000)) (2 * N)
       ++ repeat Inf (2 * N) ++ repeat (Fin 0) (1 * N).
Proof.
  intros Hd Hn. unfold __init__, times_ones. cbn [opt_var_lb opt_var_ub].
  rewrite Hd, Hn. split; reflexivity.
Qed.


Section Box.

Variable sqrt : Q -> Q.
Variable jacfwd : (vec -> vec) -> vec -> matrix.
Variable jacfwd_scalar : (vec -> Q) -> vec -> vec.
Variable jacrev : (vec -> Q) -> vec -> vec.
Variable Solve : MathematicalProgram -> vec -> MathematicalProgramResult.


End Box.


(** ** The inequality residual *)

Section Residual.

Variable sqrt : Q -> Q.

Lemma length_risk_row (mi bi : Q) (ld s : vec) (N : nat) :
  length ld = N -> length s = N ->
  length (vadd (vneg (add_r (scale_l mi ld) bi)) s) = N.
Proof.
  intros Hld Hs. unfold vadd, vneg, add_r, scale_l.
  rewrite length_zip_with, !length_map. lia.
Qed.

Lemma getitem_risk_row (mi bi : Q) (ld s : vec) (N j : nat) :
  length ld = N -> length s = N -> (j < N)%nat ->
  getitem (vadd (vneg (add_r (scale_l mi ld) bi)) s) j
  = - (mi * getitem ld j + bi) + getitem s j.
Proof.
  intros Hld Hs Hj. unfold vadd, vneg, add_r, scale_l.
  rewrite getitem_zip_with by (rewrite ?length_map; lia).
  rewrite !getitem_map by (rewrite ?length_map; lia).
  reflexivity.
Qed.

Lemma length_risk_block (m b ld s : vec) (N : nat) :
  length m = length b -> length ld = N -> length s = N ->
  length (flatten (add_row (mneg (add_col (einsum_i_j_ij m ld) b)) s))
  = (length m * N)%nat.
Proof.
  intros Hmb Hld Hs. revert b Hmb.
  induction m as [|mi m IH]; intros [|bi b] Hmb; try discriminate Hmb.
  - reflexivity.
  - unfold flatten, add_row, mneg, add_col, einsum_i_j_ij in *.
    cbn [map combine concat fst snd length].
    rewrite length_app, (length_risk_row _ _ _ _ N) by assumption.
    rewrite IH by (simpl in Hmb; lia). lia.
Qed.

Lemma getitem_risk_block (m b ld s : vec) (N : nat) :
  length ld = N -> length s = N ->
  forall i j, length m = length b -> (i < length m)%nat -> (j < N)%nat ->
  getitem (flatten (add_row (mneg (add_col (einsum_i_j_ij m ld) b)) s)) (i * N + j)
  = - (getitem m i * getitem ld j + getitem b i) + getitem s j.
Proof.
  intros Hld Hs. revert b.
  induction m as [|mi m IH]; intros [|bi b] i j Hmb Hi Hj;
    try discriminate Hmb; simpl in Hi; try lia.
  unfold flatten, add_row, mneg, add_col, einsum_i_j_ij in *.
  cbn [map combine concat fst snd].
  destruct i as [|i].
  - rewrite getitem_app_l by (rewrite (length_risk_row _ _ _ _ N); assumption).
    now apply (getitem_risk_row _ _ _ _ N).
  - replace (S i * N + j)%nat with (N + (i * N + j))%nat by lia.
    rewrite (getitem_app_r _ _ N) by (now apply length_risk_row).
    simpl in Hmb.
    exact (IH b i j ltac:(lia) ltac:(lia) Hj).
Qed.

Lemma length_area_row (p s : vec) (l : Q) (N : nat) :
  length p = N -> length s = N -> length (vsub (sub_r p l) s) = N.
Proof.
  intros Hp Hs. unfold vsub, sub_r. rewrite length_zip_with, length_map. lia.
Qed.

Lemma getitem_area_row (p s : vec) (l : Q) (N j : nat) :
  length p = N -> length s = N -> (j < N)%nat ->
  getitem (vsub (sub_r p l) s) j = getitem p j - l - getitem s j.
Proof.
  intros Hp Hs Hj. unfold vsub, sub_r.
  rewrite getitem_zip_with by (rewrite ?length_map; lia).
  rewrite getitem_map by lia. reflexivity.
Qed.

Lemma getitem_vneg (p : vec) (j : nat) :
  (j < length p)%nat -> getitem (vneg p) j = - getitem p j.
Proof. intros Hj. unfold vneg. now apply getitem_map. Qed.

Lemma two_rows (m : matrix) : length m = 2%nat -> m = [row m 0; row m 1].
Proof.
  intros Hm. destruct m as [|a [|b [|c m]]]; try discriminate Hm. reflexivity.
Qed.

(** [linearized_distance] entry by entry. *)
Lemma getitem_linearized_distance (q : vec) (y n : matrix) (N j : nat) :
  length q = (9 * N)%nat ->
  length (row y 0) = N -> length (row y 1) = N ->
  length (row n 0) = N -> length (row n 1) = N -> (j < N)%nat ->
  let ld := linearized_distance_of sqrt
              (msub [row y 0; row y 1] [channel q 0; channel q 1])
              [row n 0; row n 1] in
  length ld = N /\ getitem ld j = linearized_distance_at sqrt q y n j.
Proof.
  intros Hq Hy0 Hy1 Hn0 Hn1 Hj ld.
  pose proof (length_channel N q 0 Hq ltac:(lia)) as L0.
  pose proof (length_channel N q 1 Hq ltac:(lia)) as L1.
  subst ld. unfold linearized_distance_of, linalg_norm_axis0, einsum_ij_ij_j,
    mmul, msub, sum_axis0, square.
  cbn [map combine fst snd fold_left].
  unfold vmul, vdiv, vadd, vsub.
  split.
  - rewrite !length_zip_with, !length_map, !length_zip_with, !length_map. lia.
  - unfold linearized_distance_at.
    repeat first
      [ rewrite getitem_zip_with
          by (rewrite ?length_zip_with, ?length_map, ?length_zip_with, ?length_map; lia)
      | rewrite getitem_map
          by (rewrite ?length_zip_with, ?length_map, ?length_zip_with, ?length_map; lia) ].
    reflexivity.
Qed.

(** When the square root is exact at the squared length of a non-zero
    halfspace vector, [linearized_distance] is the projection of
    (obstacle - agent) on that vector divided by its length. *)
Lemma linearized_distance_is_projection (q : vec) (y n : matrix) (j : nat) :
  sqrt (halfspace_sq n j) * sqrt (halfspace_sq n j) == halfspace_sq n j ->
  ~ halfspace_sq n j == 0 ->
  linearized_distance_at sqrt q y n j
  == dot_with_halfspace q y n j / sqrt (halfspace_sq n j).
Proof.
  intros Hsq Hnz. unfold linearized_distance_at.
  assert (Hs : ~ sqrt (halfspace_sq n j) == 0).
  { intros Hz. apply Hnz. rewrite <- Hsq, Hz. ring. }
  rewrite <- Hsq at 1. field. exact Hs.
Qed.

(** C4, amended.  The inequality residual has [4 * N] area rows,
    [-p - limit - slack] and [p - limit - slack] for each planar axis at
    each node, followed by one risk row for every pair of a spline segment
    [i] and a node [j], [spline_resolution * N] rows in all and not [N]:
    row [4 * N + i * N + j] is
    [slack_risk[j] - (slope[i] * linearized_distance[j] + intercept[i])],
    where [linearized_distance[j]] is the product of (obstacle - agent) with
    the halfspace vector, divided by the squared length of that vector and
    multiplied by its length, which is the projection divided by the length
    when the vector is not zero and the root is exact.  Every node meets
    every segment's pair. *)
Theorem inequality_residual_rows (self : QuadraticProgram) (N S : nat)
    (q : vec) (y n : matrix) (m b : vec) :
  (0 < N)%nat -> _full_size self = 6%nat -> _num_slack self = 3%nat ->
  length (_area_limit self) = 2%nat ->
  length q = (9 * N)%nat ->
  length y = 2%nat -> length (row y 0) = N -> length (row y 1) = N ->
  length n = 2%nat -> length (row n 0) = N -> length (row n 1) = N ->
  length m = S -> length b = S ->
  let r := inequality_func sqrt self q y n m b in
  length r = (4 * N + S * N)%nat
  /\ (forall a j, (a < 2)%nat -> (j < N)%nat ->
        getitem r (a * N + j)
        = - getitem (channel q a) j - getitem (_area_limit self) a
          - getitem (channel q (6 + a)) j
        /\ getitem r (2 * N + a * N + j)
           = getitem (channel q a) j - getitem (_area_limit self) a
             - getitem (channel q (6 + a)) j)
  /\ (forall i j, (i < S)%nat -> (j < N)%nat ->
        getitem r (4 * N + i * N + j)
        == getitem (channel q 8) j
           - (getitem m i * linearized_distance_at sqrt q y n j + getitem b i))
  /\ (forall j,
        sqrt (halfspace_sq n j) * sqrt (halfspace_sq n j) == halfspace_sq n j ->
        ~ halfspace_sq n j == 0 ->
        linearized_distance_at sqrt q y n j
        == dot_with_halfspace q y n j / sqrt (halfspace_sq n j)).
Proof.
  intros HN Hfull Hslack Hlim Hq Hy Hy0 Hy1 Hn Hn0 Hn1 Hm Hb r.
  assert (Hlen : forall k, (k < 9)%nat -> length (channel q k) = N)
    by (intros k Hk; now apply length_channel).
  pose proof (Hlen 0%nat ltac:(lia)) as L0. pose proof (Hlen 1%nat ltac:(lia)) as L1.
  pose proof (Hlen 6%nat ltac:(lia)) as L6. pose proof (Hlen 7%nat ltac:(lia)) as L7.
  pose proof (Hlen 8%nat ltac:(lia)) as L8.
  set (l0 := getitem (_area_limit self) 0). set (l1 := getitem (_area_limit self) 1).
  set (ld := linearized_distance_of sqrt
               (msub [row y 0; row y 1] [channel q 0; channel q 1])
               [row n 0; row n 1]).
  assert (Hr : r = (vsub (sub_r (vneg (channel q 0)) l0) (channel q 6)
                    ++ vsub (sub_r (vneg (channel q 1)) l1) (channel q 7)
                    ++ vsub (sub_r (channel q 0) l0) (channel q 6)
                    ++ vsub (sub_r (channel q 1) l1) (channel q 7) ++ [])
                   ++ flatten (add_row (mneg (add_col (einsum_i_j_ij m ld) b))
                                       (channel q 8))).
  { subst r ld l0 l1. unfold inequality_func, _inequality_constraints.
    rewrite Hfull, Hslack. change (6 + 3)%nat with 9%nat.
    rewrite (nine_rows (reshape 9 q)) by (unfold reshape; apply length_chunks).
    fold (channel q 0) (channel q 1) (channel q 2) (channel q 3) (channel q 4)
         (channel q 5) (channel q 6) (channel q 7) (channel q 8).
    rewrite (two_rows y Hy) at 1. rewrite (two_rows n Hn) at 1.
    destruct (_area_limit self) as [|a0 [|a1 [|a2 l]]]; try discriminate Hlim.
    reflexivity. }
  assert (Lv0 : length (vneg (channel q 0)) = N) by (unfold vneg; now rewrite length_map).
  assert (Lv1 : length (vneg (channel q 1)) = N) by (unfold vneg; now rewrite length_map).
  pose proof (length_area_row _ _ l0 N Lv0 L6) as A0.
  pose proof (length_area_row _ _ l1 N Lv1 L7) as A1.
  pose proof (length_area_row _ _ l0 N L0 L6) as A2.
  pose proof (length_area_row _ _ l1 N L1 L7) as A3.
  assert (Lld : length ld = N).
  { destruct (getitem_linearized_distance q y n N 0 Hq Hy0 Hy1 Hn0 Hn1 HN) as [Hl _].
    exact Hl. }
  pose proof (length_risk_block m b ld (channel q 8) N ltac:(lia) Lld L8) as LR.
  split; [|split; [|split]].
  - rewrite Hr, !length_app, A0, A1, A2, A3, LR, Hm. cbn [length]. lia.
  - intros a j Ha Hj. rewrite Hr.
    destruct a as [|[|a]]; [| |lia]; split.
    + replace (0 * N + j)%nat with j by lia.
      rewrite getitem_app_l by (rewrite !length_app, A0; lia).
      rewrite getitem_app_l by lia.
      rewrite (getitem_area_row _ _ _ N), getitem_vneg by (assumption || lia).
      reflexivity.
    + replace (2 * N + 0 * N + j)%nat with (N + (N + j))%nat by lia.
      rewrite getitem_app_l by (rewrite !length_app, A0, A1, A2; lia).
      rewrite !(getitem_app_r _ _ N) by assumption.
      rewrite getitem_app_l by lia.
      now rewrite (getitem_area_row _ _ _ N) by (assumption || lia).
    + replace (1 * N + j)%nat with (N + j)%nat by lia.
      rewrite getitem_app_l by (rewrite !length_app, A0, A1; lia).
      rewrite !(getitem_app_r _ _ N) by assumption.
      rewrite getitem_app_l by lia.
      rewrite (getitem_area_row _ _ _ N), getitem_vneg by (assumption || lia).
      reflexivity.
    + replace (2 * N + 1 * N + j)%nat with (N + (N + (N + j)))%nat by lia.
      rewrite getitem_app_l by (rewrite !length_app, A0, A1, A2, A3; lia).
      rewrite !(getitem_app_r _ _ N) by assumption.
      rewrite getitem_app_l by lia.
      now rewrite (getitem_area_row _ _ _ N) by (assumption || lia).
  - intros i j Hi Hj. rewrite Hr.
    replace (4 * N + i * N + j)%nat with (4 * N + (i * N + j))%nat by lia.
    rewrite (getitem_app_r _ _ (4 * N))
      by (rewrite !length_app, A0, A1, A2, A3; cbn [length]; lia).
    rewrite (getitem_risk_block m b ld (channel q 8) N Lld L8) by lia.
    destruct (getitem_linearized_distance q y n N j Hq Hy0 Hy1 Hn0 Hn1 Hj) as [_ Hg].
    fold ld in Hg. rewrite Hg. ring.
  - intros j. apply linearized_distance_is_projection.
Qed.

End Residual.

Lemma inequality_residual_rows_witness :
  length (inequality_func sqrt_floor (__init__ example_config) example_plan
            (obstacle_trajectory_of (__init__ example_config) example_context)
            (halfspace_vector_of (__init__ example_config) example_context)
            [1; 2; 3] [0; 1; 2])
  = (4 * 2 + 3 * 2)%nat.
Proof.
  apply (inequality_residual_rows sqrt_floor (__init__ example_config) 2 3 example_plan
           (obstacle_trajectory_of (__init__ example_config) example_context)
           (halfspace_vector_of (__init__ example_config) example_context)
           [1; 2; 3] [0; 1; 2]); first [lia | reflexivity].
Defined.

(** C4, as stated, fails.  With two nodes and three spline segments the
    residual has [4 * 2 + 3 * 2 = 14] rows: the risk block contributes six
    rows, not one per node. *)
Lemma risk_block_is_segments_by_nodes :
  nodes example_config = 2%nat
  /\ spline_resolution example_config = 3%nat
  /\ length (b_ineq_ub
               (qp_coefficients sqrt_floor difference_jacobian difference_gradient
                  difference_gradient (__init__ example_config) example_context))
     = 14%nat
  /\ 14%nat <> (4 * 2 + 2)%nat.
Proof.
  split; [reflexivity|]. split; [reflexivity|].
  split; [vm_compute; reflexivity | discriminate].
Qed.

(** ** The example run, evaluated *)

(** The plan of the example is feasible for the program of the first
    construction: it meets the equality block, the inequality block and the
    box. *)
Lemma example_plan_is_feasible :
  satisfies_block (equality_constraint example_program) example_plan = true
  /\ satisfies_block (inequality_constraint example_program) example_plan = true
  /\ satisfies_box example_program example_plan = true.
Proof. repeat split; vm_compute; reflexivity. Qed.

(** The two linear blocks do not fix the sign of a position slack: the plan
    with [sx] of node 0 set to -1/10 still meets both of them, and only the
    box rejects it. *)
Lemma linear_blocks_admit_negative_slack :
  getitem (channel example_plan_negative_slack 6) 0 == - (1 # 10)
  /\ satisfies_block (equality_constraint example_program)
       example_plan_negative_slack = true
  /\ satisfies_block (inequality_constraint example_program)
       example_plan_negative_slack = true
  /\ satisfies_box example_program example_plan_negative_slack = false.
Proof. repeat split; vm_compute; reflexivity. Qed.

(** The equality block of the example: the six node-0 rows select one
    variable each, and the bounds are the initial position, velocity and
    saturated control. *)
Lemma example_equality_block :
  map (map Qred) (firstn 6 (lc_A (equality_constraint example_program)))
  = [ [1; 0; 0; 0; 0; 0; 0; 0; 0; 0; 0; 0; 0; 0; 0; 0; 0; 0];
      [0; 0; 1; 0; 0; 0; 0; 0; 0; 0; 0; 0; 0; 0; 0; 0; 0; 0];
      [0; 0; 0; 0; 1; 0; 0; 0; 0; 0; 0; 0; 0; 0; 0; 0; 0; 0];
      [0; 0; 0; 0; 0; 0; 1; 0; 0; 0; 0; 0; 0; 0; 0; 0; 0; 0];
      [0; 0; 0; 0; 0; 0; 0; 0; 1; 0; 0; 0; 0; 0; 0; 0; 0; 0];
      [0; 0; 0; 0; 0; 0; 0; 0; 0; 0; 1; 0; 0; 0; 0; 0; 0; 0] ]
  /\ firstn 6 (lc_ub (equality_constraint example_program))
     = map Fin (firstn 6 (b_eq (qp_coefficients sqrt_floor difference_jacobian
                                  difference_gradient difference_gradient
                                  (__init__ example_config) example_context)))
  /\ map Qred (firstn 6 (b_eq (qp_coefficients sqrt_floor difference_jacobian
                                 difference_gradient difference_gradient
                                 (__init__ example_config) example_context)))
     = [1 # 2; 0; 0; 0; 3 # 40; - (27 # 1000)].
Proof. repeat split; vm_compute; reflexivity. Qed.

(** The cost of the example: the gradient rewards the risk slack, once per
    node for each node, and the Hessian is diagonal. *)
Lemma example_cost :
  map Qred (qc_b (objective_function example_program))
  = [0; 0; 0; 0; 0; 0; 0; 0; 0; 0; 0; 0; 0; 0; 0; 0; - (2); - (2)]
  /\ map Qred (map (fun i => getitem (row (qc_Q (objective_function example_program)) i) i)
                   (seq 0 18))
     = [0; 0; 0; 0; 1 # 50; 1 # 50; 1 # 50; 1 # 50; 2; 2; 2; 2;
        200; 200; 200; 200; 0; 0].
Proof. split; vm_compute; reflexivity. Qed.

(** * Further properties of the planner *)

(** ** Sums *)

Lemma fold_left_Qplus_acc (v : vec) (a : Q) : fold_left Qplus v a == a + vsum v.
Proof.
  unfold vsum. revert a. induction v as [|x v IH]; intros a; simpl.
  - ring.
  - rewrite IH, (IH (0 + x)). ring.
Qed.

Lemma vsum_cons (x : Q) (v : vec) : vsum (x :: v) == x + vsum v.
Proof.
  unfold vsum at 1. simpl. rewrite fold_left_Qplus_acc. ring.
Qed.

Lemma vsum_vadd (a b : vec) :
  length a = length b -> vsum (vadd a b) == vsum a + vsum b.
Proof.
  revert b. induction a as [|x a IH]; intros [|y b] Hl; try discriminate Hl.
  - unfold vsum. simpl. ring.
  - change (vadd (x :: a) (y :: b)) with ((x + y) :: vadd a b).
    rewrite !vsum_cons, IH by (simpl in Hl; lia). ring.
Qed.

Lemma vsum_scale_l (c : Q) (v : vec) : vsum (scale_l c v) == c * vsum v.
Proof.
  induction v as [|x v IH].
  - unfold vsum. simpl. ring.
  - change (scale_l c (x :: v)) with ((c * x) :: scale_l c v).
    rewrite !vsum_cons, IH. ring.
Qed.

Lemma vsum_add_r (v : vec) (c : Q) :
  vsum (add_r v c) == vsum v + inject_Z (Z.of_nat (length v)) * c.
Proof.
  induction v as [|x v IH].
  - unfold vsum. simpl. ring.
  - change (add_r (x :: v) c) with ((x + c) :: add_r v c).
    rewrite !vsum_cons, IH.
    change (length (x :: v)) with (S (length v)).
    rewrite Nat2Z.inj_succ. unfold Z.succ. rewrite inject_Z_plus. ring.
Qed.

Lemma length_square (v : vec) : length (square v) = length v.
Proof. unfold square. apply length_map. Qed.

(** ** The saturation of the initial control *)

Lemma Qabs_compute_control (self : QuadraticProgram) (ddq dq limit : Q) :
  0 <= limit -> Qabs (compute_control self ddq dq limit) <= limit.
Proof.
  intros Hl. unfold compute_control.
  destruct (Qltb (Qabs (convert_to_control self ddq dq)) limit) eqn:E.
  - apply Qltb_lt in E. now apply Qlt_le_weak.
  - unfold sign.
    destruct (Qltb 0 (convert_to_control self ddq dq)).
    + rewrite Qabs_pos.
      * rewrite Qmult_1_l. apply Qle_refl.
      * rewrite Qmult_1_l. exact Hl.
    + destruct (Qltb (convert_to_control self ddq dq) 0).
      * rewrite Qabs_neg.
        -- setoid_replace (- (- (1) * limit)) with limit by ring. apply Qle_refl.
        -- setoid_replace (- (1) * limit) with (- limit) by ring.
           apply (Qopp_le_compat 0 limit) in Hl. exact Hl.
      * rewrite Qmult_0_l. exact Hl.
Qed.

Lemma converted_controls (self : QuadraticProgram) (context : Context) :
  length (initial_condition context) = 9%nat ->
  let ic := initial_condition context in
  let limit := getitem (_state_bounds self) 2 in
  getitem (convert_initial_conditions self context) 6
  = compute_control self (getitem ic 6) (getitem ic 3) limit
  /\ getitem (convert_initial_conditions self context) 7
     = compute_control self (getitem ic 7) (getitem ic 4) limit.
Proof.
  intros Hlen. unfold convert_initial_conditions.
  destruct (initial_condition context)
    as [|i0 [|i1 [|i2 [|i3 [|i4 [|i5 [|i6 [|i7 [|i8 [|i9 l]]]]]]]]]];
    try discriminate Hlen.
  split; reflexivity.
Qed.

(** X1.  Whatever acceleration and velocity the estimator reports, the two
    control values that the planner hands to the constraint assembly lie
    within the control bound: [|u| <= limit] with [limit = _state_bounds[2]],
    provided that bound is not negative.  The node-0 control rows therefore
    never ask for a control outside the box of the control channel. *)
Theorem converted_control_within_bound (self : QuadraticProgram) (context : Context) :
  length (initial_condition context) = 9%nat ->
  0 <= getitem (_state_bounds self) 2 ->
  Qabs (getitem (convert_initial_conditions self context) 6)
    <= getitem (_state_bounds self) 2
  /\ Qabs (getitem (convert_initial_conditions self context) 7)
     <= getitem (_state_bounds self) 2.
Proof.
  intros Hlen Hl.
  destruct (converted_controls self context Hlen) as [-> ->].
  split; now apply Qabs_compute_control.
Qed.

Lemma converted_control_within_bound_witness :
  Qabs (getitem (convert_initial_conditions (__init__ example_config) example_context) 6)
    <= 75 # 1000.
Proof.
  apply (converted_control_within_bound (__init__ example_config) example_context).
  - reflexivity.
  - vm_compute. discriminate.
Defined.

(** ** Control and acceleration *)

(** X2.  [compute_acceleration] undoes the drag-model conversion of
    [compute_control] and conversely, entry by entry, when the mass is not
    zero: the acceleration of a control that was converted from an
    acceleration [a] at the same velocity is [a], and converting the
    acceleration decoded from a control gives that control back. *)
Theorem acceleration_control_round_trip (self : QuadraticProgram)
    (u dx : vec) (i : nat) :
  ~ _mass self == 0 -> (i < length u)%nat -> (i < length dx)%nat ->
  (forall a, getitem u i == convert_to_control self a (getitem dx i) ->
     getitem (compute_acceleration self u dx) i == a)
  /\ convert_to_control self (getitem (compute_acceleration self u dx) i) (getitem dx i)
     == getitem u i.
Proof.
  intros Hm Hu Hd.
  assert (Hg : getitem (compute_acceleration self u dx) i
               = (getitem u i - _friction self * getitem dx i) / _mass self).
  { unfold compute_acceleration, div_r, vsub, scale_l.
    rewrite getitem_map by (rewrite length_zip_with, length_map; lia).
    rewrite getitem_zip_with by (rewrite ?length_map; lia).
    rewrite getitem_map by lia. reflexivity. }
  rewrite Hg. unfold convert_to_control. split.
  - intros a Ha. rewrite Ha. field. exact Hm.
  - field. exact Hm.
Qed.

Lemma acceleration_control_round_trip_witness :
  convert_to_control (__init__ example_config)
    (getitem (compute_acceleration (__init__ example_config) [3 # 40; 0] [0; 5 # 18]) 1)
    (getitem [0; 5 # 18] 1)
  == getitem [3 # 40; 0] 1.
Proof.
  apply (acceleration_control_round_trip (__init__ example_config)
           [3 # 40; 0] [0; 5 # 18] 1).
  - intros Hz. vm_compute in Hz. discriminate Hz.
  - simpl. lia.
  - simpl. lia.
Defined.

(** ** The objective *)

(** X3.  For a planar design vector of [9 * N] entries the objective is
    [w0 * (|sx|^2 + |sy|^2) + w1 * (|ux|^2 + |uy|^2) + w2 * (|dx|^2 + |dy|^2)
     - N * (w3 * sum s)]: it does not read the positions, and the reward of
    the risk slack carries the factor [N], because the scalar
    [-w3 * sum s] is added to each of the [N] per-node terms before the
    final sum. *)
Theorem objective_value (self : QuadraticProgram) (N : nat) (q : vec) :
  _full_size self = 6%nat -> _num_slack self = 3%nat ->
  length q = (9 * N)%nat ->
  let w := _weights self in
  objective_func self q
  == getitem w 0 * (sum_sq (channel q 6) + sum_sq (channel q 7))
     + getitem w 1 * (sum_sq (channel q 4) + sum_sq (channel q 5))
     + getitem w 2 * (sum_sq (channel q 2) + sum_sq (channel q 3))
     - inject_Z (Z.of_nat N) * (getitem w 3 * vsum (channel q 8)).
Proof.
  intros Hfull Hslack Hq w.
  assert (Hlen : forall k, (k < 9)%nat -> length (channel q k) = N)
    by (intros k Hk; now apply length_channel).
  unfold objective_func, _objective_function. rewrite Hfull, Hslack.
  change (6 + 3)%nat with 9%nat.
  rewrite (nine_rows (reshape 9 q)) by (unfold reshape; apply length_chunks).
  fold (channel q 0) (channel q 1) (channel q 2) (channel q 3) (channel q 4)
       (channel q 5) (channel q 6) (channel q 7) (channel q 8).
  fold w.
  cbn [slice Nat.sub skipn firstn last map sum_axis0 fold_left].
  assert (Ls : forall k, (k < 9)%nat -> length (square (channel q k)) = N)
    by (intros k Hk; rewrite length_square; now apply Hlen).
  assert (Lv : forall a b, length a = N -> length b = N -> length (vadd a b) = N)
    by (intros a b Ha Hb; unfold vadd; rewrite length_zip_with; lia).
  assert (Lc : forall c a, length a = N -> length (scale_l c a) = N)
    by (intros c a Ha; unfold scale_l; now rewrite length_map).
  rewrite vsum_add_r.
  rewrite !Lv by (repeat first [apply Lv | apply Lc | apply Ls; lia]).
  rewrite !vsum_vadd
    by (rewrite ?Lv, ?Lc, ?Ls by (repeat first [apply Lv | apply Lc | apply Ls; lia]);
        repeat first [reflexivity | lia | rewrite Lv | rewrite Lc | rewrite Ls ]).
  rewrite !vsum_scale_l.
  rewrite !vsum_vadd by (rewrite !Ls by lia; reflexivity).
  unfold sum_sq. ring.
Qed.

Lemma objective_value_witness :
  objective_func (__init__ example_config) example_plan
  == 100 * (sum_sq (channel example_plan 6) + sum_sq (channel example_plan 7))
     + 1 * (sum_sq (channel example_plan 4) + sum_sq (channel example_plan 5))
     + (1 # 100) * (sum_sq (channel example_plan 2) + sum_sq (channel example_plan 3))
     - inject_Z (Z.of_nat 2) * (1 * vsum (channel example_plan 8)).
Proof.
  apply (objective_value (__init__ example_config) 2 example_plan); reflexivity.
Defined.

(** ** The equality residual, entry by entry *)

Lemma equality_constraints_entries (N : nat) (q ic : vec) (mass friction dt : Q) :
  (0 < N)%nat -> length q = (9 * N)%nat ->
  let r := _equality_constraints q ic mass friction dt 6 3 in
  length r = (6 + 4 * (N - 1))%nat
  /\ (getitem r 0 = getitem (channel q 0) 0 - getitem ic 0
      /\ getitem r 1 = getitem (channel q 1) 0 - getitem ic 1
      /\ getitem r 2 = getitem (channel q 2) 0 - getitem ic 3
      /\ getitem r 3 = getitem (channel q 3) 0 - getitem ic 4
      /\ getitem r 4 = getitem (channel q 4) 0 - getitem ic 6
      /\ getitem r 5 = getitem (channel q 5) 0 - getitem ic 7)
  /\ forall i, (i < N - 1)%nat ->
       getitem r (6 + i)
       = getitem (channel q 0) (i + 1) - getitem (channel q 0) i
         - getitem (channel q 2) i * dt
    /\ getitem r (6 + (N - 1) + i)
       = getitem (channel q 1) (i + 1) - getitem (channel q 1) i
         - getitem (channel q 3) i * dt
    /\ getitem r (6 + 2 * (N - 1) + i)
       = getitem (channel q 2) (i + 1) - getitem (channel q 2) i
         - ((getitem (channel q 4) i - friction * getitem (channel q 2) i) / mass) * dt
    /\ getitem r (6 + 3 * (N - 1) + i)
       = getitem (channel q 3) (i + 1) - getitem (channel q 3) i
         - ((getitem (channel q 5) i - friction * getitem (channel q 3) i) / mass) * dt.
Proof.
  intros HN Hq r.
  assert (Hlen : forall k, (k < 9)%nat -> length (channel q k) = N)
    by (intros k Hk; now apply length_channel).
  pose proof (Hlen 0%nat ltac:(lia)) as Lx. pose proof (Hlen 1%nat ltac:(lia)) as Ly.
  pose proof (Hlen 2%nat ltac:(lia)) as Ldx. pose proof (Hlen 3%nat ltac:(lia)) as Ldy.
  pose proof (Hlen 4%nat ltac:(lia)) as Lux. pose proof (Hlen 5%nat ltac:(lia)) as Luy.
  assert (Hr : r = [ getitem (channel q 0) 0 - getitem ic 0;
                     getitem (channel q 1) 0 - getitem ic 1;
                     getitem (channel q 2) 0 - getitem ic 3;
                     getitem (channel q 3) 0 - getitem ic 4;
                     getitem (channel q 4) 0 - getitem ic 6;
                     getitem (channel q 5) 0 - getitem ic 7 ]
                   ++ _collocation_constraint (channel q 0) (channel q 2) dt
                   ++ _collocation_constraint (channel q 1) (channel q 3) dt
                   ++ _collocation_constraint (channel q 2)
                        (div_r (vsub (channel q 4) (scale_l friction (channel q 2))) mass) dt
                   ++ _collocation_constraint (channel q 3)
                        (div_r (vsub (channel q 5) (scale_l friction (channel q 3))) mass) dt)
    by reflexivity.
  pose proof (length_drag_acceleration _ _ friction mass N Lux Ldx) as Lddx.
  pose proof (length_drag_acceleration _ _ friction mass N Luy Ldy) as Lddy.
  pose proof (length_collocation _ _ dt N Lx Ldx) as C1.
  pose proof (length_collocation _ _ dt N Ly Ldy) as C2.
  pose proof (length_collocation _ _ dt N Ldx Lddx) as C3.
  pose proof (length_collocation _ _ dt N Ldy Lddy) as C4.
  split; [|split].
  - rewrite Hr. cbn [length app]. rewrite !length_app, C1, C2, C3, C4. lia.
  - rewrite Hr. repeat split.
  - intros i Hi. rewrite Hr. repeat split.
    + rewrite (getitem_app_r _ _ 6 i) by reflexivity.
      rewrite getitem_app_l by lia.
      now apply (getitem_collocation _ _ _ N).
    + replace (6 + (N - 1) + i)%nat with (6 + ((N - 1) + i))%nat by lia.
      rewrite (getitem_app_r _ _ 6) by reflexivity.
      rewrite (getitem_app_r _ _ (N - 1)) by assumption.
      rewrite getitem_app_l by lia.
      now apply (getitem_collocation _ _ _ N).
    + replace (6 + 2 * (N - 1) + i)%nat with (6 + ((N - 1) + ((N - 1) + i)))%nat by lia.
      rewrite (getitem_app_r _ _ 6) by reflexivity.
      rewrite !(getitem_app_r _ _ (N - 1)) by assumption.
      rewrite getitem_app_l by lia.
      rewrite (getitem_collocation _ _ _ N) by auto.
      rewrite (getitem_drag_acceleration _ _ _ _ N) by (auto; lia). reflexivity.
    + replace (6 + 3 * (N - 1) + i)%nat
        with (6 + ((N - 1) + ((N - 1) + ((N - 1) + i))))%nat by lia.
      rewrite (getitem_app_r _ _ 6) by reflexivity.
      rewrite !(getitem_app_r _ _ (N - 1)) by assumption.
      rewrite (getitem_collocation _ _ _ N) by auto.
      rewrite (getitem_drag_acceleration _ _ _ _ N) by (auto; lia). reflexivity.
Qed.

Lemma equality_entries (self : QuadraticProgram) (N : nat) (q ic : vec) :
  (0 < N)%nat -> _full_size self = 6%nat -> _num_slack self = 3%nat ->
  length q = (9 * N)%nat ->
  let r := equality_func self q ic in
  length r = (6 + 4 * (N - 1))%nat
  /\ (getitem r 0 = getitem (channel q 0) 0 - getitem ic 0
      /\ getitem r 1 = getitem (channel q 1) 0 - getitem ic 1
      /\ getitem r 2 = getitem (channel q 2) 0 - getitem ic 3
      /\ getitem r 3 = getitem (channel q 3) 0 - getitem ic 4
      /\ getitem r 4 = getitem (channel q 4) 0 - getitem ic 6
      /\ getitem r 5 = getitem (channel q 5) 0 - getitem ic 7)
  /\ forall i, (i < N - 1)%nat ->
       getitem r (6 + i)
       = getitem (channel q 0) (i + 1) - getitem (channel q 0) i
         - getitem (channel q 2) i * _dt self
    /\ getitem r (6 + (N - 1) + i)
       = getitem (channel q 1) (i + 1) - getitem (channel q 1) i
         - getitem (channel q 3) i * _dt self
    /\ getitem r (6 + 2 * (N - 1) + i)
       = getitem (channel q 2) (i + 1) - getitem (channel q 2) i
         - ((getitem (channel q 4) i - _friction self * getitem (channel q 2) i)
            / _mass self) * _dt self
    /\ getitem r (6 + 3 * (N - 1) + i)
       = getitem (channel q 3) (i + 1) - getitem (channel q 3) i
         - ((getitem (channel q 5) i - _friction self * getitem (channel q 3) i)
            / _mass self) * _dt self.
Proof.
  intros HN Hfull Hslack Hq. unfold equality_func. rewrite Hfull, Hslack.
  now apply equality_constraints_entries.
Qed.

(** An index of the residual is one of the six node-0 rows or lies in one
    of the four defect blocks. *)
Lemma equality_index_cases (N k : nat) :
  (k < 6 + 4 * (N - 1))%nat ->
  (k < 6)%nat
  \/ exists i, (i < N - 1)%nat
       /\ (k = 6 + i \/ k = 6 + (N - 1) + i \/ k = 6 + 2 * (N - 1) + i
           \/ k = 6 + 3 * (N - 1) + i)%nat.
Proof.
  intros Hk.
  destruct (Nat.lt_ge_cases k 6) as [H6|H6]; [now left|right].
  destruct (Nat.lt_ge_cases k (6 + (N - 1))) as [H1|H1];
    [exists (k - 6)%nat; split; lia|].
  destruct (Nat.lt_ge_cases k (6 + 2 * (N - 1))) as [H2|H2];
    [exists (k - 6 - (N - 1))%nat; split; lia|].
  destruct (Nat.lt_ge_cases k (6 + 3 * (N - 1))) as [H3|H3];
    [exists (k - 6 - 2 * (N - 1))%nat; split; lia|].
  exists (k - 6 - 3 * (N - 1))%nat; split; lia.
Qed.

Lemma getitem_zeros (n i : nat) : getitem (zeros n) i = 0.
Proof. unfold getitem, zeros. apply nth_repeat. Qed.

Lemma getitem_channel_zeros (N k i : nat) : getitem (channel (zeros (9 * N)) k) i = 0.
Proof.
  destruct (Nat.lt_ge_cases k 9) as [Hk|Hk]; [destruct (Nat.lt_ge_cases i N) as [Hi|Hi]|].
  - rewrite (getitem_channel N) by (try apply repeat_length; assumption).
    apply getitem_zeros.
  - unfold getitem. apply nth_overflow.
    rewrite (length_channel N) by (try apply repeat_length; assumption). exact Hi.
  - unfold channel, row, getitem.
    rewrite (nth_overflow (reshape 9 _)) by (unfold reshape; rewrite length_chunks; exact Hk).
    now destruct i.
Qed.

Lemma getitem_channel_vadd (N : nat) (a b : vec) (k i : nat) :
  length a = (9 * N)%nat -> length b = (9 * N)%nat -> (k < 9)%nat -> (i < N)%nat ->
  getitem (channel (vadd a b) k) i = getitem (channel a k) i + getitem (channel b k) i.
Proof.
  intros Ha Hb Hk Hi.
  assert (Hab : length (vadd a b) = (9 * N)%nat)
    by (unfold vadd; rewrite length_zip_with; lia).
  rewrite !(getitem_channel N) by assumption.
  unfold vadd. apply getitem_zip_with; nia.
Qed.

(** X4.  The equality residual is affine in the design vector: entry by
    entry, [r(a + b) + r(0) == r(a) + r(b)] for design vectors [a], [b] of
    [9 * N] entries and the same initial condition.  Its linearization at
    the zero setpoint is therefore the residual itself. *)
Theorem equality_residual_is_affine (self : QuadraticProgram) (N : nat)
    (a b ic : vec) (k : nat) :
  (0 < N)%nat -> _full_size self = 6%nat -> _num_slack self = 3%nat ->
  length a = (9 * N)%nat -> length b = (9 * N)%nat ->
  (k < 6 + 4 * (N - 1))%nat ->
  getitem (equality_func self (vadd a b) ic) k
  + getitem (equality_func self (zeros (9 * N)) ic) k
  == getitem (equality_func self a ic) k + getitem (equality_func self b ic) k.
Proof.
  intros HN Hfull Hslack Ha Hb Hk.
  assert (Hab : length (vadd a b) = (9 * N)%nat)
    by (unfold vadd; rewrite length_zip_with; lia).
  assert (Hz : length (zeros (9 * N)) = (9 * N)%nat) by apply repeat_length.
  destruct (equality_entries self N (vadd a b) ic HN Hfull Hslack Hab) as (_ & Iab & Dab).
  destruct (equality_entries self N (zeros (9 * N)) ic HN Hfull Hslack Hz) as (_ & Iz & Dz).
  destruct (equality_entries self N a ic HN Hfull Hslack Ha) as (_ & Ia & Da).
  destruct (equality_entries self N b ic HN Hfull Hslack Hb) as (_ & Ib & Db).
  cbv zeta in *.
  destruct (equality_index_cases N k Hk) as [H6|(i & Hi & Hcase)].
  - destruct Iab as (A0 & A1 & A2 & A3 & A4 & A5).
    destruct Iz as (Z0 & Z1 & Z2 & Z3 & Z4 & Z5).
    destruct Ia as (P0 & P1 & P2 & P3 & P4 & P5).
    destruct Ib as (Q0 & Q1 & Q2 & Q3 & Q4 & Q5).
    do 6 (destruct k as [|k];
          [ first [ rewrite A0, Z0, P0, Q0 | rewrite A1, Z1, P1, Q1
                  | rewrite A2, Z2, P2, Q2 | rewrite A3, Z3, P3, Q3
                  | rewrite A4, Z4, P4, Q4 | rewrite A5, Z5, P5, Q5 ];
            rewrite !getitem_channel_zeros;
            rewrite !(getitem_channel_vadd N) by (assumption || lia); ring |]).
    lia.
  - destruct (Dab i Hi) as (A0 & A1 & A2 & A3).
    destruct (Dz i Hi) as (Z0 & Z1 & Z2 & Z3).
    destruct (Da i Hi) as (P0 & P1 & P2 & P3).
    destruct (Db i Hi) as (Q0 & Q1 & Q2 & Q3).
    destruct Hcase as [-> | [-> | [-> | ->]]];
      first [ rewrite A0, Z0, P0, Q0 | rewrite A1, Z1, P1, Q1
            | rewrite A2, Z2, P2, Q2 | rewrite A3, Z3, P3, Q3 ];
      rewrite !getitem_channel_zeros;
      rewrite !(getitem_channel_vadd N) by (assumption || lia);
      unfold Qdiv; ring.
Qed.

Lemma equality_residual_is_affine_witness :
  getitem (equality_func (__init__ example_config) (vadd example_plan example_design)
             (initial_condition example_context)) 8
  + getitem (equality_func (__init__ example_config) (zeros (9 * 2))
               (initial_condition example_context)) 8
  == getitem (equality_func (__init__ example_config) example_plan
                (initial_condition example_context)) 8
     + getitem (equality_func (__init__ example_config) example_design
                  (initial_condition example_context)) 8.
Proof.
  apply (equality_residual_is_affine (__init__ example_config) 2
           example_plan example_design (initial_condition example_context) 8);
    first [reflexivity | lia].
Defined.

Section RightHandSide.

Variable sqrt : Q -> Q.
Variable jacfwd : (vec -> vec) -> vec -> matrix.
Variable jacfwd_scalar : (vec -> Q) -> vec -> vec.
Variable jacrev : (vec -> Q) -> vec -> vec.

(** X5.  With the zero setpoint, the equality bound that a tick hands to
    the program is the converted initial condition followed by zeros: the
    six node-0 rows are bounded by the initial position, velocity and
    control, and every collocation row is bounded by zero. *)
Theorem equality_bound_is_initial_condition (self : QuadraticProgram)
    (context : Context) (N : nat) :
  (0 < N)%nat -> _full_size self = 6%nat -> _num_slack self = 3%nat ->
  _setpoint self = zeros (9 * N) ->
  let b := b_eq (qp_coefficients sqrt jacfwd jacfwd_scalar jacrev self context) in
  let ic := convert_initial_conditions self context in
  length b = (6 + 4 * (N - 1))%nat
  /\ getitem b 0 == getitem ic 0 /\ getitem b 1 == getitem ic 1
  /\ getitem b 2 == getitem ic 3 /\ getitem b 3 == getitem ic 4
  /\ getitem b 4 == getitem ic 6 /\ getitem b 5 == getitem ic 7
  /\ forall k, (6 <= k < 6 + 4 * (N - 1))%nat -> getitem b k == 0.
Proof.
  intros HN Hfull Hslack Hset b ic.
  assert (Hb : b = vneg (equality_func self (zeros (9 * N)) ic)).
  { subst b ic. unfold qp_coefficients. cbn [b_eq]. now rewrite Hset. }
  assert (Hz : length (zeros (9 * N)) = (9 * N)%nat) by apply repeat_length.
  destruct (equality_entries self N (zeros (9 * N)) ic HN Hfull Hslack Hz)
    as (Hl & (Z0 & Z1 & Z2 & Z3 & Z4 & Z5) & Dz).
  cbv zeta in *.
  assert (Hg : forall k, (k < 6 + 4 * (N - 1))%nat ->
            getitem b k = - getitem (equality_func self (zeros (9 * N)) ic) k).
  { intros k Hk. rewrite Hb. apply getitem_vneg. now rewrite Hl. }
  split; [rewrite Hb; unfold vneg; now rewrite length_map|].
  do 6 (split; [rewrite Hg by lia;
                first [rewrite Z0 | rewrite Z1 | rewrite Z2
                      | rewrite Z3 | rewrite Z4 | rewrite Z5];
                rewrite getitem_channel_zeros; ring|]).
  intros k Hk. rewrite Hg by lia.
  destruct (equality_index_cases N k ltac:(lia)) as [H6|(i & Hi & Hcase)]; [lia|].
  destruct (Dz i Hi) as (D0 & D1 & D2 & D3).
  destruct Hcase as [-> | [-> | [-> | ->]]];
    first [rewrite D0 | rewrite D1 | rewrite D2 | rewrite D3];
    rewrite !getitem_channel_zeros; unfold Qdiv; ring.
Qed.

End RightHandSide.

Lemma equality_bound_is_initial_condition_witness :
  getitem (b_eq (qp_coefficients sqrt_floor difference_jacobian difference_gradient
                   difference_gradient example_engine example_carried)) 4
  == getitem (convert_initial_conditions example_engine example_carried) 6.
Proof.
  apply (equality_bound_is_initial_condition
           sqrt_floor difference_jacobian difference_gradient difference_gradient
           example_engine example_carried 2); first [reflexivity | lia].
Defined.

(** ** The published plan as a rollout *)

(** X6.  When the vector returned by the solver meets the equality residual
    of the tick (every entry zero), the trajectory that [parse_solution]
    publishes, after a success or when the debugger is resumed, is an
    explicit Euler rollout from the initial condition: its
    node 0 carries the supplied position and velocity and the acceleration
    of the supplied control, and from node to node the position advances by
    [velocity * dt] and the velocity by [published acceleration * dt]. *)
Theorem published_plan_is_euler_rollout (self : QuadraticProgram) (context : Context)
    (sol : MathematicalProgramResult) (ic : vec) (N : nat) (stdin : pdb_command) :
  (0 < N)%nat -> solution self = Some sol ->
  _full_size self = 6%nat -> _num_slack self = 3%nat ->
  length (x_val sol) = (9 * N)%nat ->
  is_success sol = true \/ stdin = pdb_continue ->
  (forall k, (k < 6 + 4 * (N - 1))%nat ->
     getitem (equality_func self (x_val sol) ic) k == 0) ->
  exists console self' context',
    parse_solution self context stdin = Returned console self' context'
    /\ let t := output_callback context' in
       (getitem t 0 == getitem ic 0 /\ getitem t N == getitem ic 1
        /\ getitem t (2 * N) == getitem ic 3 /\ getitem t (3 * N) == getitem ic 4
        /\ getitem t (4 * N)
           == (getitem ic 6 - _friction self * getitem ic 3) / _mass self
        /\ getitem t (5 * N)
           == (getitem ic 7 - _friction self * getitem ic 4) / _mass self)
       /\ forall i, (i < N - 1)%nat ->
            getitem t (i + 1) == getitem t i + getitem t (2 * N + i) * _dt self
            /\ getitem t (N + (i + 1))
               == getitem t (N + i) + getitem t (3 * N + i) * _dt self
            /\ getitem t (2 * N + (i + 1))
               == getitem t (2 * N + i) + getitem t (4 * N + i) * _dt self
            /\ getitem t (3 * N + (i + 1))
               == getitem t (3 * N + i) + getitem t (5 * N + i) * _dt self.
Proof.
  intros HN Hsol Hfull Hslack Hlen Hgo Hres.
  pose proof (parse_solution_decodes self context sol N stdin Hsol Hfull Hslack Hlen Hgo)
    as Hp.
  cbv zeta in Hp.
  eexists. eexists. eexists. split; [exact Hp|].
  cbn [output_callback abstract_state set_value].
  destruct (equality_entries self N (x_val sol) ic HN Hfull Hslack Hlen)
    as (_ & (I0 & I1 & I2 & I3 & I4 & I5) & Dv).
  cbv zeta in *.
  pose proof (fun i Hi => getitem_trajectory self (x_val sol) N i Hlen Hi) as Ht.
  cbv zeta in Ht.
  assert (E : forall u v : Q, u - v == 0 -> u == v)
    by (intros u v Huv; setoid_replace u with (u - v + v) by ring; rewrite Huv; ring).
  split.
  - destruct (Ht 0%nat HN) as (T0 & T1 & T2 & T3 & T4 & T5).
    rewrite !Nat.add_0_r in *.
    pose proof (Hres 0%nat ltac:(lia)) as R0. rewrite I0 in R0.
    pose proof (Hres 1%nat ltac:(lia)) as R1. rewrite I1 in R1.
    pose proof (Hres 2%nat ltac:(lia)) as R2. rewrite I2 in R2.
    pose proof (Hres 3%nat ltac:(lia)) as R3. rewrite I3 in R3.
    pose proof (Hres 4%nat ltac:(lia)) as R4. rewrite I4 in R4.
    pose proof (Hres 5%nat ltac:(lia)) as R5. rewrite I5 in R5.
    apply E in R0, R1, R2, R3, R4, R5.
    rewrite T0, T1, T2, T3, T4, T5, R0, R1, R2, R3, R4, R5.
    repeat split; reflexivity.
  - intros i Hi.
    destruct (Ht i ltac:(lia)) as (T0 & T1 & T2 & T3 & T4 & T5).
    destruct (Ht (i + 1)%nat ltac:(lia)) as (S0 & S1 & S2 & S3 & _ & _).
    destruct (Dv i Hi) as (D0 & D1 & D2 & D3).
    pose proof (Hres (6 + i)%nat ltac:(lia)) as R0. rewrite D0 in R0.
    pose proof (Hres (6 + (N - 1) + i)%nat ltac:(lia)) as R1. rewrite D1 in R1.
    pose proof (Hres (6 + 2 * (N - 1) + i)%nat ltac:(lia)) as R2. rewrite D2 in R2.
    pose proof (Hres (6 + 3 * (N - 1) + i)%nat ltac:(lia)) as R3. rewrite D3 in R3.
    rewrite T0, T1, T2, T3, T4, T5, S0, S1, S2, S3.
    repeat split.
    + setoid_replace (getitem (channel (x_val sol) 0) (i + 1))
        with (getitem (channel (x_val sol) 0) (i + 1)
              - getitem (channel (x_val sol) 0) i
              - getitem (channel (x_val sol) 2) i * _dt self
              + (getitem (channel (x_val sol) 0) i
                 + getitem (channel (x_val sol) 2) i * _dt self)) by ring.
      rewrite R0. ring.
    + setoid_replace (getitem (channel (x_val sol) 1) (i + 1))
        with (getitem (channel (x_val sol) 1) (i + 1)
              - getitem (channel (x_val sol) 1) i
              - getitem (channel (x_val sol) 3) i * _dt self
              + (getitem (channel (x_val sol) 1) i
                 + getitem (channel (x_val sol) 3) i * _dt self)) by ring.
      rewrite R1. ring.
    + setoid_replace (getitem (channel (x_val sol) 2) (i + 1))
        with (getitem (channel (x_val sol) 2) (i + 1)
              - getitem (channel (x_val sol) 2) i
              - (getitem (channel (x_val sol) 4) i
                 - _friction self * getitem (channel (x_val sol) 2) i)
                / _mass self * _dt self
              + (getitem (channel (x_val sol) 2) i
                 + (getitem (channel (x_val sol) 4) i
                    - _friction self * getitem (channel (x_val sol) 2) i)
                   / _mass self * _dt self)) by (unfold Qdiv; ring).
      rewrite R2. ring.
    + setoid_replace (getitem (channel (x_val sol) 3) (i + 1))
        with (getitem (channel (x_val sol) 3) (i + 1)
              - getitem (channel (x_val sol) 3) i
              - (getitem (channel (x_val sol) 5) i
                 - _friction self * getitem (channel (x_val sol) 3) i)
                / _mass self * _dt self
              + (getitem (channel (x_val sol) 3) i
                 + (getitem (channel (x_val sol) 5) i
                    - _friction self * getitem (channel (x_val sol) 3) i)
                   / _mass self * _dt self)) by (unfold Qdiv; ring).
      rewrite R3. ring.
Qed.

Lemma published_plan_is_euler_rollout_witness :
  exists console self' context',
    parse_solution (set_solution (__init__ example_config) example_success) example_context
      pdb_quit
    = Returned console self' context'
    /\ getitem (output_callback context') (2 * 2 + (0 + 1))
       == getitem (output_callback context') (2 * 2 + 0)
          + getitem (output_callback context') (4 * 2 + 0) * (1 # 10).
Proof.
  destruct (published_plan_is_euler_rollout
              (set_solution (__init__ example_config) example_success) example_context
              example_success
              (convert_initial_conditions (__init__ example_config) example_context) 2
              pdb_quit)
    as (console & self' & context' & Hp & _ & Hstep).
  - lia.
  - reflexivity.
  - reflexivity.
  - reflexivity.
  - reflexivity.
  - left. reflexivity.
  - intros k Hk.
    do 10 (destruct k as [|k]; [vm_compute; reflexivity|]).
    simpl in Hk. lia.
  - exists console, self', context'. split; [exact Hp|].
    destruct (Hstep 0%nat ltac:(lia)) as (_ & _ & Hv & _). exact Hv.
Defined.

(** ** The box on the state channels *)

Lemma Forall_nth_default {A : Type} (P : A -> Prop) (l : list A) (d : A) (i : nat) :
  Forall P l -> P d -> P (nth i l d).
Proof.
  intros Hl Hd. revert i. induction Hl as [|x l Hx _ IH]; intros [|i]; simpl; auto.
Qed.

(** X7.  For the planar model the box keeps every position and velocity
    entry of a design vector within [-2, 2] and every control entry within
    [-0.075, 0.075]; the zero vector, which is both the setpoint and the
    first warm start, lies inside the box. *)
Theorem state_channels_box (config : Config) (N : nat) (x : vec) :
  state_dimension config = 2%nat -> nodes config = N ->
  length x = (9 * N)%nat ->
  let lb := opt_var_lb (__init__ config) in
  let ub := opt_var_ub (__init__ config) in
  in_box lb ub (_warm_start (__init__ config))
  /\ in_box lb ub (_setpoint (__init__ config))
  /\ (in_box lb ub x ->
      forall k i, (k < 6)%nat -> (i < N)%nat ->
        Qabs (getitem (channel x k) i) <= (if (k <? 4)%nat then 2 else 75 # 1000)).
Proof.
  intros Hd Hn Hx lb ub.
  destruct (init_bounds config N Hd Hn) as [Hlb Hub]. fold lb in Hlb. fold ub in Hub.
  assert (Hz : forall n, in_box lb ub (zeros n)).
  { intros n i _. rewrite getitem_zeros. split.
    - apply Forall_nth_default; [|exact I].
      rewrite Hlb. repeat (apply Forall_app; split);
        apply Forall_forall; intros l Hl; apply repeat_spec in Hl; subst l;
        simpl; try exact I; discriminate.
    - apply Forall_nth_default; [|exact I].
      rewrite Hub. repeat (apply Forall_app; split);
        apply Forall_forall; intros l Hl; apply repeat_spec in Hl; subst l;
        simpl; try exact I; discriminate. }
  split; [apply Hz|]. split; [apply Hz|].
  intros Hbox k i Hk Hi.
  rewrite (getitem_channel N) by (lia || assumption).
  destruct (Hbox (k * N + i)%nat ltac:(nia)) as [Hlo Hhi].
  rewrite Hlb in Hlo. rewrite Hub in Hhi.
  apply Qabs_Qle_condition.
  remember (getitem x (k * N + i)) as xi eqn:Exi. clear Exi.
  destruct k as [|[|[|[|[|[|k]]]]]]; try lia; cbn [Nat.ltb Nat.leb].
  - rewrite app_nth1 in Hlo by (rewrite repeat_length; lia).
    rewrite app_nth1 in Hhi by (rewrite repeat_length; lia).
    rewrite nth_repeat_lt in Hlo by lia. rewrite nth_repeat_lt in Hhi by lia.
    split; assumption.
  - rewrite app_nth1 in Hlo by (rewrite repeat_length; lia).
    rewrite app_nth1 in Hhi by (rewrite repeat_length; lia).
    rewrite nth_repeat_lt in Hlo by lia. rewrite nth_repeat_lt in Hhi by lia.
    split; assumption.
  - replace (2 * N + i)%nat with (2 * N + (0 + i))%nat in Hlo, Hhi by lia.
    rewrite (nth_app_at _ _ _ (2 * N)) in Hlo by apply repeat_length.
    rewrite (nth_app_at _ _ _ (2 * N)) in Hhi by apply repeat_length.
    rewrite app_nth1 in Hlo by (rewrite repeat_length; lia).
    rewrite app_nth1 in Hhi by (rewrite repeat_length; lia).
    rewrite nth_repeat_lt in Hlo by lia. rewrite nth_repeat_lt in Hhi by lia.
    split; assumption.
  - replace (3 * N + i)%nat with (2 * N + (N + i))%nat in Hlo, Hhi by lia.
    rewrite (nth_app_at _ _ _ (2 * N)) in Hlo by apply repeat_length.
    rewrite (nth_app_at _ _ _ (2 * N)) in Hhi by apply repeat_length.
    rewrite app_nth1 in Hlo by (rewrite repeat_length; lia).
    rewrite app_nth1 in Hhi by (rewrite repeat_length; lia).
    rewrite nth_repeat_lt in Hlo by lia. rewrite nth_repeat_lt in Hhi by lia.
    split; assumption.
  - replace (4 * N + i)%nat with (2 * N + (2 * N + (0 + i)))%nat in Hlo, Hhi by lia.
    rewrite !(nth_app_at _ _ _ (2 * N)) in Hlo by apply repeat_length.
    rewrite !(nth_app_at _ _ _ (2 * N)) in Hhi by apply repeat_length.
    rewrite app_nth1 in Hlo by (rewrite repeat_length; lia).
    rewrite app_nth1 in Hhi by (rewrite repeat_length; lia).
    rewrite nth_repeat_lt in Hlo by lia. rewrite nth_repeat_lt in Hhi by lia.
    split; assumption.
  - replace (5 * N + i)%nat with (2 * N + (2 * N + (N + i)))%nat in Hlo, Hhi by lia.
    rewrite !(nth_app_at _ _ _ (2 * N)) in Hlo by apply repeat_length.
    rewrite !(nth_app_at _ _ _ (2 * N)) in Hhi by apply repeat_length.
    rewrite app_nth1 in Hlo by (rewrite repeat_length; lia).
    rewrite app_nth1 in Hhi by (rewrite repeat_length; lia).
    rewrite nth_repeat_lt in Hlo by lia. rewrite nth_repeat_lt in Hhi by lia.
    split; assumption.
Qed.

Lemma state_channels_box_witness :
  in_box (opt_var_lb (__init__ example_config)) (opt_var_ub (__init__ example_config))
    (_warm_start (__init__ example_config)).
Proof.
  apply (state_channels_box example_config 2 example_plan); reflexivity.
Defined.

(** ** The node times *)

Lemma getitem_linspace (start stop : Q) (num i : nat) :
  (i < num)%nat ->
  getitem (linspace start stop num) i
  = start + inject_Z (Z.of_nat i)
            * ((stop - start) / inject_Z (Z.of_nat (num - 1))).
Proof.
  intros Hi. unfold getitem, linspace.
  rewrite (nth_indep _ 0
             (start + inject_Z (Z.of_nat 0)
                      * ((stop - start) / inject_Z (Z.of_nat (num - 1)))))
    by (rewrite length_map, length_seq; exact Hi).
  rewrite (map_nth (fun i => start + inject_Z (Z.of_nat i)
                                     * ((stop - start) / inject_Z (Z.of_nat (num - 1))))).
  now rewrite seq_nth.
Qed.

(** X8.  The node times of the planner are [N] equally spaced instants from
    0 to the time horizon: the first is 0, the last is the horizon (for at
    least two nodes) and consecutive nodes are [T / (N - 1)] apart.  Since
    node 0 is the present, the projected obstacle at node 0 is the measured
    obstacle position. *)
Theorem node_times_are_uniform (config : Config) (context : Context) (N : nat) :
  nodes config = N -> (2 <= N)%nat ->
  length (obstacle_states context) = 6%nat ->
  let self := __init__ config in
  let t := _time_vector self in
  length t = N
  /\ getitem t 0 == 0
  /\ getitem t (N - 1) == time_horizon config
  /\ (forall i, (i < N - 1)%nat ->
        getitem t (i + 1) - getitem t i
        == time_horizon config / inject_Z (Z.of_nat (N - 1)))
  /\ (forall a, (a < 2)%nat ->
        getitem (row (obstacle_trajectory_of self context) a) 0
        == getitem (obstacle_states context) a).
Proof.
  intros Hn HN Hobs self t.
  assert (Ht : t = linspace 0 (time_horizon config) N)
    by (subst t self; unfold __init__; cbn [_time_vector]; now rewrite Hn).
  assert (HNz : ~ inject_Z (Z.of_nat (N - 1)) == 0).
  { intros Hz. unfold Qeq in Hz. simpl in Hz. lia. }
  assert (L : length t = N)
    by (rewrite Ht; unfold linspace; now rewrite length_map, length_seq).
  assert (T0 : getitem t 0 == 0).
  { rewrite Ht, getitem_linspace by lia. simpl. unfold Qdiv. ring. }
  split; [exact L|]. split; [exact T0|].
  split.
  { rewrite Ht, getitem_linspace by lia. field. exact HNz. }
  split.
  { intros i Hi. rewrite Ht, !getitem_linspace by lia.
    rewrite Nat2Z.inj_add, inject_Z_plus. simpl (inject_Z (Z.of_nat 1)).
    field. exact HNz. }
  intros a Ha.
  rewrite (obstacle_trajectory_rows self context Hobs). fold t.
  destruct a as [|[|a]]; [| |lia]; cbn [row nth];
    unfold add_r, scale_l;
    rewrite getitem_map by (rewrite length_map; lia);
    rewrite getitem_map by lia; rewrite T0; ring.
Qed.

Lemma node_times_are_uniform_witness :
  getitem (_time_vector (__init__ example_config)) (2 - 1) == time_horizon example_config.
Proof.
  apply (node_times_are_uniform example_config example_context 2);
    first [reflexivity | lia].
Defined.

(** ** What the inequality rows ask *)

Section Meaning.

Variable sqrt : Q -> Q.

Lemma inequality_entries (self : QuadraticProgram) (N S : nat)
    (q : vec) (y n : matrix) (m b : vec) :
  (0 < N)%nat -> _full_size self = 6%nat -> _num_slack self = 3%nat ->
  length (_area_limit self) = 2%nat ->
  length q = (9 * N)%nat ->
  length y = 2%nat -> length (row y 0) = N -> length (row y 1) = N ->
  length n = 2%nat -> length (row n 0) = N -> length (row n 1) = N ->
  length m = S -> length b = S ->
  let r := inequality_func sqrt self q y n m b in
  (forall a j, (a < 2)%nat -> (j < N)%nat ->
     getitem r (a * N + j)
     = - getitem (channel q a) j - getitem (_area_limit self) a
       - getitem (channel q (6 + a)) j
     /\ getitem r (2 * N + a * N + j)
        = getitem (channel q a) j - getitem (_area_limit self) a
          - getitem (channel q (6 + a)) j)
  /\ (forall i j, (i < S)%nat -> (j < N)%nat ->
        getitem r (4 * N + i * N + j)
        = - (getitem m i * linearized_distance_at sqrt q y n j + getitem b i)
          + getitem (channel q 8) j).
Proof.
  intros HN Hfull Hslack Hlim Hq Hy Hy0 Hy1 Hn Hn0 Hn1 Hm Hb r.
  assert (Hlen : forall k, (k < 9)%nat -> length (channel q k) = N)
    by (intros k Hk; now apply length_channel).
  pose proof (Hlen 0%nat ltac:(lia)) as L0. pose proof (Hlen 1%nat ltac:(lia)) as L1.
  pose proof (Hlen 6%nat ltac:(lia)) as L6. pose proof (Hlen 7%nat ltac:(lia)) as L7.
  pose proof (Hlen 8%nat ltac:(lia)) as L8.
  set (l0 := getitem (_area_limit self) 0). set (l1 := getitem (_area_limit self) 1).
  set (ld := linearized_distance_of sqrt
               (msub [row y 0; row y 1] [channel q 0; channel q 1])
               [row n 0; row n 1]).
  assert (Hr : r = (vsub (sub_r (vneg (channel q 0)) l0) (channel q 6)
                    ++ vsub (sub_r (vneg (channel q 1)) l1) (channel q 7)
                    ++ vsub (sub_r (channel q 0) l0) (channel q 6)
                    ++ vsub (sub_r (channel q 1) l1) (channel q 7) ++ [])
                   ++ flatten (add_row (mneg (add_col (einsum_i_j_ij m ld) b))
                                       (channel q 8))).
  { subst r ld l0 l1. unfold inequality_func, _inequality_constraints.
    rewrite Hfull, Hslack. change (6 + 3)%nat with 9%nat.
    rewrite (nine_rows (reshape 9 q)) by (unfold reshape; apply length_chunks).
    fold (channel q 0) (channel q 1) (channel q 2) (channel q 3) (channel q 4)
         (channel q 5) (channel q 6) (channel q 7) (channel q 8).
    rewrite (two_rows y Hy) at 1. rewrite (two_rows n Hn) at 1.
    destruct (_area_limit self) as [|a0 [|a1 [|a2 l]]]; try discriminate Hlim.
    reflexivity. }
  assert (Lv0 : length (vneg (channel q 0)) = N) by (unfold vneg; now rewrite length_map).
  assert (Lv1 : length (vneg (channel q 1)) = N) by (unfold vneg; now rewrite length_map).
  pose proof (length_area_row _ _ l0 N Lv0 L6) as A0.
  pose proof (length_area_row _ _ l1 N Lv1 L7) as A1.
  pose proof (length_area_row _ _ l0 N L0 L6) as A2.
  pose proof (length_area_row _ _ l1 N L1 L7) as A3.
  assert (Lld : length ld = N).
  { destruct (getitem_linearized_distance sqrt q y n N 0 Hq Hy0 Hy1 Hn0 Hn1 HN) as [Hl _].
    exact Hl. }
  split.
  - intros a j Ha Hj. rewrite Hr.
    destruct a as [|[|a]]; [| |lia]; split.
    + replace (0 * N + j)%nat with j by lia.
      rewrite getitem_app_l by (rewrite !length_app, A0; lia).
      rewrite getitem_app_l by lia.
      rewrite (getitem_area_row _ _ _ N), getitem_vneg by (assumption || lia).
      reflexivity.
    + replace (2 * N + 0 * N + j)%nat with (N + (N + j))%nat by lia.
      rewrite getitem_app_l by (rewrite !length_app, A0, A1, A2; lia).
      rewrite !(getitem_app_r _ _ N) by assumption.
      rewrite getitem_app_l by lia.
      now rewrite (getitem_area_row _ _ _ N) by (assumption || lia).
    + replace (1 * N + j)%nat with (N + j)%nat by lia.
      rewrite getitem_app_l by (rewrite !length_app, A0, A1; lia).
      rewrite !(getitem_app_r _ _ N) by assumption.
      rewrite getitem_app_l by lia.
      rewrite (getitem_area_row _ _ _ N), getitem_vneg by (assumption || lia).
      reflexivity.
    + replace (2 * N + 1 * N + j)%nat with (N + (N + (N + j)))%nat by lia.
      rewrite getitem_app_l by (rewrite !length_app, A0, A1, A2, A3; lia).
      rewrite !(getitem_app_r _ _ N) by assumption.
      rewrite getitem_app_l by lia.
      now rewrite (getitem_area_row _ _ _ N) by (assumption || lia).
  - intros i j Hi Hj. rewrite Hr.
    replace (4 * N + i * N + j)%nat with (4 * N + (i * N + j))%nat by lia.
    rewrite (getitem_app_r _ _ (4 * N))
      by (rewrite !length_app, A0, A1, A2, A3; cbn [length]; lia).
    rewrite (getitem_risk_block m b ld (channel q 8) N Lld L8) by lia.
    destruct (getitem_linearized_distance sqrt q y n N j Hq Hy0 Hy1 Hn0 Hn1 Hj) as [_ Hg].
    fold ld in Hg. now rewrite Hg.
Qed.

(** X9.  What the inequality residual asks of a design vector: the two area
    rows of an axis at a node are both non-positive exactly when
    [|position| <= limit + slack], and the risk row of segment [i] at node
    [j] is non-positive exactly when the risk slack of the node is at most
    [slope[i] * linearized_distance[j] + intercept[i]]. *)
Theorem inequality_rows_meaning (self : QuadraticProgram) (N S : nat)
    (q : vec) (y n : matrix) (m b : vec) :
  (0 < N)%nat -> _full_size self = 6%nat -> _num_slack self = 3%nat ->
  length (_area_limit self) = 2%nat ->
  length q = (9 * N)%nat ->
  length y = 2%nat -> length (row y 0) = N -> length (row y 1) = N ->
  length n = 2%nat -> length (row n 0) = N -> length (row n 1) = N ->
  length m = S -> length b = S ->
  let r := inequality_func sqrt self q y n m b in
  (forall a j, (a < 2)%nat -> (j < N)%nat ->
     (getitem r (a * N + j) <= 0 /\ getitem r (2 * N + a * N + j) <= 0)
     <-> Qabs (getitem (channel q a) j)
         <= getitem (_area_limit self) a + getitem (channel q (6 + a)) j)
  /\ (forall i j, (i < S)%nat -> (j < N)%nat ->
        getitem r (4 * N + i * N + j) <= 0
        <-> getitem (channel q 8) j
            <= getitem m i * linearized_distance_at sqrt q y n j + getitem b i).
Proof.
  intros HN Hfull Hslack Hlim Hq Hy Hy0 Hy1 Hn Hn0 Hn1 Hm Hb r.
  destruct (inequality_entries self N S q y n m b
              HN Hfull Hslack Hlim Hq Hy Hy0 Hy1 Hn Hn0 Hn1 Hm Hb) as [Ha Hr].
  fold r in Ha, Hr. split.
  - intros a j Hlt Hj. destruct (Ha a j Hlt Hj) as [-> ->].
    rewrite Qabs_Qle_condition.
    split; intros [H1 H2]; split; lra.
  - intros i j Hi Hj. rewrite (Hr i j Hi Hj).
    split; intros H1; lra.
Qed.

End Meaning.

Lemma inequality_rows_meaning_witness :
  Qabs (getitem (channel example_plan 0) 1)
  <= getitem (_area_limit (__init__ example_config)) 0
     + getitem (channel example_plan (6 + 0)) 1.
Proof.
  apply (inequality_rows_meaning sqrt_floor (__init__ example_config) 2 3 example_plan
           (obstacle_trajectory_of (__init__ example_config) example_context)
           (halfspace_vector_of (__init__ example_config) example_context)
           [1; 2; 3] [0; 1; 2]); try first [lia | reflexivity].
  split; vm_compute; discriminate.
Defined.

(** ** From one tick to the next *)

Section Loop.

Variable sqrt : Q -> Q.
Variable jacfwd : (vec -> vec) -> vec -> matrix.
Variable jacfwd_scalar : (vec -> Q) -> vec -> vec.
Variable jacrev : (vec -> Q) -> vec -> vec.
Variable Solve : MathematicalProgram -> vec -> MathematicalProgramResult.

Local Abbreviation coefficients := (qp_coefficients sqrt jacfwd jacfwd_scalar jacrev).
Local Abbreviation tick := (update_qp sqrt jacfwd jacfwd_scalar jacrev Solve).

(** X10.  The solver is warm-started across ticks.  A tick that gets to
    its solve and whose solve succeeds stores the result and the solver
    time, makes the returned vector the warm start and keeps the program
    object, updated in place; wherever the next tick then ends with the
    instance intact, by returning or in the debugger, the result it has
    stored is that of solving the same program object, updated again, from
    the vector that the first solve returned. *)
Theorem next_solve_starts_from_returned_vector (self : QuadraticProgram)
    (c1 c2 : Context) (p : MathematicalProgram) (N : nat) (stdin1 : pdb_command) :
  prog self = Some p ->
  port_shapes_agree self c1 = true ->
  linearized_distance_is_finite (halfspace_vector_of self c1) = true ->
  _full_size self = 6%nat -> _num_slack self = 3%nat ->
  let p1 := update_program self p (coefficients self c1) in
  let sol1 := Solve p1 (_warm_start self) in
  is_success sol1 = true ->
  length (x_val sol1) = (9 * N)%nat ->
  exists self1 context1,
    tick self c1 stdin1 = Returned [] self1 context1
    /\ solution self1 = Some sol1
    /\ _optimizer_time self1 = optimizer_time sol1
    /\ _warm_start self1 = x_val sol1
    /\ prog self1 = Some p1
    /\ forall stdin2 self2 context2,
         final_state (tick self1 (new_tick c2 context1) stdin2) = Some (self2, context2) ->
         solution self2
         = Some (Solve (update_program self1 p1 (coefficients self1 (new_tick c2 context1)))
                   (x_val sol1)).
Proof.
  intros Hprog Hshape Hfin Hfull Hslack p1 sol1 Hok Hlen.
  assert (H1 : exists self1 context1,
            tick self c1 stdin1 = Returned [] self1 context1
            /\ solution self1 = Some sol1
            /\ _optimizer_time self1 = optimizer_time sol1
            /\ _warm_start self1 = x_val sol1
            /\ prog self1 = Some p1).
  { unfold update_qp. rewrite Hshape, Hprog, Hfin. cbn [negb]. fold p1. fold sol1.
    rewrite (parse_solution_decodes _ c1 sol1 N stdin1)
      by (reflexivity || assumption || (left; assumption)).
    rewrite Hok. cbn [negb].
    eexists. eexists. split; [reflexivity|].
    repeat split; reflexivity. }
  destruct H1 as (self1 & context1 & Ht1 & Hs1 & Ho1 & Hw1 & Hp1).
  exists self1, context1.
  do 5 (split; [assumption|]).
  intros stdin2 self2 context2 Hf.
  unfold update_qp in Hf.
  destruct (port_shapes_agree self1 (new_tick c2 context1)); [|discriminate Hf].
  rewrite Hp1 in Hf.
  destruct (linearized_distance_is_finite (halfspace_vector_of self1 (new_tick c2 context1)));
    [|discriminate Hf].
  cbn [negb] in Hf.
  apply parse_solution_constants in Hf.
  destruct Hf as (_ & _ & Hs2 & _).
  rewrite Hs2. cbn [solution set_optimizer_time set_solution _warm_start set_prog].
  now rewrite Hw1.
Qed.

(** X16.  A tick whose solve reports failure and whose debugger stop is
    quit ends in [BdbQuit] after the three diagnostic lines, with the warm
    start, the stored trajectory and the published trajectory it had before
    the tick; only the stored program, the stored result and the solver time
    are those of the failed solve.  A later tick on the instance therefore
    computes, on equal port values, the coefficients that it would have
    computed before the failed tick. *)
Theorem quit_after_failed_solve_keeps_plan (self : QuadraticProgram)
    (context : Context) (p : MathematicalProgram) :
  prog self = Some p ->
  port_shapes_agree self context = true ->
  linearized_distance_is_finite (halfspace_vector_of self context) = true ->
  let p1 := update_program self p (coefficients self context) in
  let sol := Solve p1 (_warm_start self) in
  is_success sol = false ->
  exists self',
    tick self context pdb_quit
    = BdbQuit [Print_did_not_solve; Print_solver_status (optimization_status sol);
               Print_objective_convex; Pdb_set_trace] self' context
    /\ _warm_start self' = _warm_start self
    /\ _full_state_trajectory self' = _full_state_trajectory self
    /\ prog self' = Some p1
    /\ solution self' = Some sol
    /\ _optimizer_time self' = optimizer_time sol
    /\ forall next : Context, coefficients self' next = coefficients self next.
Proof.
  intros Hprog Hshape Hfin p1 sol Hfail.
  unfold update_qp. rewrite Hshape, Hprog, Hfin. cbn [negb].
  unfold parse_solution.
  cbn [solution set_optimizer_time set_solution set_prog _warm_start].
  fold p1. fold sol. rewrite Hfail. cbn [negb].
  eexists. split; [reflexivity|].
  do 5 (split; [reflexivity|]).
  intros next.
  apply (coefficients_same_tick_state sqrt jacfwd jacfwd_scalar jacrev).
  split; [|reflexivity]. unfold same_constants. repeat split.
Qed.

End Loop.

Lemma next_solve_starts_from_returned_vector_witness :
  exists self1 context1,
    update_qp sqrt_floor difference_jacobian difference_gradient difference_gradient
      (constant_solver example_success) example_engine example_carried pdb_quit
    = Returned [] self1 context1
    /\ _warm_start self1 = example_plan
    /\ forall self2 context2,
         final_state
           (update_qp sqrt_floor difference_jacobian difference_gradient
              difference_gradient (constant_solver example_success) self1
              (new_tick example_context context1) pdb_quit)
         = Some (self2, context2) ->
         solution self2 = Some example_success.
Proof.
  destruct (next_solve_starts_from_returned_vector
              sqrt_floor difference_jacobian difference_gradient difference_gradient
              (constant_solver example_success) example_engine example_carried
              example_context _ 2 pdb_quit
              eq_refl eq_refl eq_refl eq_refl eq_refl eq_refl eq_refl)
    as (self1 & context1 & Ht & _ & _ & Hw & _ & Hnext).
  exists self1, context1. split; [exact Ht|]. split; [exact Hw|].
  intros self2 context2 Hf. exact (Hnext pdb_quit self2 context2 Hf).
Defined.

Lemma quit_after_failed_solve_keeps_plan_witness :
  exists self',
    update_qp sqrt_floor difference_jacobian difference_gradient difference_gradient
      (constant_solver example_failure) example_engine example_carried pdb_quit
    = BdbQuit [Print_did_not_solve; Print_solver_status 3;
               Print_objective_convex; Pdb_set_trace] self' example_carried
    /\ _warm_start self' = _warm_start example_engine.
Proof.
  destruct (quit_after_failed_solve_keeps_plan
              sqrt_floor difference_jacobian difference_gradient difference_gradient
              (constant_solver example_failure) example_engine example_carried
              _ eq_refl eq_refl eq_refl eq_refl)
    as (self' & Ht & Hw & _).
  exists self'. split; assumption.
Defined.

(** ** The stand-alone script *)

Lemma Qminus_zero_iff (u v : Q) : u - v == 0 <-> u == v.
Proof. split; intros Huv; lra. Qed.

Lemma dot_five (a0 a1 a2 a3 a4 v0 v1 v2 v3 v4 : Q) :
  dot [a0; a1; a2; a3; a4] [v0; v1; v2; v3; v4]
  == a0 * v0 + a1 * v1 + a2 * v2 + a3 * v3 + a4 * v4.
Proof. unfold dot, vsum, vmul, zip_with. simpl. ring. Qed.

Lemma collocation_rows_iff_loop (x dx ux : vec) (i : nat) :
  quadratic_program.matrix_constraint_holds x dx ux i
  <-> quadratic_program.loop_constraint_holds x dx ux i.
Proof.
  unfold quadratic_program.matrix_constraint_holds,
    quadratic_program.loop_constraint_holds,
    quadratic_program._A_collocation, quadratic_program.collocation_vars.
  set (dt := quadratic_program.dt). set (m := quadratic_program.mass).
  set (fr := quadratic_program.friction).
  set (x0 := getitem x i). set (x1 := getitem x (i + 1)).
  set (d0 := getitem dx i). set (d1 := getitem dx (i + 1)). set (u0 := getitem ux i).
  cbv zeta.
  assert (R0 : dot [1; - (1); dt; 0; 0] [x0; x1; d0; d1; u0] == x0 + d0 * dt - x1)
    by (rewrite dot_five; ring).
  assert (R1 : dot [0; 0; 1 - fr / m * dt; - (1); dt / m] [x0; x1; d0; d1; u0]
               == d0 + (u0 - fr * d0) / m * dt - d1)
    by (rewrite dot_five; unfold Qdiv; ring).
  split.
  - intros Hf. inversion Hf as [|r0 l0 H0 Hf']; subst.
    inversion Hf' as [|r1 l1 H1 _]; subst.
    rewrite R0 in H0. rewrite R1 in H1.
    split; now apply Qminus_zero_iff.
  - intros [H0 H1].
    constructor; [|constructor; [|constructor]].
    + rewrite R0. now apply Qminus_zero_iff.
    + rewrite R1. now apply Qminus_zero_iff.
Qed.

(** X11.  In [quadratic_program.py] the two statements of the collocation
    agree: the two rows of [_A_collocation] vanish on
    [x[i], x[i+1], dx[i], dx[i+1], ux[i]] exactly when the two equations of
    the closing loop hold, so the loop adds no constraint beyond the matrix
    form. *)
Theorem collocation_matrix_is_euler_step (x dx ux : vec) (i : nat) :
  quadratic_program.matrix_constraint_holds x dx ux i
  <-> quadratic_program.loop_constraint_holds x dx ux i.
Proof. apply collocation_rows_iff_loop. Qed.

(** X12.  The matrix form of the script is the collocation of the planner:
    called with the script's mass, friction and step, the planner's
    [_equality_constraints] has zero position and velocity defects of both
    axes at a transition exactly when the script's matrix constraint holds
    there for both axes. *)
Theorem script_and_planner_collocation_agree (N : nat) (q ic : vec) (i : nat) :
  (0 < N)%nat -> length q = (9 * N)%nat -> (i < N - 1)%nat ->
  let r := _equality_constraints q ic quadratic_program.mass
             quadratic_program.friction quadratic_program.dt 6 3 in
  (getitem r (6 + i) == 0 /\ getitem r (6 + 2 * (N - 1) + i) == 0
   /\ getitem r (6 + (N - 1) + i) == 0 /\ getitem r (6 + 3 * (N - 1) + i) == 0)
  <-> (quadratic_program.matrix_constraint_holds
         (channel q 0) (channel q 2) (channel q 4) i
       /\ quadratic_program.matrix_constraint_holds
            (channel q 1) (channel q 3) (channel q 5) i).
Proof.
  intros HN Hq Hi r.
  destruct (equality_constraints_entries N q ic quadratic_program.mass
              quadratic_program.friction quadratic_program.dt HN Hq) as (_ & _ & Hd).
  fold r in Hd. destruct (Hd i Hi) as (D0 & D1 & D2 & D3).
  rewrite D0, D1, D2, D3.
  rewrite !collocation_rows_iff_loop.
  unfold quadratic_program.loop_constraint_holds. cbv zeta.
  split.
  - intros (H0 & H2 & H1 & H3). repeat split; lra.
  - intros ((H0 & H2) & (H1 & H3)). repeat split; lra.
Qed.

Lemma script_and_planner_collocation_agree_witness :
  (getitem (_equality_constraints example_plan (initial_condition example_context)
              quadratic_program.mass quadratic_program.friction quadratic_program.dt 6 3)
           (6 + 0) == 0
   /\ getitem (_equality_constraints example_plan (initial_condition example_context)
                 quadratic_program.mass quadratic_program.friction quadratic_program.dt 6 3)
              (6 + 2 * (2 - 1) + 0) == 0
   /\ getitem (_equality_constraints example_plan (initial_condition example_context)
                 quadratic_program.mass quadratic_program.friction quadratic_program.dt 6 3)
              (6 + (2 - 1) + 0) == 0
   /\ getitem (_equality_constraints example_plan (initial_condition example_context)
                 quadratic_program.mass quadratic_program.friction quadratic_program.dt 6 3)
              (6 + 3 * (2 - 1) + 0) == 0)
  <-> (quadratic_program.matrix_constraint_holds
         (channel example_plan 0) (channel example_plan 2) (channel example_plan 4) 0
       /\ quadratic_program.matrix_constraint_holds
            (channel example_plan 1) (channel example_plan 3) (channel example_plan 5) 0).
Proof.
  apply (script_and_planner_collocation_agree 2 example_plan
           (initial_condition example_context) 0); first [reflexivity | lia].
Defined.

Lemma vsum_app (a b : vec) : vsum (a ++ b) == vsum a + vsum b.
Proof.
  induction a as [|x a IH].
  - unfold vsum at 2. simpl. ring.
  - change ((x :: a) ++ b) with (x :: (a ++ b)).
    rewrite !vsum_cons, IH. ring.
Qed.

Lemma vsum_square_nonneg (v : vec) : 0 <= vsum (square v).
Proof.
  induction v as [|x v IH].
  - unfold vsum. simpl. apply Qle_refl.
  - change (square (x :: v)) with ((x * x) :: square v).
    rewrite vsum_cons.
    assert (0 <= x * x) by nra. lra.
Qed.

Lemma sum_of_errors_from_two (x : vec) :
  (2 <= length x)%nat -> getitem x 0 == 0 -> getitem x 1 == 0 ->
  2 <= vsum (square (map (fun a => 1 - a) x)).
Proof.
  intros Hl H0 H1.
  destruct x as [|x0 [|x1 x]]; simpl in Hl; try lia.
  unfold getitem in H0, H1. simpl in H0, H1.
  change (square (map (fun a => 1 - a) (x0 :: x1 :: x)))
    with (((1 - x0) * (1 - x0)) :: ((1 - x1) * (1 - x1))
          :: square (map (fun a => 1 - a) x)).
  rewrite !vsum_cons, H0, H1.
  pose proof (vsum_square_nonneg (map (fun a => 1 - a) x)) as Hn. lra.
Qed.

Lemma dot_six_unit (k : nat) (v0 v1 v2 v3 v4 v5 : Q) :
  (k < 6)%nat ->
  dot (unit_vec 6 k) [v0; v1; v2; v3; v4; v5] == getitem [v0; v1; v2; v3; v4; v5] k.
Proof.
  intros Hk.
  do 6 (destruct k as [|k]; [unfold dot, vsum, getitem; simpl; ring|]). lia.
Qed.

(** X13.  In [quadratic_program.py] every point that meets the
    initial-condition constraint and the collocation constraint of the first
    transition has both planar positions at zero at nodes 0 and 1, so the
    tracking cost towards the target (1, 1) is at least 4: the optimal cost
    that the script prints cannot be smaller. *)
Theorem script_cost_is_at_least_four (x y dx dy ux uy : vec) :
  length x = quadratic_program.num_nodes ->
  length y = quadratic_program.num_nodes ->
  quadratic_program.initial_condition_holds x y dx dy ux uy ->
  quadratic_program.matrix_constraint_holds x dx ux 0 ->
  quadratic_program.matrix_constraint_holds y dy uy 0 ->
  getitem x 1 == 0 /\ getitem y 1 == 0 /\ 4 <= quadratic_program.objective_task x y.
Proof.
  intros Lx Ly Hic Hx Hy.
  unfold quadratic_program.initial_condition_holds in Hic.
  assert (Hk : forall k, (k < 6)%nat ->
            getitem [getitem x 0; getitem y 0; getitem dx 0; getitem dy 0;
                     getitem ux 0; getitem uy 0] k == 0).
  { intros k Hk. rewrite <- (dot_six_unit k) by exact Hk.
    rewrite Forall_forall in Hic. apply Hic.
    unfold quadratic_program.eye. apply in_map. apply in_seq.
    unfold quadratic_program.full_size, quadratic_program.dim_size. lia. }
  pose proof (Hk 0%nat ltac:(lia)) as X0. pose proof (Hk 1%nat ltac:(lia)) as Y0.
  pose proof (Hk 2%nat ltac:(lia)) as DX0. pose proof (Hk 3%nat ltac:(lia)) as DY0.
  unfold getitem at 1 in X0. unfold getitem at 1 in Y0.
  unfold getitem at 1 in DX0. unfold getitem at 1 in DY0.
  cbn [nth] in X0, Y0, DX0, DY0.
  apply collocation_rows_iff_loop in Hx, Hy.
  destruct Hx as [Hx _]. destruct Hy as [Hy _].
  change (0 + 1)%nat with 1%nat in Hx, Hy.
  assert (X1 : getitem x 1 == 0) by (rewrite <- Hx, X0, DX0; ring).
  assert (Y1 : getitem y 1 == 0) by (rewrite <- Hy, Y0, DY0; ring).
  split; [exact X1|]. split; [exact Y1|].
  unfold quadratic_program.objective_task, flatten. cbn [map concat].
  rewrite !vsum_app.
  assert (L2 : forall v : vec, length v = quadratic_program.num_nodes -> (2 <= length v)%nat)
    by (intros v ->; unfold quadratic_program.num_nodes; lia).
  pose proof (sum_of_errors_from_two x (L2 x Lx) X0 X1) as Sx.
  pose proof (sum_of_errors_from_two y (L2 y Ly) Y0 Y1) as Sy.
  assert (Hnil : vsum [] == 0) by reflexivity.
  rewrite Hnil. lra.
Qed.

Lemma script_cost_is_at_least_four_witness :
  4 <= quadratic_program.objective_task (zeros 101) (zeros 101).
Proof.
  apply (script_cost_is_at_least_four (zeros 101) (zeros 101) (zeros 101) (zeros 101)
           (zeros 101) (zeros 101)).
  - reflexivity.
  - reflexivity.
  - repeat constructor.
  - repeat constructor.
  - repeat constructor.
Defined.

(** ** The trajectory parser behind the planner *)

Lemma chunks_concat (n : nat) (rows : matrix) :
  Forall (fun r => length r = n) rows ->
  chunks n (length rows) (concat rows) = rows.
Proof.
  induction 1 as [|r rows Hr _ IH]; simpl; [reflexivity|].
  rewrite firstn_app, Hr, Nat.sub_diag, firstn_all2 by lia.
  simpl. rewrite app_nil_r.
  rewrite skipn_app, Hr, Nat.sub_diag, skipn_all2 by lia.
  simpl. now rewrite IH.
Qed.

Lemma veq_refl (a : vec) : veq a a.
Proof. induction a; constructor; [reflexivity | assumption]. Qed.

Section Parser.

Variable value : trajectory_parser.PiecewisePolynomial -> Q -> vec.

(** X14.  The parser reads the planner's output as the planner wrote it.
    When a parser of the same node count receives the trajectory that
    [parse_solution] published for a solver vector [v] (after a success, or
    when the debugger was resumed), the samples of the
    hold it stores are six rows of [N] entries, the channels [x, y, dx, dy]
    of [v] and the two derived accelerations, over the parser's own node
    times, and the time of the event becomes the origin of the hold.  An
    output event at time [t] then publishes the library's [value] of that
    hold at [t] minus the time of the input event, and column [j] of the
    samples is node [j] of the plan. *)
Theorem parser_stores_planned_channels (self : QuadraticProgram) (context : Context)
    (sol : MathematicalProgramResult) (N : nat)
    (parser : trajectory_parser.TrajectoryParser)
    (pin pout : trajectory_parser.Context) (stdin : pdb_command) :
  (0 < N)%nat -> solution self = Some sol ->
  _full_size self = 6%nat -> _num_slack self = 3%nat ->
  length (x_val sol) = (9 * N)%nat ->
  is_success sol = true \/ stdin = pdb_continue ->
  trajectory_parser._nodes parser = N ->
  trajectory_parser.parser_input pin
  = match parse_solution self context stdin with
    | Returned _ _ context' => output_callback context'
    | _ => []
    end ->
  let v := x_val sol in
  let parser' := trajectory_parser.periodic_input_event parser pin in
  let hold :=
    trajectory_parser.FirstOrderHold (trajectory_parser._time_trajectory parser)
      [channel v 0; channel v 1; channel v 2; channel v 3;
       compute_acceleration self (channel v 4) (channel v 2);
       compute_acceleration self (channel v 5) (channel v 3)] in
  trajectory_parser.trajectory parser' = Some hold
  /\ trajectory_parser._trajectory_time parser'
     = Some (trajectory_parser.get_time pin)
  /\ trajectory_parser.periodic_output_event value parser' pout
     = Some (trajectory_parser.set_value pout
               (value hold (trajectory_parser.get_time pout
                            - trajectory_parser.get_time pin)))
  /\ forall j, (j < N)%nat ->
       column (trajectory_parser.samples hold) j
       = [getitem (channel v 0) j; getitem (channel v 1) j;
          getitem (channel v 2) j; getitem (channel v 3) j;
          (getitem (channel v 4) j - _friction self * getitem (channel v 2) j)
          / _mass self;
          (getitem (channel v 5) j - _friction self * getitem (channel v 3) j)
          / _mass self].
Proof.
  intros HN Hsol Hfull Hslack Hlen Hgo Hnodes Hin v parser' hold.
  pose proof (parse_solution_decodes self context sol N stdin Hsol Hfull Hslack Hlen Hgo)
    as Hp.
  cbv zeta in Hp. rewrite Hp in Hin.
  cbn [output_callback abstract_state set_value] in Hin.
  assert (Hlenk : forall k, (k < 9)%nat -> length (channel v k) = N)
    by (intros k Hk; now apply length_channel).
  assert (Hacc : forall a b, (a < 9)%nat -> (b < 9)%nat ->
            length (compute_acceleration self (channel v a) (channel v b)) = N).
  { intros a b Ha Hb. unfold compute_acceleration.
    apply length_drag_acceleration; now apply Hlenk. }
  assert (Hsamples : reshape_cols N (trajectory_parser.parser_input pin)
                     = trajectory_parser.samples hold).
  { rewrite Hin. unfold reshape_cols, flatten.
    set (rows := [channel (x_val sol) 0; channel (x_val sol) 1; channel (x_val sol) 2;
                  channel (x_val sol) 3;
                  compute_acceleration self (channel (x_val sol) 4) (channel (x_val sol) 2);
                  compute_acceleration self (channel (x_val sol) 5) (channel (x_val sol) 3)]).
    assert (Hrows : Forall (fun r => length r = N) rows).
    { subst rows. repeat constructor; first [apply Hlenk; lia | apply Hacc; lia]. }
    assert (Hcl : length (concat rows) = (6 * N)%nat).
    { subst rows. cbn [concat]. rewrite !length_app.
      rewrite !Hlenk, !Hacc by lia. simpl. lia. }
    rewrite Hcl, Nat.div_mul by lia.
    change 6%nat with (length rows). now apply chunks_concat. }
  split; [|split; [|split]].
  - subst parser' hold. unfold trajectory_parser.periodic_input_event.
    cbn [trajectory_parser.trajectory trajectory_parser.set_trajectory].
    rewrite Hnodes, Hsamples. reflexivity.
  - reflexivity.
  - subst parser'. unfold trajectory_parser.periodic_output_event,
      trajectory_parser.periodic_input_event.
    cbn [trajectory_parser.trajectory trajectory_parser._trajectory_time
         trajectory_parser.set_trajectory].
    rewrite Hnodes, Hsamples. reflexivity.
  - intros j Hj. subst hold.
    cbn [trajectory_parser.samples trajectory_parser.FirstOrderHold column map].
    unfold compute_acceleration.
    rewrite !(getitem_drag_acceleration _ _ _ _ N) by (try apply Hlenk; lia).
    reflexivity.
Qed.

End Parser.

Lemma parser_stores_planned_channels_witness :
  trajectory_parser.trajectory example_parser
  = Some (trajectory_parser.FirstOrderHold
            (trajectory_parser._time_trajectory
               (trajectory_parser.on_initialize (trajectory_parser.__init__ example_config)))
            [channel example_plan 0; channel example_plan 1;
             channel example_plan 2; channel example_plan 3;
             compute_acceleration (set_solution (__init__ example_config) example_success)
               (channel example_plan 4) (channel example_plan 2);
             compute_acceleration (set_solution (__init__ example_config) example_success)
               (channel example_plan 5) (channel example_plan 3)]).
Proof.
  apply (parser_stores_planned_channels trajectory_parser.linear_value
           (set_solution (__init__ example_config) example_success) example_context
           example_success 2
           (trajectory_parser.on_initialize (trajectory_parser.__init__ example_config))
           example_parser_context example_parser_context pdb_quit).
  - lia.
  - reflexivity.
  - reflexivity.
  - reflexivity.
  - reflexivity.
  - left. reflexivity.
  - reflexivity.
  - vm_compute. reflexivity.
Defined.

(** The parser of the example, asked at the instant the plan arrived and
    half a horizon later: node 0 of the plan, then the midpoint of its two
    nodes. *)
Lemma example_parser_output :
  option_map (fun c => map Qred (trajectory_parser.output_callback c))
    (trajectory_parser.periodic_output_event trajectory_parser.linear_value
       example_parser example_parser_context)
  = Some [1 # 2; 0; 0; 0; 25 # 9; - (1)]
  /\ option_map (fun c => map Qred (trajectory_parser.output_callback c))
       (trajectory_parser.periodic_output_event trajectory_parser.linear_value
          example_parser
          {| trajectory_parser.get_time := 1;
             trajectory_parser.parser_input := [];
             trajectory_parser.abstract_state := [] |})
     = Some [1 # 2; 0; 5 # 36; - (1 # 20); 325 # 243; - (13 # 27)].
Proof. split; vm_compute; reflexivity. Qed.

(** ** The inequality residual is affine *)

Section Affine.

Variable sqrt : Q -> Q.

Lemma linearized_distance_at_vadd (N : nat) (a b : vec) (y n : matrix) (j : nat) :
  length a = (9 * N)%nat -> length b = (9 * N)%nat -> (j < N)%nat ->
  linearized_distance_at sqrt (vadd a b) y n j
  + linearized_distance_at sqrt (zeros (9 * N)) y n j
  == linearized_distance_at sqrt a y n j + linearized_distance_at sqrt b y n j.
Proof.
  intros Ha Hb Hj. unfold linearized_distance_at, dot_with_halfspace.
  rewrite !getitem_channel_zeros.
  rewrite !(getitem_channel_vadd N) by (assumption || lia).
  unfold Qdiv. ring.
Qed.

(** X15.  For fixed obstacle trajectory, halfspace vector and risk
    parameters the inequality residual is affine in the design vector:
    entry by entry, [r(a + b) + r(0) == r(a) + r(b)], on the area rows and
    on the risk rows.  With the affine equality residual this makes the
    program built at the zero setpoint the constraint set itself, not an
    approximation of it. *)
Theorem inequality_residual_is_affine (self : QuadraticProgram) (N S : nat)
    (a b : vec) (y n : matrix) (m c : vec) :
  (0 < N)%nat -> _full_size self = 6%nat -> _num_slack self = 3%nat ->
  length (_area_limit self) = 2%nat ->
  length a = (9 * N)%nat -> length b = (9 * N)%nat ->
  length y = 2%nat -> length (row y 0) = N -> length (row y 1) = N ->
  length n = 2%nat -> length (row n 0) = N -> length (row n 1) = N ->
  length m = S -> length c = S ->
  let r := fun q => inequality_func sqrt self q y n m c in
  (forall k j, (k < 4)%nat -> (j < N)%nat ->
     getitem (r (vadd a b)) (k * N + j) + getitem (r (zeros (9 * N))) (k * N + j)
     == getitem (r a) (k * N + j) + getitem (r b) (k * N + j))
  /\ (forall i j, (i < S)%nat -> (j < N)%nat ->
        getitem (r (vadd a b)) (4 * N + i * N + j)
        + getitem (r (zeros (9 * N))) (4 * N + i * N + j)
        == getitem (r a) (4 * N + i * N + j) + getitem (r b) (4 * N + i * N + j)).
Proof.
  intros HN Hfull Hslack Hlim Ha Hb Hy Hy0 Hy1 Hn Hn0 Hn1 Hm Hc r.
  assert (Hab : length (vadd a b) = (9 * N)%nat)
    by (unfold vadd; rewrite length_zip_with; lia).
  assert (Hz : length (zeros (9 * N)) = (9 * N)%nat) by apply repeat_length.
  destruct (inequality_entries sqrt self N S (vadd a b) y n m c
              HN Hfull Hslack Hlim Hab Hy Hy0 Hy1 Hn Hn0 Hn1 Hm Hc) as [Aab Rab].
  destruct (inequality_entries sqrt self N S (zeros (9 * N)) y n m c
              HN Hfull Hslack Hlim Hz Hy Hy0 Hy1 Hn Hn0 Hn1 Hm Hc) as [Az Rz].
  destruct (inequality_entries sqrt self N S a y n m c
              HN Hfull Hslack Hlim Ha Hy Hy0 Hy1 Hn Hn0 Hn1 Hm Hc) as [Aa Ra].
  destruct (inequality_entries sqrt self N S b y n m c
              HN Hfull Hslack Hlim Hb Hy Hy0 Hy1 Hn Hn0 Hn1 Hm Hc) as [Ab Rb].
  cbv zeta in *. subst r. cbv beta. split.
  - intros k j Hk Hj.
    destruct k as [|[|[|[|k]]]]; try lia.
    + destruct (Aab 0%nat j ltac:(lia) Hj) as [-> _].
      destruct (Az 0%nat j ltac:(lia) Hj) as [-> _].
      destruct (Aa 0%nat j ltac:(lia) Hj) as [-> _].
      destruct (Ab 0%nat j ltac:(lia) Hj) as [-> _].
      rewrite !getitem_channel_zeros.
      rewrite !(getitem_channel_vadd N) by (assumption || lia). ring.
    + destruct (Aab 1%nat j ltac:(lia) Hj) as [-> _].
      destruct (Az 1%nat j ltac:(lia) Hj) as [-> _].
      destruct (Aa 1%nat j ltac:(lia) Hj) as [-> _].
      destruct (Ab 1%nat j ltac:(lia) Hj) as [-> _].
      rewrite !getitem_channel_zeros.
      rewrite !(getitem_channel_vadd N) by (assumption || lia). ring.
    + replace (2 * N + j)%nat with (2 * N + 0 * N + j)%nat by lia.
      destruct (Aab 0%nat j ltac:(lia) Hj) as [_ ->].
      destruct (Az 0%nat j ltac:(lia) Hj) as [_ ->].
      destruct (Aa 0%nat j ltac:(lia) Hj) as [_ ->].
      destruct (Ab 0%nat j ltac:(lia) Hj) as [_ ->].
      rewrite !getitem_channel_zeros.
      rewrite !(getitem_channel_vadd N) by (assumption || lia). ring.
    + replace (3 * N + j)%nat with (2 * N + 1 * N + j)%nat by lia.
      destruct (Aab 1%nat j ltac:(lia) Hj) as [_ ->].
      destruct (Az 1%nat j ltac:(lia) Hj) as [_ ->].
      destruct (Aa 1%nat j ltac:(lia) Hj) as [_ ->].
      destruct (Ab 1%nat j ltac:(lia) Hj) as [_ ->].
      rewrite !getitem_channel_zeros.
      rewrite !(getitem_channel_vadd N) by (assumption || lia). ring.
  - intros i j Hi Hj.
    rewrite (Rab i j Hi Hj), (Rz i j Hi Hj), (Ra i j Hi Hj), (Rb i j Hi Hj).
    rewrite getitem_channel_zeros.
    rewrite (getitem_channel_vadd N) by (assumption || lia).
    pose proof (linearized_distance_at_vadd N a b y n j Ha Hb Hj) as Hld.
    set (lab := linearized_distance_at sqrt (vadd a b) y n j) in *.
    set (lz := linearized_distance_at sqrt (zeros (9 * N)) y n j) in *.
    set (la := linearized_distance_at sqrt a y n j) in *.
    set (lb := linearized_distance_at sqrt b y n j) in *.
    assert (Hm' : getitem m i * (lab + lz) == getitem m i * (la + lb))
      by (rewrite Hld; reflexivity).
    lra.
Qed.

End Affine.

Lemma inequality_residual_is_affine_witness :
  getitem (inequality_func sqrt_floor (__init__ example_config)
             (vadd example_plan example_design)
             (obstacle_trajectory_of (__init__ example_config) example_context)
             (halfspace_vector_of (__init__ example_config) example_context)
             [1; 2; 3] [0; 1; 2]) (4 * 2 + 1 * 2 + 0)
  + getitem (inequality_func sqrt_floor (__init__ example_config) (zeros (9 * 2))
               (obstacle_trajectory_of (__init__ example_config) example_context)
               (halfspace_vector_of (__init__ example_config) example_context)
               [1; 2; 3] [0; 1; 2]) (4 * 2 + 1 * 2 + 0)
  == getitem (inequality_func sqrt_floor (__init__ example_config) example_plan
                (obstacle_trajectory_of (__init__ example_config) example_context)
                (halfspace_vector_of (__init__ example_config) example_context)
                [1; 2; 3] [0; 1; 2]) (4 * 2 + 1 * 2 + 0)
     + getitem (inequality_func sqrt_floor (__init__ example_config) example_design
                  (obstacle_trajectory_of (__init__ example_config) example_context)
                  (halfspace_vector_of (__init__ example_config) example_context)
                  [1; 2; 3] [0; 1; 2]) (4 * 2 + 1 * 2 + 0).
Proof.
  apply (inequality_residual_is_affine sqrt_floor (__init__ example_config) 2 3
           example_plan example_design
           (obstacle_trajectory_of (__init__ example_config) example_context)
           (halfspace_vector_of (__init__ example_config) example_context)
           [1; 2; 3] [0; 1; 2]); first [lia | reflexivity].
Defined.
